(** * CIDL: remote dataset access, caching and truth/simulation reconciliation

    A shallow embedding of the Python modules [backend.py], [loaders.py]
    and [truth_matcher.py].  Python functions that touch the module
    globals, the object store or the terminal are written in a
    state-and-exception monad over an explicit [world]; everything else is
    a pure function.  The object store is an oracle that answers each
    request from the history of requests made so far, so that the
    statements hold for every behaviour of the store. *)

From Stdlib Require Import Ascii String.
From stdpp Require Import base gmap sets list strings pretty sorting.

#[local] Set Warnings "-clear-no-such-hyp".
Local Open Scope string_scope.
Local Open Scope Z_scope.

(** ** Python runtime: exceptions, strings, sorted sets *)
Module Py.

(** The exception classes that the three modules raise or catch.  The text
    carried by each constructor is what [str(e)] yields. *)
Inductive exn : Type :=
| ValueError (msg : string)
| TypeError (msg : string)
| RuntimeError (msg : string)
| PermissionError (msg : string)
| FileNotFoundError (msg : string)
| AttributeError (msg : string)
| OverflowError (msg : string)
| ClientError (code : string) (text : string)
| OtherException (text : string).

(** [str(e)].  For a botocore [ClientError], [code] is the entry
    [response["Error"]["Code"]] and [text] the rendered message. *)
Definition exn_str (e : exn) : string :=
  match e with
  | ValueError m | TypeError m | RuntimeError m
  | PermissionError m | FileNotFoundError m | AttributeError m
  | OverflowError m => m
  | ClientError _ t => t
  | OtherException t => t
  end.

Inductive result (A : Type) : Type :=
| Ok (a : A)
| Raise (e : exn).
Arguments Ok {A} a.
Arguments Raise {A} e.

Definition bytes : Type := list Byte.byte.


Definition newline : string := String (ascii_of_nat 10) EmptyString.

(** A [str] is held as the bytes of its UTF-8 form, which is also how a
    string literal is read here.  [chars] cuts a text into its characters:
    a lead byte with the continuation bytes that it announces, and every
    other byte by itself; a byte above 127 that stands by itself counts as
    the code point of its number. *)
Definition byte_in (lo hi : N) (c : ascii) : bool :=
  (lo <=? N_of_ascii c)%N && (N_of_ascii c <=? hi)%N.

Definition continuation (c : ascii) : bool := byte_in 128 191 c.

Fixpoint chars (s : string) : list string :=
  match s with
  | EmptyString => []
  | String a s1 =>
      match s1 with
      | EmptyString => [String a EmptyString]
      | String b s2 =>
          if byte_in 194 223 a && continuation b
          then String a (String b EmptyString) :: chars s2
          else
            match s2 with
            | EmptyString => String a EmptyString :: chars s1
            | String c s3 =>
                if byte_in 224 239 a && continuation b && continuation c
                then String a (String b (String c EmptyString)) :: chars s3
                else
                  match s3 with
                  | EmptyString => String a EmptyString :: chars s1
                  | String d s4 =>
                      if byte_in 240 244 a && continuation b && continuation c
                         && continuation d
                      then String a (String b (String c (String d EmptyString)))
                             :: chars s4
                      else String a EmptyString :: chars s1
                  end
            end
      end
  end.

(** White space as [str.isspace] and [str.strip] have it: the code points
    9-13, 28-32, U+0085, U+00A0, U+1680, U+2000 to U+200A, U+2028, U+2029,
    U+202F, U+205F and U+3000. *)
Definition is_space (c : string) : bool :=
  match c with
  | String a EmptyString =>
      byte_in 9 13 a || byte_in 28 32 a || byte_in 133 133 a || byte_in 160 160 a
  | String a (String b EmptyString) =>
      byte_in 194 194 a && (byte_in 133 133 b || byte_in 160 160 b)
  | String a (String b (String c EmptyString)) =>
      (byte_in 225 225 a && byte_in 154 154 b && byte_in 128 128 c)
      || (byte_in 226 226 a && byte_in 128 128 b
          && (byte_in 128 138 c || byte_in 168 169 c || byte_in 175 175 c))
      || (byte_in 226 226 a && byte_in 129 129 b && byte_in 159 159 c)
      || (byte_in 227 227 a && byte_in 128 128 b && byte_in 128 128 c)
  | _ => false
  end.

Fixpoint skip_spaces (cs : list string) : list string :=
  match cs with
  | [] => []
  | c :: cs' => if is_space c then skip_spaces cs' else cs
  end.

(** [s.strip()]: the white space at both ends is removed, whole characters
    at a time. *)
Definition str_strip (s : string) : string :=
  foldr String.append EmptyString
    (rev (skip_spaces (rev (skip_spaces (chars s))))).

(** The text with the given bytes. *)
Definition of_bytes (l : list Z) : string :=
  foldr (λ n s, String (ascii_of_N (Z.to_N n)) s) EmptyString l.

(** [s.strip(chars)] for ASCII characters, which are single bytes that occur
    in no longer character. *)
Fixpoint lstrip (p : ascii → bool) (s : string) : string :=
  match s with
  | EmptyString => EmptyString
  | String c s' => if p c then lstrip p s' else s
  end.

Definition rstrip (p : ascii → bool) (s : string) : string :=
  String.rev (lstrip p (String.rev s)).

Definition strip (p : ascii → bool) (s : string) : string :=
  rstrip p (lstrip p s).

(** [s.strip("/")] *)
Definition str_strip_slash (s : string) : string :=
  strip (λ c, bool_decide (c = "/"%char)) s.

(** [s.lower()] as far as the code can see it: the letters A to Z become
    a to z.  The lowered text is only ever compared with ASCII texts made of
    the letters of [.parquet], [.csv], [.json], [y] and [yes], and no other
    character has one of these letters in its lower-case form. *)
Definition lower_char (c : ascii) : ascii :=
  let n := N_of_ascii c in
  if ((65 <=? n)%N && (n <=? 90)%N) then ascii_of_N (n + 32) else c.

Fixpoint str_lower (s : string) : string :=
  match s with
  | EmptyString => EmptyString
  | String c s' => String (lower_char c) (str_lower s')
  end.

Fixpoint is_prefix (p s : string) : bool :=
  match p, s with
  | EmptyString, _ => true
  | String a p', String b s' => bool_decide (a = b) && is_prefix p' s'
  | String _ _, EmptyString => false
  end.

(** [needle in hay] for two strings. *)
Fixpoint str_contains (needle hay : string) : bool :=
  is_prefix needle hay ||
  match hay with
  | EmptyString => false
  | String _ hay' => str_contains needle hay'
  end.

(** [f"{z:04d}"]: decimal, padded with zeros to width four, the sign
    counted in the width and written first. *)
Fixpoint zeros (n : nat) : string :=
  match n with
  | O => EmptyString
  | S n' => String "0"%char (zeros n')
  end.

Definition format_04d (z : Z) : string :=
  let digits := pretty (Z.abs_N z) in
  if z <? 0
  then "-" +:+ zeros (3 - String.length digits) +:+ digits
  else zeros (4 - String.length digits) +:+ digits.

(** [str(l)] for a list of ints: [[5, 6, 7]]. *)
Fixpoint join_with (sep : string) (l : list string) : string :=
  match l with
  | [] => EmptyString
  | [x] => x
  | x :: l' => x +:+ sep +:+ join_with sep l'
  end.

Definition repr_int_list (l : list Z) : string :=
  "[" +:+ join_with ", " (pretty <$> l) +:+ "]".

(** [sorted(s)] for a set of ints. *)
Definition sorted_set (s : gset Z) : list Z := merge_sort Z.le (elements s).

(** [set(l)] *)
Definition set_of (l : list Z) : gset Z := list_to_set l.

(** A [dict] whose enumeration order is observable: the keys in insertion
    order.  Assigning to a key that is present keeps its place. *)
Fixpoint dict_set {V : Type} (k : Z) (v : V) (d : list (Z * V)) : list (Z * V) :=
  match d with
  | [] => [(k, v)]
  | (k', v') :: d' =>
      if decide (k = k') then (k, v) :: d' else (k', v') :: dict_set k v d'
  end.

Definition dict_keys {V : Type} (d : list (Z * V)) : list Z := d.*1.

(** A text that starts with a digit other than 0. *)
Definition leading_digit (s : string) : Prop :=
  ∃ c rest, s = String c rest ∧ c ≠ "0"%char ∧ c ≠ "-"%char.

End Py.

(** ** The world the program runs in *)
Module World.
Import Py.

(** The handle made by [session.resource] and the bucket made from it. *)
Record s3_resource : Type := {
  res_access : string;
  res_secret : string;
  res_endpoint : string
}.

Record bucket : Type := {
  bucket_resource : s3_resource;
  bucket_name : string
}.

(** Requests sent to the object store. *)
Inductive event : Type :=
| EvLoad (b : bucket)
| EvDownload (b : bucket) (key : string)
| EvUpload (b : bucket) (key : string) (path : string)
| EvDelete (b : bucket) (key : string)
| EvList (b : bucket) (prefix : string).

(** A local path: [str(p)] and [p.name]. *)
Record path : Type := {
  path_str : string;
  path_name : string
}.

(** The two metadata documents.  A record is a JSON object; of its fields
    the program reads [index], [filename], [dgp] and [difficulty_tier],
    each of which may be absent.  Where present, [index] and [dgp] hold
    integers (so that [int(...)] returns them) and the other two hold
    strings. *)
Record json_rec : Type := {
  rec_index : option Z;
  rec_filename : option string;
  rec_dgp : option Z;
  rec_difficulty_tier : option string
}.

(** The entry [dgps] of a dict: absent, a list of records, or any other
    JSON value. *)
Inductive dgps_field : Type :=
| DgpsAbsent
| DgpsList (recs : list json_rec)
| DgpsOther.

(** A parsed document: a list of records, a dict (of which only the entry
    [dgps] is read), or any other JSON value. *)
Inductive json_doc : Type :=
| JList (recs : list json_rec)
| JDict (dgps : dgps_field)
| JOther (type_name : string).

(** The object store and boto3, as an oracle: each answer may depend on
    all the requests made before. *)
Record store : Type := {
  new_resource : string → string → string → option exn;
  new_bucket : s3_resource → string → option exn;
  bucket_load : list event → bucket → option exn;
  download_fileobj : list event → bucket → string → result bytes;
  upload_fileobj : list event → bucket → string → string → option exn;
  object_delete : list event → bucket → string → option exn;
  objects_filter : list event → bucket → string → result (list string)
}.

(** The local file system. *)
Record filesystem : Type := {
  path_exists : string → bool;
  read_json_file : string → result json_doc;
  stat_size : path → result Z;
  glob : path → string → list path
}.

(** Module globals of [backend.py]. *)
Record backend_globals : Type := {
  _S3 : option s3_resource;
  _BUCKET : option bucket;
  _ACTIVE_ENDPOINT : option string;
  _READ_ONLY : bool
}.

(** Module globals of [loaders.py]. *)
Record loaders_globals : Type := {
  _CACHE : gmap string bytes;
  _META_CACHE : gmap string json_doc
}.

(** The process: the globals of the two modules, the environment
    variables, the terminal, the warnings emitted, the requests sent to the
    store so far and the number of draws made from the entropy source; and
    what lies outside it: the store, the files, the entropy source, and the
    names that the installed module [boto3.exceptions] defines. *)
Record world : Type := {
  backend : backend_globals;
  loaders : loaders_globals;
  environ : gmap string string;
  stdin_isatty : bool;
  stdin : list string;
  stdout : list string;
  warned : list string;
  history : list event;
  entropy_drawn : nat;
  remote : store;
  files : filesystem;
  entropy : nat → Z;
  boto3_exceptions : list string
}.

Definition with_backend (f : backend_globals → backend_globals) (w : world) : world :=
  {| backend := f (backend w); loaders := loaders w; environ := environ w;
     stdin_isatty := stdin_isatty w; stdin := stdin w; stdout := stdout w;
     warned := warned w; history := history w; entropy_drawn := entropy_drawn w;
     remote := remote w; files := files w; entropy := entropy w; boto3_exceptions := boto3_exceptions w |}.

Definition with_loaders (f : loaders_globals → loaders_globals) (w : world) : world :=
  {| backend := backend w; loaders := f (loaders w); environ := environ w;
     stdin_isatty := stdin_isatty w; stdin := stdin w; stdout := stdout w;
     warned := warned w; history := history w; entropy_drawn := entropy_drawn w;
     remote := remote w; files := files w; entropy := entropy w; boto3_exceptions := boto3_exceptions w |}.

Definition with_stdin (l : list string) (w : world) : world :=
  {| backend := backend w; loaders := loaders w; environ := environ w;
     stdin_isatty := stdin_isatty w; stdin := l; stdout := stdout w;
     warned := warned w; history := history w; entropy_drawn := entropy_drawn w;
     remote := remote w; files := files w; entropy := entropy w; boto3_exceptions := boto3_exceptions w |}.

Definition with_stdout (l : list string) (w : world) : world :=
  {| backend := backend w; loaders := loaders w; environ := environ w;
     stdin_isatty := stdin_isatty w; stdin := stdin w; stdout := l;
     warned := warned w; history := history w; entropy_drawn := entropy_drawn w;
     remote := remote w; files := files w; entropy := entropy w; boto3_exceptions := boto3_exceptions w |}.

Definition with_warned (l : list string) (w : world) : world :=
  {| backend := backend w; loaders := loaders w; environ := environ w;
     stdin_isatty := stdin_isatty w; stdin := stdin w; stdout := stdout w;
     warned := l; history := history w; entropy_drawn := entropy_drawn w;
     remote := remote w; files := files w; entropy := entropy w; boto3_exceptions := boto3_exceptions w |}.

Definition with_history (l : list event) (w : world) : world :=
  {| backend := backend w; loaders := loaders w; environ := environ w;
     stdin_isatty := stdin_isatty w; stdin := stdin w; stdout := stdout w;
     warned := warned w; history := l; entropy_drawn := entropy_drawn w;
     remote := remote w; files := files w; entropy := entropy w; boto3_exceptions := boto3_exceptions w |}.

Definition with_entropy_drawn (n : nat) (w : world) : world :=
  {| backend := backend w; loaders := loaders w; environ := environ w;
     stdin_isatty := stdin_isatty w; stdin := stdin w; stdout := stdout w;
     warned := warned w; history := history w; entropy_drawn := n; remote := remote w;
     files := files w; entropy := entropy w; boto3_exceptions := boto3_exceptions w |}.

(** Computations: they end in a value or an exception, and the world they
    leave behind is kept in both cases. *)
Definition M (A : Type) : Type := world → result A * world.

#[global] Instance M_ret : MRet M := λ A a w, (Ok a, w).

#[global] Instance M_bind : MBind M := λ A B k m w,
  match m w with
  | (Ok a, w') => k a w'
  | (Raise e, w') => (Raise e, w')
  end.

Definition raise {A : Type} (e : exn) : M A := λ w, (Raise e, w).

Definition get : M world := λ w, (Ok w, w).

Definition modify (f : world → world) : M unit := λ w, (Ok (), f w).

(** [try: m  except Exception as e: h e] *)
Definition try_except {A : Type} (m : M A) (h : exn → M A) : M A := λ w,
  match m w with
  | (Ok a, w') => (Ok a, w')
  | (Raise e, w') => h e w'
  end.

Definition lift {A : Type} (r : result A) : M A := λ w, (r, w).

Definition unit_result (o : option exn) : result unit :=
  match o with
  | None => Ok ()
  | Some e => Raise e
  end.

(** One request to the store: it is answered from the history so far and
    then added to it. *)
Definition request {A : Type} (ev : event)
  (answer : store → list event → result A) : M A := λ w,
  (answer (remote w) (history w), with_history (history w ++ [ev]) w).

Definition print (line : string) : M unit :=
  modify (λ w, with_stdout (stdout w ++ [line]) w).

(** [warnings.warn(msg, UserWarning)] *)
Definition warnings_warn (msg : string) : M unit :=
  modify (λ w, with_warned (warned w ++ [msg]) w).

(** [for x in l: body x] *)
Fixpoint for_each {A : Type} (body : A → M unit) (l : list A) : M unit :=
  match l with
  | [] => mret ()
  | x :: l' => body x ;; for_each body l'
  end.

(** The requests in a history that move an object's bytes from the store
    to the program. *)
Definition is_download (ev : event) : bool :=
  match ev with
  | EvDownload _ _ => true
  | _ => false
  end.

(** The requests in a history that change the store. *)
Definition is_write (ev : event) : bool :=
  match ev with
  | EvUpload _ _ _ | EvDelete _ _ => true
  | _ => false
  end.

End World.

(** ** backend.py *)
Module Backend.
Import Py World.

Definition set_S3 (r : option s3_resource) : M unit :=
  modify (with_backend (λ g,
    {| _S3 := r; _BUCKET := _BUCKET g;
       _ACTIVE_ENDPOINT := _ACTIVE_ENDPOINT g; _READ_ONLY := _READ_ONLY g |})).

Definition set_BUCKET (b : option bucket) : M unit :=
  modify (with_backend (λ g,
    {| _S3 := _S3 g; _BUCKET := b;
       _ACTIVE_ENDPOINT := _ACTIVE_ENDPOINT g; _READ_ONLY := _READ_ONLY g |})).

Definition set_ACTIVE_ENDPOINT (u : option string) : M unit :=
  modify (with_backend (λ g,
    {| _S3 := _S3 g; _BUCKET := _BUCKET g;
       _ACTIVE_ENDPOINT := u; _READ_ONLY := _READ_ONLY g |})).

Definition set_READ_ONLY (ro : bool) : M unit :=
  modify (with_backend (λ g,
    {| _S3 := _S3 g; _BUCKET := _BUCKET g;
       _ACTIVE_ENDPOINT := _ACTIVE_ENDPOINT g; _READ_ONLY := ro |})).

(** [not v] for [v = os.environ.get(name)]: true when the variable is
    unset or empty. *)
Definition env_missing (v : option string) : bool :=
  match v with
  | None => true
  | Some s => bool_decide (s = EmptyString)
  end.

Definition ENDPOINTS : list (string * string) :=
  [ ("primary", "https://s3-uhh.lzs.uni-hamburg.de:443");
    ("site-1", "https://s3-uhh-s1.lzs.uni-hamburg.de:443");
    ("site-2", "https://s3-uhh-s2.lzs.uni-hamburg.de:443");
    ("site-3", "https://s3-uhh-s3.lzs.uni-hamburg.de:443") ].

Fixpoint endpoint_lookup (k : string) (d : list (string * string)) : option string :=
  match d with
  | [] => None
  | (k', v) :: d' => if decide (k = k') then Some v else endpoint_lookup k d'
  end.

(** [str(l)] for a list of strings. *)
Definition repr_str_list (l : list string) : string :=
  "[" +:+ join_with ", " ((λ s, "'" +:+ s +:+ "'") <$> l) +:+ "]".

Definition msg_both_missing : string :=
  "S3 connection failed: ACCESS_KEY and SECRET_KEY are missing in environment variables.".
Definition msg_access_missing : string :=
  "S3 connection failed: ACCESS_KEY is missing in environment variables.".
Definition msg_secret_missing : string :=
  "S3 connection failed: SECRET_KEY is missing in environment variables.".
Definition msg_invalid_endpoint (endpoint_key : string) : string :=
  "Invalid endpoint '" +:+ endpoint_key +:+ "'. Choose from "
    +:+ repr_str_list (ENDPOINTS.*1) +:+ ".".
Definition msg_invalid_key : string :=
  "S3 connection failed: Access Key is invalid.".
Definition msg_invalid_secret : string :=
  "S3 connection failed: Secret Key is invalid.".
Definition msg_access_denied : string :=
  "S3 connection failed: Access denied to bucket. Check credentials and bucket permissions.".
Definition msg_no_bucket (bucket_name : string) : string :=
  "S3 connection failed: Bucket '" +:+ bucket_name +:+ "' does not exist.".

(** Step 3 of [connect_s3]: the resource and the bucket handle are made
    and stored; an exception of either becomes a [RuntimeError]. *)
Definition create_resource (access secret url bucket_name : string) : M bucket :=
  w ← get;
  match new_resource (remote w) access secret url with
  | Some e => raise (RuntimeError ("S3 resource creation failed: " +:+ exn_str e))
  | None =>
      let r := {| res_access := access; res_secret := secret; res_endpoint := url |} in
      set_S3 (Some r) ;;
      match new_bucket (remote w) r bucket_name with
      | Some e => raise (RuntimeError ("S3 resource creation failed: " +:+ exn_str e))
      | None =>
          let b := {| bucket_resource := r; bucket_name := bucket_name |} in
          set_BUCKET (Some b) ;; mret b
      end
  end.

(** Step 4 of [connect_s3]: the exception that the two handlers of the
    liveness probe raise in place of the one they caught, the first for a
    client error, the second for any other exception. *)
Definition probe_error (bucket_name : string) (e : exn) : exn :=
  match e with
  | ClientError code _ =>
      if decide (code = "InvalidAccessKeyId") then RuntimeError msg_invalid_key
      else if decide (code = "SignatureDoesNotMatch") then RuntimeError msg_invalid_secret
      else if decide (code = "AccessDenied") then RuntimeError msg_access_denied
      else if decide (code = "NoSuchBucket") then RuntimeError (msg_no_bucket bucket_name)
      else RuntimeError ("S3 connection failed: " +:+ exn_str e)
  | _ => RuntimeError ("S3 connection failed: Unknown error (" +:+ exn_str e +:+ ")")
  end.

Definition msg_no_ClientError : string :=
  "module 'boto3.exceptions' has no attribute 'ClientError'".

(** When the probe raises, the first [except] clause is tried first, and
    for that its expression [boto3.exceptions.ClientError] is evaluated.
    Where the module defines no such name the lookup raises
    [AttributeError], which leaves the [try] statement as it is: the
    clauses of a [try] handle the exceptions of its body only.  Where it
    does, the name is taken to be the client error of the store. *)
Definition probe_handler (bucket_name : string) (e : exn) : M unit :=
  w ← get;
  if bool_decide ("ClientError" ∈ boto3_exceptions w)
  then raise (probe_error bucket_name e)
  else raise (AttributeError msg_no_ClientError).

Definition connect_s3 (bucket_name endpoint_key : string) (read_only : bool)
  : M (s3_resource * bucket * string) :=
  set_READ_ONLY read_only ;;
  w ← get;
  let ACCESS_KEY := environ w !! "UHH_S3_ACCESS" in
  let SECRET_KEY := environ w !! "UHH_S3_SECRET" in
  if env_missing ACCESS_KEY && env_missing SECRET_KEY
  then raise (RuntimeError msg_both_missing)
  else if env_missing ACCESS_KEY then raise (RuntimeError msg_access_missing)
  else if env_missing SECRET_KEY then raise (RuntimeError msg_secret_missing)
  else
    match endpoint_lookup endpoint_key ENDPOINTS with
    | None => raise (ValueError (msg_invalid_endpoint endpoint_key))
    | Some url =>
        set_ACTIVE_ENDPOINT (Some url) ;;
        b ← create_resource (default EmptyString ACCESS_KEY) (default EmptyString SECRET_KEY) url bucket_name;
        try_except
          (request (EvLoad b) (λ st h, unit_result (bucket_load st h b)))
          (probe_handler bucket_name) ;;
        let mode := if read_only then "READ-ONLY" else "WRITE" in
        print ("Connected to bucket '" +:+ World.bucket_name b +:+ "' via " +:+ url
                 +:+ " [" +:+ mode +:+ " mode]") ;;
        mret (bucket_resource b, b, url)
    end.

Definition _ensure_connected : M unit :=
  w ← get;
  if bool_decide (_S3 (backend w) = None) || bool_decide (_BUCKET (backend w) = None)
  then connect_s3 "cidl-test" "primary" true ;; mret ()
  else mret ().

Definition msg_write_blocked : string :=
  "Write operation blocked. Backend is in read-only mode. "
    +:+ "Call connect_s3(read_only=False) with valid credentials.".

Definition _check_write_permission : M unit :=
  w ← get;
  if _READ_ONLY (backend w)
  then raise (PermissionError msg_write_blocked)
  else mret ().

(** A function that returns [True] or the exception it caught. *)
Inductive true_or_exn : Type :=
| PyTrue
| PyExc (e : exn).

(** [_BUCKET.attr]: an [AttributeError] when the global is still [None]. *)
Definition bucket_attr (attr : string) : M bucket :=
  w ← get;
  match _BUCKET (backend w) with
  | Some b => mret b
  | None => raise (AttributeError ("'NoneType' object has no attribute '" +:+ attr +:+ "'"))
  end.

(** The body of [upload_file] after the two guards.  The progress bar
    only draws on the terminal and is left out. *)
Definition upload_file_body (file_path : path) (key_prefix : string)
  : M (string * true_or_exn * option string) :=
  try_except
    (let key := key_prefix +:+ "/" +:+ path_name file_path in
     w ← get;
     lift (stat_size (files w) file_path) ;;
     b ← bucket_attr "Object";
     request (EvUpload b key (path_str file_path))
       (λ st h, unit_result (upload_fileobj st h b key (path_str file_path))) ;;
     let s3_path := "s3://" +:+ bucket_name b +:+ "/" +:+ key in
     mret (path_name file_path, PyTrue, Some s3_path))
    (λ e, mret (path_name file_path, PyExc e, None)).

Definition upload_file (file_path : path) (key_prefix : string)
  : M (string * true_or_exn * option string) :=
  _ensure_connected ;;
  _check_write_permission ;;
  upload_file_body file_path key_prefix.

(** [sorted(files)]; the paths found by the patterns lie in one directory,
    where the order of paths is the order of their texts. *)
Definition sort_paths (l : list path) : list path :=
  merge_sort (λ p q, String.le (path_str p) (path_str q)) l.

Fixpoint map_M {A B : Type} (f : A → M B) (l : list A) : M (list B) :=
  match l with
  | [] => mret []
  | x :: l' => y ← f x; ys ← map_M f l'; mret (y :: ys)
  end.

Definition failed_upload (r : string * true_or_exn * option string)
  : option (string * exn) :=
  match r with
  | (fname, PyExc e, _) => Some (fname, e)
  | (_, PyTrue, _) => None
  end.

(** The body of [upload_directory] after the two guards.  The pool hands
    the results back in the order of [to_upload]; the uploads themselves
    are taken one after the other in that order. *)
Definition upload_directory_body (dir : path) (key_prefix : string)
  (max_workers : Z) (extensions : option (list string)) : M (list (string * exn)) :=
  let extensions := default ["*.parquet"; "*.csv"; "*.json"] extensions in
  w ← get;
  let found := sort_paths (concat (glob (files w) dir <$> extensions)) in
  print ("Found " +:+ pretty (length found) +:+ " files in '" +:+ path_str dir +:+ "'.") ;;
  b ← bucket_attr "objects";
  existing ← request (EvList b key_prefix) (λ st h, objects_filter st h b key_prefix);
  let to_upload :=
    filter (λ f, key_prefix +:+ "/" +:+ path_name f ∉ existing) found in
  print ("Uploading " +:+ pretty (length to_upload) +:+ " files...") ;;
  if max_workers <=? 0 then raise (ValueError "max_workers must be greater than 0")
  else
    results ← map_M (λ f, upload_file f key_prefix) to_upload;
    let failed := omap failed_upload results in
    print ("Upload complete. " +:+ pretty (length failed) +:+ " failed.") ;;
    mret failed.

Definition upload_directory (dir : path) (key_prefix : string)
  (max_workers : Z) (extensions : option (list string)) : M (list (string * exn)) :=
  _ensure_connected ;;
  _check_write_permission ;;
  upload_directory_body dir key_prefix max_workers extensions.

Definition delete_object_body (key : string) : M true_or_exn :=
  try_except
    (b ← bucket_attr "Object";
     request (EvDelete b key) (λ st h, unit_result (object_delete st h b key)) ;;
     print ("Deleted: " +:+ key) ;;
     mret PyTrue)
    (λ e, print ("Failed to delete " +:+ key +:+ ": " +:+ exn_str e) ;;
          mret (PyExc e)).

Definition delete_object (key : string) : M true_or_exn :=
  _ensure_connected ;;
  _check_write_permission ;;
  delete_object_body key.

Definition delete_one (b : bucket) (key : string) : M unit :=
  request (EvDelete b key) (λ st h, unit_result (object_delete st h b key)).

Definition delete_prefix_body (key_prefix : string) : M true_or_exn :=
  try_except
    (b ← bucket_attr "objects";
     objects ← request (EvList b key_prefix) (λ st h, objects_filter st h b key_prefix);
     match objects with
     | [] =>
         print ("No objects found under prefix '" +:+ key_prefix +:+ "'.") ;;
         mret PyTrue
     | _ :: _ =>
         for_each (delete_one b) objects ;;
         print ("Deleted " +:+ pretty (length objects) +:+ " objects under prefix '"
                  +:+ key_prefix +:+ "'.") ;;
         mret PyTrue
     end)
    (λ e, print ("Failed to delete prefix '" +:+ key_prefix +:+ "': " +:+ exn_str e) ;;
          mret (PyExc e)).

Definition delete_prefix (key_prefix : string) : M true_or_exn :=
  _ensure_connected ;;
  _check_write_permission ;;
  delete_prefix_body key_prefix.



(** *** Notions used to state the properties of the module *)

(** A session is present: [_ensure_connected] has nothing to do. *)
Definition connected (w : world) : Prop :=
  is_Some (_S3 (backend w)) ∧ is_Some (_BUCKET (backend w)).

(** Both credentials are set and not empty. *)
Definition credentials_present (w : world) : Prop :=
  env_missing (environ w !! "UHH_S3_ACCESS") = false
  ∧ env_missing (environ w !! "UHH_S3_SECRET") = false.

(** The bucket handle that [connect_s3] makes from the environment. *)
Definition handle_of (w : world) (url bucket_name : string) : bucket :=
  {| bucket_resource :=
       {| res_access := default EmptyString (environ w !! "UHH_S3_ACCESS");
          res_secret := default EmptyString (environ w !! "UHH_S3_SECRET");
          res_endpoint := url |};
     bucket_name := bucket_name |}.

(** [connect_s3] gets as far as the liveness probe. *)
Definition probe_reached (w : world) (url bucket_name : string) : Prop :=
  credentials_present w
  ∧ new_resource (remote w) (default EmptyString (environ w !! "UHH_S3_ACCESS"))
      (default EmptyString (environ w !! "UHH_S3_SECRET")) url = None
  ∧ new_bucket (remote w) (bucket_resource (handle_of w url bucket_name)) bucket_name = None.

(** What a call of [connect_s3] leaves untouched. *)
Definition same_outside_backend (w w' : world) : Prop :=
  loaders w' = loaders w ∧ environ w' = environ w
  ∧ stdin_isatty w' = stdin_isatty w ∧ stdin w' = stdin w
  ∧ warned w' = warned w ∧ remote w' = remote w ∧ files w' = files w
  ∧ entropy w' = entropy w.

(** A history that grew by liveness probes only. *)
Definition probes_only (h h' : list event) : Prop :=
  ∃ pre, h' = (h ++ pre)%list ∧ Forall (λ ev, ∃ b, ev = EvLoad b) pre.

(** The world after one request. *)
Definition after_request (ev : event) (w : world) : world :=
  with_history (history w ++ [ev]) w.

(** The key under which [upload_file] stores a file, and the request it
    sends for it. *)
Definition upload_key (key_prefix : string) (f : path) : string :=
  key_prefix +:+ "/" +:+ path_name f.

Definition upload_event (b : bucket) (key_prefix : string) (f : path) : event :=
  EvUpload b (upload_key key_prefix f) (path_str f).

(** The history after the listing of a prefix and the deletion of some of
    the keys listed. *)
Definition deleted_so_far (h : list event) (b : bucket) (key_prefix : string)
  (keys : list string) : list event :=
  (h ++ EvList b key_prefix :: (EvDelete b <$> keys))%list.

End Backend.

(** ** loaders.py *)
Module Loaders.
Import Py World.

(** pandas: the readers of the three payload formats. *)
Class Pandas : Type := {
  frame : Type;
  read_parquet : bytes → result frame;
  read_csv : bytes → result frame;
  read_json_lines : bytes → result frame;
  read_json : bytes → result frame
}.

(** The text codecs and the JSON parser applied to a downloaded metadata
    document.  [decode_utf8] is [None] on a [UnicodeDecodeError]. *)
Class Json : Type := {
  decode_utf8 : bytes → option string;
  decode_utf8_sig : bytes → result string;
  json_loads : string → result json_doc
}.

(** numpy: [default_rng(seed)] for a given seed, the generator made from
    operating-system entropy when the seed is [None], and
    [rng.choice(population, size=n, replace=False)], which picks [n]
    distinct positions of the population.  The last two fields are the
    texts of the [OverflowError] that [np.array(l, dtype=int)] raises for
    an entry outside the range of [dtype=int], and of the [TypeError] that
    [rng.choice] raises for a [bool] as [size]. *)
Class Numpy : Type := {
  generator : Type;
  default_rng : Z → result generator;
  entropy_rng : Z → generator;
  choice : generator → list Z → nat → list Z;
  choice_length : ∀ g pop n, (n ≤ length pop)%nat → length (choice g pop n) = n;
  choice_distinct : ∀ g pop n, (n ≤ length pop)%nat → choice g pop n ⊆+ pop;
  overflow_text : string;
  size_bool_text : string
}.

Definition DEFAULT_SIM_PREFIX : string := "acic22/simulations".
Definition DEFAULT_ACIC22_METADATA : string := "acic22/metadata/acic22_metadata.json".
Definition DEFAULT_ACIC22_DGP_INFO : string := "acic22/metadata/acic22_dgp_info.json".

Definition VALID_DIFFICULTIES : gset string :=
  {[ "all"; "very_easy"; "easy"; "medium"; "hard"; "very_hard" ]}.

Definition set_CACHE (c : gmap string bytes) : M unit :=
  modify (with_loaders (λ g, {| _CACHE := c; _META_CACHE := _META_CACHE g |})).

Definition set_META_CACHE (c : gmap string json_doc) : M unit :=
  modify (with_loaders (λ g, {| _CACHE := _CACHE g; _META_CACHE := c |})).

(** The value is the content of the returned buffer, which is handed over
    rewound to its start on both paths. *)
Definition _download_file (key : string) (use_cache : bool) : M bytes :=
  w ← get;
  match (if use_cache then _CACHE (loaders w) !! key else None) with
  | Some data => mret data
  | None =>
      Backend._ensure_connected ;;
      b ← Backend.bucket_attr "Object";
      data ← request (EvDownload b key) (λ st h, download_fileobj st h b key);
      (if use_cache
       then w' ← get; set_CACHE (<[key := data]> (_CACHE (loaders w')))
       else mret ()) ;;
      mret data
  end.

(** The downloads among the requests made so far. *)
Definition downloads (w : world) : list event := filter is_download (history w).

(** The worlds that a later moment of the same process can be in: the
    caches have only gained entries, a session that was there still is,
    and the store, the files and the entropy source are the same. *)
Definition grows (w w' : world) : Prop :=
  _CACHE (loaders w) ⊆ _CACHE (loaders w')
  ∧ _META_CACHE (loaders w) ⊆ _META_CACHE (loaders w')
  ∧ (Backend.connected w → Backend.connected w')
  ∧ remote w' = remote w ∧ files w' = files w ∧ entropy w' = entropy w.

(** A step that reads: it sends no write, keeps what is on the standard
    output, and leaves a world that the process can be in later. *)
Definition reads_only (w w' : world) : Prop :=
  grows w w'
  ∧ filter is_write (history w') = filter is_write (history w)
  ∧ ∃ more, stdout w' = (stdout w ++ more)%list.

(** The line that [load_prefix] writes for a key that failed to load. *)
Definition failure_line (key : string) (e : exn) : string :=
  "Failed to load " +:+ key +:+ ": " +:+ exn_str e.

(** The record that an index of records by [field] holds for [i]: the last
    one of the list that carries [i]. *)
Definition last_with (field : json_rec → option Z) (i : Z) (recs : list json_rec)
  : option json_rec :=
  last (filter (λ rec, field rec = Some i) recs).

(** [s.endswith(suffix)] *)
Definition ends_with (suffix s : string) : bool :=
  is_prefix (String.rev suffix) (String.rev s).

Section WithLibraries.
Context `{!Pandas, !Json, !Numpy}.

Definition _read_file_bytes (data : bytes) (filename : string) : result frame :=
  let name := str_lower filename in
  if ends_with ".parquet" name then read_parquet data
  else if ends_with ".csv" name then read_csv data
  else if ends_with ".json" name then
    match read_json_lines data with
    | Ok df => Ok df
    | Raise _ => read_json data
    end
  else Raise (ValueError ("Unsupported file type: " +:+ filename)).

(** [raw.decode] with the fallback codec, then [json.loads]. *)
Definition decode_and_parse (raw : bytes) : result json_doc :=
  match decode_utf8 raw with
  | Some text => json_loads text
  | None =>
      match decode_utf8_sig raw with
      | Ok text => json_loads text
      | Raise e => Raise e
      end
  end.

Definition _read_json_source (source : string) (use_cache : bool) : M json_doc :=
  w ← get;
  match (if use_cache then _META_CACHE (loaders w) !! source else None) with
  | Some obj => mret obj
  | None =>
      obj ← (if path_exists (files w) source
             then lift (read_json_file (files w) source)
             else raw ← _download_file source use_cache; lift (decode_and_parse raw));
      (if use_cache
       then w' ← get; set_META_CACHE (<[source := obj]> (_META_CACHE (loaders w')))
       else mret ()) ;;
      mret obj
  end.

(** [str(type(obj))] *)
Definition type_repr (obj : json_doc) : string :=
  match obj with
  | JList _ => "<class 'list'>"
  | JDict _ => "<class 'dict'>"
  | JOther t => "<class '" +:+ t +:+ "'>"
  end.

(** The loop of [_load_acic22_metadata]: a later record with the same
    index replaces an earlier one. *)
Fixpoint index_records (recs : list json_rec) (by_index : gmap Z json_rec)
  : result (gmap Z json_rec) :=
  match recs with
  | [] => Ok by_index
  | rec :: recs' =>
      match rec_index rec with
      | None => Raise (ValueError "ACIC22 metadata record missing 'index'.")
      | Some idx => index_records recs' (<[idx := rec]> by_index)
      end
  end.

Definition metadata_of_doc (obj : json_doc) : result (gmap Z json_rec) :=
  match obj with
  | JList recs => index_records recs ∅
  | _ => Raise (ValueError ("ACIC22 metadata JSON must be a list. Got: " +:+ type_repr obj))
  end.

Definition _load_acic22_metadata (source : string) (use_cache : bool)
  : M (gmap Z json_rec) :=
  obj ← _read_json_source source use_cache;
  lift (metadata_of_doc obj).

(** The loop of [_load_dgp_info]. *)
Fixpoint index_dgps (recs : list json_rec) (by_dgp : gmap Z json_rec)
  : result (gmap Z json_rec) :=
  match recs with
  | [] => Ok by_dgp
  | rec :: recs' =>
      match rec_dgp rec with
      | None => Raise (ValueError "DGP record missing 'dgp'.")
      | Some g => index_dgps recs' (<[g := rec]> by_dgp)
      end
  end.

Definition dgp_info_of_doc (obj : json_doc) : result (gmap Z json_rec) :=
  match obj with
  | JDict (DgpsList recs) => index_dgps recs ∅
  | JDict DgpsOther => Raise (ValueError "DGP info JSON field 'dgps' must be a list.")
  | _ => Raise (ValueError "DGP info JSON must be a dict containing key 'dgps'.")
  end.

Definition _load_dgp_info (source : string) (use_cache : bool)
  : M (gmap Z json_rec) :=
  obj ← _read_json_source source use_cache;
  lift (dgp_info_of_doc obj).

(** [sorted(s)] for a set of strings. *)
Definition sorted_strings (s : gset string) : list string :=
  merge_sort String.le (elements s).

Definition msg_invalid_difficulty (difficulty : string) : string :=
  "Invalid difficulty='" +:+ difficulty +:+ "'. Allowed values: "
    +:+ join_with ", " (sorted_strings VALID_DIFFICULTIES).

Definition _difficulty_to_tiers (difficulty : option string)
  : result (option (gset string)) :=
  match difficulty with
  | None => Ok None
  | Some difficulty =>
      let d := str_strip difficulty in
      if decide (d ∈ VALID_DIFFICULTIES)
      then if decide (d = "all") then Ok None else Ok (Some {[ d ]})
      else Raise (ValueError (msg_invalid_difficulty difficulty))
  end.

(** [rec.get("difficulty_tier") in tiers] *)
Definition tier_in (tiers : gset string) (rec : json_rec) : Prop :=
  match rec_difficulty_tier rec with
  | Some t => t ∈ tiers
  | None => False
  end.

#[global] Instance tier_in_dec tiers rec : Decision (tier_in tiers rec).
Proof. unfold tier_in. destruct (rec_difficulty_tier rec); apply _. Defined.

(** ["dgp" in rec and int(rec["dgp"]) in allowed_dgps] *)
Definition dgp_in (allowed_dgps : gset Z) (rec : json_rec) : Prop :=
  match rec_dgp rec with
  | Some g => g ∈ allowed_dgps
  | None => False
  end.

#[global] Instance dgp_in_dec allowed rec : Decision (dgp_in allowed rec).
Proof. unfold dgp_in. destruct (rec_dgp rec); apply _. Defined.

Definition select_indices (tiers : option (gset string))
  (meta dgp_info : gmap Z json_rec) : list Z :=
  match tiers with
  | None => sorted_set (dom meta)
  | Some tiers =>
      let allowed_dgps : gset Z := dom (filter (λ kv, tier_in tiers kv.2) dgp_info) in
      sorted_set (dom (filter (λ kv, dgp_in allowed_dgps kv.2) meta))
  end.

Definition _indices_for_difficulty (difficulty : option string)
  (metadata_source dgp_info_source : string) (use_cache : bool) : M (list Z) :=
  meta ← _load_acic22_metadata metadata_source use_cache;
  dgp_info ← _load_dgp_info dgp_info_source use_cache;
  tiers ← lift (_difficulty_to_tiers difficulty);
  mret (select_indices tiers meta dgp_info).

Definition load_file (key : string) (use_cache : bool) : M frame :=
  data ← _download_file key use_cache;
  lift (_read_file_bytes data key).

Definition load_simulation (index : Z) (prefix : string) (use_cache : bool) : M frame :=
  Backend._ensure_connected ;;
  let filename := "sim_" +:+ format_04d index +:+ ".parquet" in
  let key := prefix +:+ "/" +:+ filename in
  data ← _download_file key use_cache;
  lift (_read_file_bytes data filename).

(** [meta.get(idx, {}).get("filename", f"sim_{idx:04d}.parquet")] *)
Definition filename_of (meta : gmap Z json_rec) (idx : Z) : string :=
  let fallback := "sim_" +:+ format_04d idx +:+ ".parquet" in
  match meta !! idx with
  | Some rec => default fallback (rec_filename rec)
  | None => fallback
  end.

(** The loop of [load_simulations]. *)
Fixpoint load_each (meta : gmap Z json_rec) (prefix : string) (use_cache : bool)
  (indices : list Z) (out : list (Z * frame)) : M (list (Z * frame)) :=
  match indices with
  | [] => mret out
  | idx :: rest =>
      let filename := filename_of meta idx in
      let key := prefix +:+ "/" +:+ filename in
      data ← _download_file key use_cache;
      df ← lift (_read_file_bytes data filename);
      load_each meta prefix use_cache rest (dict_set idx df out)
  end.

Definition load_simulations (indices : list Z) (prefix : string) (use_cache : bool)
  (metadata_source : string) : M (list (Z * frame)) :=
  Backend._ensure_connected ;;
  meta ← _load_acic22_metadata metadata_source use_cache;
  load_each meta prefix use_cache indices [].

Definition load_by_difficulty (difficulty : string) (prefix : string) (use_cache : bool)
  (metadata_source dgp_info_source : string) : M (list (Z * frame)) :=
  indices ← _indices_for_difficulty (Some difficulty) metadata_source dgp_info_source use_cache;
  load_simulations indices prefix use_cache metadata_source.

(** The argument [n] of [load_random_simulations]: an [int], a [bool],
    which is an instance of [int] too, or a value of another type. *)
Inductive sample_size : Type :=
| NInt (n : Z)
| NBool (b : bool)
| NNotInt.

(** The number that an instance of [int] compares as: [True] is 1 and
    [False] is 0. *)
Definition int_value (n : sample_size) : option Z :=
  match n with
  | NInt k => Some k
  | NBool b => Some (if b then 1 else 0)
  | NNotInt => None
  end.

(** [f"{n}"] for an instance of [int]. *)
Definition size_repr (n : sample_size) : string :=
  match n with
  | NInt k => pretty k
  | NBool b => if b then "True" else "False"
  | NNotInt => EmptyString
  end.

(** The range of [dtype=int]: a signed 64-bit integer, which is the C long
    of the 64-bit builds and the default integer of numpy 2 everywhere. *)
Definition in_int64 (z : Z) : bool :=
  (-9223372036854775808 <=? z) && (z <=? 9223372036854775807).

(** [np.array(l, dtype=int)] *)
Definition np_array_int (l : list Z) : result (list Z) :=
  if forallb in_int64 l then Ok l else Raise (OverflowError overflow_text).

(** [np.random.default_rng(seed)] *)
Definition make_rng (seed : option Z) : M generator :=
  match seed with
  | Some s => lift (default_rng s)
  | None =>
      w ← get;
      modify (with_entropy_drawn (S (entropy_drawn w))) ;;
      mret (entropy_rng (entropy w (entropy_drawn w)))
  end.

(** [rng.choice(eligible, size=n, replace=False).tolist()], then
    [sampled.sort()]. *)
Definition draw_sorted (rng : generator) (eligible : list Z) (n : Z) : list Z :=
  merge_sort Z.le (choice rng eligible (Z.to_nat n)).

(** The draw for the size [n], which counts as [k]: numpy refuses a [bool]
    as [size]. *)
Definition sample (rng : generator) (population : list Z) (n : sample_size) (k : Z)
  : result (list Z) :=
  match n with
  | NBool _ => Raise (TypeError size_bool_text)
  | _ => Ok (draw_sorted rng population k)
  end.

Definition msg_too_many (n : string) (available : nat) (difficulty : option string)
  : string :=
  "Requested n=" +:+ n +:+ ", but only " +:+ pretty available
    +:+ " simulations available for difficulty='" +:+ default "None" difficulty +:+ "'.".

Definition load_random_simulations (n : sample_size) (difficulty : option string)
  (prefix : string) (seed : option Z) (use_cache : bool)
  (metadata_source dgp_info_source : string) : M (list (Z * frame)) :=
  match int_value n with
  | None => raise (ValueError "n must be a positive integer.")
  | Some k =>
      if k <=? 0 then raise (ValueError "n must be a positive integer.")
      else
        eligible ← _indices_for_difficulty difficulty metadata_source dgp_info_source use_cache;
        if Z.of_nat (length eligible) <? k
        then raise (ValueError (msg_too_many (size_repr n) (length eligible) difficulty))
        else
          rng ← make_rng seed;
          population ← lift (np_array_int eligible);
          sampled ← lift (sample rng population n k);
          load_simulations sampled prefix use_cache metadata_source
  end.

(** The convenience wrappers hand their keyword arguments on. *)
Definition load_very_easy (prefix : string) (use_cache : bool)
  (metadata_source dgp_info_source : string) : M (list (Z * frame)) :=
  load_by_difficulty "very_easy" prefix use_cache metadata_source dgp_info_source.

Definition load_easy (prefix : string) (use_cache : bool)
  (metadata_source dgp_info_source : string) : M (list (Z * frame)) :=
  load_by_difficulty "easy" prefix use_cache metadata_source dgp_info_source.

Definition load_medium (prefix : string) (use_cache : bool)
  (metadata_source dgp_info_source : string) : M (list (Z * frame)) :=
  load_by_difficulty "medium" prefix use_cache metadata_source dgp_info_source.

Definition load_hard (prefix : string) (use_cache : bool)
  (metadata_source dgp_info_source : string) : M (list (Z * frame)) :=
  load_by_difficulty "hard" prefix use_cache metadata_source dgp_info_source.

Definition load_very_hard (prefix : string) (use_cache : bool)
  (metadata_source dgp_info_source : string) : M (list (Z * frame)) :=
  load_by_difficulty "very_hard" prefix use_cache metadata_source dgp_info_source.

(** [keys[:limit]]: a negative bound counts from the end. *)
Definition slice_to {A : Type} (limit : Z) (l : list A) : list A :=
  if 0 <=? limit then take (Z.to_nat limit) l
  else take (length l - Z.to_nat (- limit)) l.

(** One round of the loop of [load_prefix]: a key that fails to load is
    reported on the standard output and left out. *)
Definition load_listed_one (use_cache : bool) (key : string)
  (out : gmap string frame) : M (gmap string frame) :=
  try_except
    (df ← load_file key use_cache; mret (<[key := df]> out))
    (λ e, print ("Failed to load " +:+ key +:+ ": " +:+ exn_str e) ;; mret out).

Fixpoint load_listed (use_cache : bool) (keys : list string)
  (out : gmap string frame) : M (gmap string frame) :=
  match keys with
  | [] => mret out
  | key :: rest =>
      out' ← load_listed_one use_cache key out;
      load_listed use_cache rest out'
  end.

Definition load_prefix (prefix : string) (limit : option Z) (use_cache : bool)
  : M (gmap string frame) :=
  Backend._ensure_connected ;;
  b ← Backend.bucket_attr "objects";
  keys ← request (EvList b prefix) (λ st h, objects_filter st h b prefix);
  let keys := match limit with
              | Some n => slice_to n keys
              | None => keys
              end in
  load_listed use_cache keys ∅.

End WithLibraries.

End Loaders.

(** ** truth_matcher.py *)
Module TruthMatcher.
Import Py World Loaders.

Definition DEFAULT_TRUTH_PREFIX : string := "acic22/truth".
Definition VALID_ON_MISMATCH : gset string := {[ "warn"; "error"; "ignore" ]}.
Definition VALID_ON_MISSING : gset string := {[ "warn"; "error"; "ignore" ]}.

(** One element of an index argument: [int(x)] yields [z], or raises; in
    the second case [repr] is [str(x)]. *)
Inductive index_item : Type :=
| IntLike (z : Z)
| NotIntLike (repr : string).

(** The values [_normalize_indices] tells apart: [None], a mapping (of
    which the keys are taken), a list, tuple, set or other iterable, a
    single [int], and a value that cannot be iterated. *)
Inductive indices_arg : Type :=
| ArgNone
| ArgMapping (keys : list index_item)
| ArgIterable (items : list index_item)
| ArgInt (z : Z)
| ArgNotIterable (type_name : string).

(** The argument [simulations]: a mapping with its keys, or anything else. *)
Inductive simulations_arg : Type :=
| SimsMapping (keys : list index_item)
| SimsNotMapping.

Fixpoint convert_all (raw : list index_item) (out : gset Z) : result (gset Z) :=
  match raw with
  | [] => Ok out
  | IntLike z :: raw' => convert_all raw' ({[ z ]} ∪ out)
  | NotIntLike x :: _ =>
      Raise (TypeError ("Index value '" +:+ x +:+ "' cannot be converted to int."))
  end.

Definition normalize_raw (raw : list index_item) : result (list Z) :=
  match convert_all raw ∅ with
  | Ok out => Ok (sorted_set out)
  | Raise e => Raise e
  end.

Definition _normalize_indices (indices : indices_arg) : result (list Z) :=
  match indices with
  | ArgNone => Ok []
  | ArgMapping keys => normalize_raw keys
  | ArgIterable items => normalize_raw items
  | ArgInt z => normalize_raw [IntLike z]
  | ArgNotIterable t => Raise (TypeError ("'" +:+ t +:+ "' object is not iterable"))
  end.

Definition _truth_key (index : Z) (prefix : string) : string :=
  let prefix := str_strip_slash prefix in
  let filename := "truth_" +:+ format_04d index +:+ ".parquet" in
  prefix +:+ "/" +:+ filename.

Definition NOT_FOUND_CODES : gset string := {[ "404"; "NoSuchKey"; "NotFound" ]}.

(** [code] is the entry Code of the error response (empty when absent),
    [text] is [str(e)]. *)
Definition _is_missing_s3_object_error (code text : string) : bool :=
  let code := str_strip code in
  bool_decide (code ∈ NOT_FOUND_CODES) || str_contains "Not Found" text.

Definition _can_prompt : M bool :=
  w ← get; mret (stdin_isatty w).

(** [input(text)]: the text is written, one line is read. *)
Definition input (text : string) : M string :=
  print text ;;
  w ← get;
  match stdin w with
  | [] => raise (OtherException "EOF when reading a line")
  | line :: rest => modify (with_stdin rest) ;; mret line
  end.

Definition hint_line : string :=
  "Hint: Use automatic index matching (bundle_for_simulations(simulations)) "
    +:+ "to load exactly the truth datasets corresponding to your simulations.".

Definition _format_mismatch_message (sim_indices truth_loaded missing_for_sims
  extra_truth missing_files : list Z) : string :=
  let parts :=
    ([ "Truth/Simulation mismatch detected.";
       "- Simulation indices: " +:+ repr_int_list sim_indices;
       "- Truth indices loaded: " +:+ repr_int_list truth_loaded ]
     ++ (if bool_decide (missing_for_sims = []) then []
         else ["- Missing truth for simulation indices: " +:+ repr_int_list missing_for_sims])
     ++ (if bool_decide (extra_truth = []) then []
         else ["- Extra truth indices (not in simulations): " +:+ repr_int_list extra_truth])
     ++ (if bool_decide (missing_files = []) then []
         else ["- Truth files not found in storage: " +:+ repr_int_list missing_files])
     ++ [ hint_line ])%list in
  join_with newline parts.

Definition msg_bad_on_mismatch : string :=
  "on_mismatch must be one of " +:+ Backend.repr_str_list (sorted_strings VALID_ON_MISMATCH).
Definition msg_bad_on_missing : string :=
  "on_missing must be one of " +:+ Backend.repr_str_list (sorted_strings VALID_ON_MISSING).
Definition msg_non_interactive : string :=
  "Prompt requested, but environment is non-interactive; proceeding with warning only.".

(** The list [warnings_out] is passed in and handed back as it is after
    the call. *)
Definition _handle_mismatch (msg on_mismatch : string) (prompt : bool)
  (warnings_out : list string) : M (list string) :=
  if decide (on_mismatch ∈ VALID_ON_MISMATCH) then
    if decide (on_mismatch = "ignore") then mret warnings_out
    else if decide (on_mismatch = "error") then raise (ValueError msg)
    else
      let warnings_out := (warnings_out ++ [msg])%list in
      warnings_warn msg ;;
      if prompt then
        interactive ← _can_prompt;
        if (interactive : bool) then
          line ← input "Mismatch detected. Continue anyway? [y/N]: ";
          let answer := str_lower (str_strip line) in
          if decide (answer ∈ ({[ "y"; "yes" ]} : gset string))
          then mret warnings_out
          else raise (RuntimeError "Aborted by user due to truth/simulation mismatch.")
        else
          warnings_warn msg_non_interactive ;;
          mret (warnings_out ++ [msg_non_interactive])%list
      else mret warnings_out
  else raise (ValueError msg_bad_on_mismatch).

Definition msg_missing_file (idx : Z) (key : string) : string :=
  "Truth file not found for index " +:+ pretty idx +:+ " (key='" +:+ key +:+ "').".

(** The warning for the truth file of [idx] under [prefix]. *)
Definition missing_line (prefix : string) (idx : Z) : string :=
  msg_missing_file idx (_truth_key idx prefix).

(** An element of an index argument that [int] accepts. *)
Definition int_like (x : index_item) : Prop := ∃ z, x = IntLike z.

Definition _handle_missing_file (idx : Z) (key on_missing : string)
  (warnings_out : list string) : M (list string) :=
  if decide (on_missing ∈ VALID_ON_MISSING) then
    if decide (on_missing = "ignore") then mret warnings_out
    else
      let msg := msg_missing_file idx key in
      if decide (on_missing = "error") then raise (FileNotFoundError msg)
      else warnings_warn msg ;; mret (warnings_out ++ [msg])%list
  else raise (ValueError msg_bad_on_missing).

Section WithLibraries.
Context `{!Pandas}.

Record TruthBundle : Type := {
  simulation_indices : list Z;
  truth_indices_requested : list Z;
  truth : list (Z * frame);
  missing_truth_files : list Z;
  missing_for_simulations : list Z;
  extra_truth : list Z;
  warnings : list string
}.

Definition is_full_match (b : TruthBundle) : bool :=
  (length (missing_for_simulations b) =? 0)%nat && (length (extra_truth b) =? 0)%nat.

Definition truth_indices_loaded (b : TruthBundle) : list Z :=
  merge_sort Z.le (dict_keys (truth b)).

Definition load_truth (index : Z) (prefix : string) (use_cache : bool) : M frame :=
  let key := _truth_key index prefix in
  load_file key use_cache.

(** The three locals that the loop of [load_truths] updates. *)
Record loading : Type := {
  l_truth : list (Z * frame);
  l_missing_files : list Z;
  l_warnings_out : list string
}.

(** Both handlers of the loop do the same: note the index, then apply
    the policy. *)
Definition note_missing (idx : Z) (key on_missing : string) (st : loading) : M loading :=
  let missing_files := (l_missing_files st ++ [idx])%list in
  warnings_out ← _handle_missing_file idx key on_missing (l_warnings_out st);
  mret {| l_truth := l_truth st; l_missing_files := missing_files;
          l_warnings_out := warnings_out |}.

(** One round of the loop of [load_truths]. *)
Definition load_one (prefix : string) (use_cache : bool) (on_missing : string)
  (idx : Z) (st : loading) : M loading :=
  let key := _truth_key idx prefix in
  try_except
    (df ← load_file key use_cache;
     mret {| l_truth := dict_set idx df (l_truth st);
             l_missing_files := l_missing_files st;
             l_warnings_out := l_warnings_out st |})
    (λ e,
       match e with
       | ClientError code text =>
           if _is_missing_s3_object_error code text
           then note_missing idx key on_missing st
           else raise e
       | FileNotFoundError _ => note_missing idx key on_missing st
       | _ => raise e
       end).

Fixpoint load_all (prefix : string) (use_cache : bool) (on_missing : string)
  (idxs : list Z) (st : loading) : M loading :=
  match idxs with
  | [] => mret st
  | idx :: rest =>
      st' ← load_one prefix use_cache on_missing idx st;
      load_all prefix use_cache on_missing rest st'
  end.

Definition msg_load_truths_mapping : string :=
  "load_truths() expects an iterable of indices (e.g., [1,2,3]). "
    +:+ "You passed a Mapping/dict. Use truth_for_simulations(simulations) instead.".

Definition load_truths (indices : indices_arg) (prefix : string) (use_cache : bool)
  (on_missing : string) : M TruthBundle :=
  match indices with
  | ArgMapping _ => raise (TypeError msg_load_truths_mapping)
  | _ =>
      idxs ← lift (_normalize_indices indices);
      st ← load_all prefix use_cache on_missing idxs
             {| l_truth := []; l_missing_files := []; l_warnings_out := [] |};
      let loaded := merge_sort Z.le (dict_keys (l_truth st)) in
      let missing_for_requested := sorted_set (set_of idxs ∖ set_of loaded) in
      mret {| simulation_indices := idxs;
              truth_indices_requested := idxs;
              truth := l_truth st;
              missing_truth_files := merge_sort Z.le (l_missing_files st);
              missing_for_simulations := missing_for_requested;
              extra_truth := [];
              warnings := l_warnings_out st |}
  end.

Definition msg_sims_not_mapping : string :=
  "truth_for_simulations() expects a Mapping/dict with simulation indices as keys. "
    +:+ "If you only have indices, use load_truths(indices).".

(** [truth_indices is None] *)
Definition is_None (a : indices_arg) : bool :=
  match a with
  | ArgNone => true
  | _ => false
  end.

Definition truth_for_simulations (simulations : simulations_arg)
  (truth_indices : indices_arg) (prefix : string) (use_cache : bool)
  (on_missing on_mismatch : string) (prompt : bool) : M TruthBundle :=
  match simulations with
  | SimsNotMapping => raise (TypeError msg_sims_not_mapping)
  | SimsMapping keys =>
      sim_indices ← lift (_normalize_indices (ArgIterable keys));
      truth_requested ←
        (if is_None truth_indices then mret sim_indices
         else lift (_normalize_indices truth_indices));
      loaded_bundle ←
        load_truths (ArgIterable (IntLike <$> truth_requested)) prefix use_cache on_missing;
      let truth_loaded := truth_indices_loaded loaded_bundle in
      let missing_for_sims := sorted_set (set_of sim_indices ∖ set_of truth_loaded) in
      let extra_truth := sorted_set (set_of truth_loaded ∖ set_of sim_indices) in
      let warnings_out := warnings loaded_bundle in
      warnings_out ←
        (if negb (is_None truth_indices)
            && (negb (bool_decide (missing_for_sims = []))
                || negb (bool_decide (extra_truth = [])))
         then
           let msg := _format_mismatch_message sim_indices truth_loaded
                        missing_for_sims extra_truth (missing_truth_files loaded_bundle) in
           _handle_mismatch msg on_mismatch prompt warnings_out
         else mret warnings_out);
      mret {| simulation_indices := sim_indices;
              truth_indices_requested := truth_requested;
              truth := truth loaded_bundle;
              missing_truth_files := missing_truth_files loaded_bundle;
              missing_for_simulations := missing_for_sims;
              extra_truth := extra_truth;
              warnings := warnings_out |}
  end.

(** *** Notions used to state the properties of the module *)

(** The exceptions of [load_file] that the loop of [load_truths] takes for
    a missing truth file. *)
Definition taken_as_missing (e : exn) : bool :=
  match e with
  | ClientError code text => _is_missing_s3_object_error code text
  | FileNotFoundError _ => true
  | _ => false
  end.

(** The locals of the loop of [load_truths] before its first round. *)
Definition nothing_loaded : loading :=
  {| l_truth := []; l_missing_files := []; l_warnings_out := [] |}.

(** The locals after a round that noted [idx] as missing and left
    [warnings_out] as the list of warnings. *)
Definition noted_missing (idx : Z) (warnings_out : list string) (st : loading) : loading :=
  {| l_truth := l_truth st;
     l_missing_files := (l_missing_files st ++ [idx])%list;
     l_warnings_out := warnings_out |}.

(** The relations that the fields of a bundle are meant to satisfy. *)
Definition bundle_invariant (b : TruthBundle) : Prop :=
  missing_for_simulations b
    = sorted_set (set_of (simulation_indices b) ∖ set_of (dict_keys (truth b)))
  ∧ extra_truth b
    = sorted_set (set_of (dict_keys (truth b)) ∖ set_of (simulation_indices b))
  ∧ (is_full_match b = true ↔ missing_for_simulations b = [] ∧ extra_truth b = [])
  ∧ truth_indices_loaded b = sorted_set (set_of (dict_keys (truth b)))
  ∧ truth_indices_loaded b ⊆ truth_indices_requested b.

(** The bundle that [truth_for_simulations] builds from the bundle of
    [load_truths] and the final list of warnings. *)
Definition matched_bundle (sim_indices truth_requested : list Z)
  (loaded_bundle : TruthBundle) (warnings_out : list string) : TruthBundle :=
  let truth_loaded := truth_indices_loaded loaded_bundle in
  {| simulation_indices := sim_indices;
     truth_indices_requested := truth_requested;
     truth := truth loaded_bundle;
     missing_truth_files := missing_truth_files loaded_bundle;
     missing_for_simulations := sorted_set (set_of sim_indices ∖ set_of truth_loaded);
     extra_truth := sorted_set (set_of truth_loaded ∖ set_of sim_indices);
     warnings := warnings_out |}.

(** [missing_for_sims or extra_truth]: one of the two differences is not
    empty. *)
Definition mismatch_found (sim_indices : list Z) (loaded_bundle : TruthBundle) : bool :=
  let truth_loaded := truth_indices_loaded loaded_bundle in
  negb (bool_decide (sorted_set (set_of sim_indices ∖ set_of truth_loaded) = []))
  || negb (bool_decide (sorted_set (set_of truth_loaded ∖ set_of sim_indices) = [])).

(** The diagnostic that [truth_for_simulations] hands to the policy. *)
Definition mismatch_message (sim_indices : list Z) (loaded_bundle : TruthBundle) : string :=
  let truth_loaded := truth_indices_loaded loaded_bundle in
  _format_mismatch_message sim_indices truth_loaded
    (sorted_set (set_of sim_indices ∖ set_of truth_loaded))
    (sorted_set (set_of truth_loaded ∖ set_of sim_indices))
    (missing_truth_files loaded_bundle).

End WithLibraries.

End TruthMatcher.

(** ** A small concrete deployment

    One bucket with two truth files (indices 5 and 6) and two simulation
    files (indices 1 and 2), the two metadata documents as local files, and
    stand-ins for the libraries.  The statements below are tried on it. *)
Module Scenario.
Import Py World Loaders TruthMatcher.

(** A frame is represented by the payload it was read from. *)
Definition plain_pandas : Pandas :=
  {| frame := bytes; read_parquet := Ok; read_csv := Ok;
     read_json_lines := Ok; read_json := Ok |}.

Definition plain_json : Json :=
  {| decode_utf8 := λ _, None;
     decode_utf8_sig := λ _, Raise (OtherException "'utf-8' codec can't decode");
     json_loads := λ _, Raise (ValueError "Expecting value") |}.

(** A generator that takes the first [n] entries, from the front for an
    even seed and from the back for an odd one. *)
Definition ends_choice (g : Z) (pop : list Z) (n : nat) : list Z :=
  take n (if Z.even g then pop else reverse pop).

Lemma ends_choice_length g pop n :
  (n ≤ length pop)%nat → length (ends_choice g pop n) = n.
Proof.
  intros Hn. unfold ends_choice. rewrite length_take.
  destruct (Z.even g); rewrite ?length_reverse; lia.
Qed.

Lemma ends_choice_distinct g pop n :
  (n ≤ length pop)%nat → ends_choice g pop n ⊆+ pop.
Proof.
  intros _. unfold ends_choice. destruct (Z.even g).
  - apply sublist_submseteq, sublist_take.
  - transitivity (reverse pop).
    + apply sublist_submseteq, sublist_take.
    + apply Permutation_submseteq, reverse_Permutation.
Qed.

Definition plain_numpy : Numpy :=
  {| generator := Z;
     default_rng := λ s,
       if s <? 0 then Raise (ValueError "expected non-negative integer") else Ok s;
     entropy_rng := λ e, e;
     choice := ends_choice;
     choice_length := ends_choice_length;
     choice_distinct := ends_choice_distinct;
     overflow_text := "Python int too large to convert to C long";
     size_bool_text :=
       "expected a sequence of integers or a single integer, got 'True'" |}.

Definition not_found : exn :=
  ClientError "404"
    "An error occurred (404) when calling the HeadObject operation: Not Found".

Definition stored_objects : list (string * bytes) :=
  [ ("acic22/truth/truth_0005.parquet", [Byte.x05]);
    ("acic22/truth/truth_0006.parquet", [Byte.x06]);
    ("acic22/simulations/sim_0001.parquet", [Byte.x01]);
    ("acic22/simulations/sim_0002.parquet", [Byte.x02]) ].

Fixpoint object_lookup (key : string) (objs : list (string * bytes)) : result bytes :=
  match objs with
  | [] => Raise not_found
  | (k, data) :: objs' => if decide (key = k) then Ok data else object_lookup key objs'
  end.

(** A store that answers the liveness probe with [probe], a download by
    [download] and every deletion with [deletion]. *)
Definition make_store (probe : option exn) (download : string → result bytes)
  (deletion : option exn) : store :=
  {| new_resource := λ _ _ _, None;
     new_bucket := λ _ _, None;
     bucket_load := λ _ _, probe;
     download_fileobj := λ _ _ key, download key;
     upload_fileobj := λ _ _ _ _, None;
     object_delete := λ _ _ _, deletion;
     objects_filter := λ _ _ prefix,
       Ok (filter (λ k, is_prefix prefix k = true) (stored_objects.*1)) |}.

Definition quiet_store : store :=
  make_store None (λ key, object_lookup key stored_objects) None.

(** A store whose every download fails with an error that is not a
    not-found code but mentions the words in its text. *)
Definition denied : exn :=
  ClientError "AccessDenied"
    "An error occurred (AccessDenied) when calling the GetObject operation: Not Found".

Definition denying_store : store :=
  make_store None (λ _, Raise denied) None.

(** A store that refuses every deletion. *)
Definition refusing_store : store :=
  make_store None (λ key, object_lookup key stored_objects)
    (Some (ClientError "AccessDenied" "Access Denied")).

(** A store that rejects the access key at the liveness probe. *)
Definition rejecting_store : store :=
  make_store (Some (ClientError "InvalidAccessKeyId" "The access key is unknown"))
    (λ key, object_lookup key stored_objects) None.

Definition sim_record (index : Z) (dgp : Z) : json_rec :=
  {| rec_index := Some index;
     rec_filename := Some ("sim_" +:+ format_04d index +:+ ".parquet");
     rec_dgp := Some dgp;
     rec_difficulty_tier := None |}.

Definition dgp_record (dgp : Z) (tier : string) : json_rec :=
  {| rec_index := None; rec_filename := None;
     rec_dgp := Some dgp; rec_difficulty_tier := Some tier |}.

(** Index = 1 with generator 10 and 2 with generator 20; generator 10 is
    easy, generator 20 is hard. *)
Definition metadata_doc : json_doc := JList [sim_record 1 10; sim_record 2 20].
Definition dgp_info_doc : json_doc :=
  JDict (DgpsList [dgp_record 10 "easy"; dgp_record 20 "hard"]).

(** The two documents as the dictionaries the loaders make of them. *)
Definition metadata_index : gmap Z json_rec :=
  {[ 1 := sim_record 1 10; 2 := sim_record 2 20 ]}.
Definition dgp_index : gmap Z json_rec :=
  {[ 10 := dgp_record 10 "easy"; 20 := dgp_record 20 "hard" ]}.

Definition local_files : filesystem :=
  {| path_exists := λ p,
       bool_decide (p = DEFAULT_ACIC22_METADATA) || bool_decide (p = DEFAULT_ACIC22_DGP_INFO);
     read_json_file := λ p,
       if decide (p = DEFAULT_ACIC22_METADATA) then Ok metadata_doc
       else if decide (p = DEFAULT_ACIC22_DGP_INFO) then Ok dgp_info_doc
       else Raise (FileNotFoundError p);
     stat_size := λ _, Ok 1;
     glob := λ _ _, [] |}.

Definition credentials : gmap string string :=
  {[ "UHH_S3_ACCESS" := "access"; "UHH_S3_SECRET" := "secret" ]}.

(** The names that the module [boto3.exceptions] of the released library
    defines.  The client error of the store is not among them: it is
    [botocore.exceptions.ClientError], the one [truth_matcher.py]
    imports. *)
Definition boto3_exceptions_released : list string :=
  [ "Boto3Error"; "ResourceLoadException"; "NoVersionFound";
    "UnknownAPIVersionError"; "ResourceNotExistsError"; "RetriesExceededError";
    "S3TransferFailedError"; "S3UploadFailedError";
    "DynamoDBOperationNotSupportedError"; "DynamoDBNeedsConditionError";
    "DynamoDBNeedsKeyConditionError"; "PythonDeprecationWarning" ].

(** The process right after start: no session, empty caches. *)
Definition started (env : gmap string string) (st : store) : world :=
  {| backend := {| _S3 := None; _BUCKET := None;
                   _ACTIVE_ENDPOINT := None; _READ_ONLY := true |};
     loaders := {| _CACHE := ∅; _META_CACHE := ∅ |};
     environ := env;
     stdin_isatty := false; stdin := []; stdout := []; warned := [];
     history := []; entropy_drawn := 0; remote := st; files := local_files;
     entropy := λ n, Z.of_nat n; boto3_exceptions := boto3_exceptions_released |}.

Definition fresh : world := started credentials quiet_store.

(** The bucket handle of a session on the small deployment. *)
Definition main_bucket : bucket :=
  Backend.handle_of fresh "https://s3-uhh.lzs.uni-hamburg.de:443" "cidl-test".

(** The process after [connect_s3(read_only=...)]. *)
Definition session (read_only : bool) (st : store) : world :=
  (Backend.connect_s3 "cidl-test" "primary" read_only (started credentials st)).2.

(** A store that refuses the deletion of the second truth file. *)
Definition fragile_store : store :=
  {| new_resource := λ _ _ _, None;
     new_bucket := λ _ _, None;
     bucket_load := λ _ _, None;
     download_fileobj := λ _ _ key, object_lookup key stored_objects;
     upload_fileobj := λ _ _ _ _, None;
     object_delete := λ _ _ key,
       if decide (key = "acic22/truth/truth_0006.parquet")
       then Some (ClientError "AccessDenied" "Access Denied")
       else None;
     objects_filter := λ _ _ prefix,
       Ok (filter (λ k, is_prefix prefix k = true) (stored_objects.*1)) |}.

(** A store whose listing names a note and a truth file that is not
    there beside the truth file 5. *)
Definition noted_store : store :=
  {| new_resource := λ _ _ _, None;
     new_bucket := λ _ _, None;
     bucket_load := λ _ _, None;
     download_fileobj := λ _ _ key,
       if decide (key = "acic22/truth/notes.txt") then Ok [Byte.x00]
       else object_lookup key stored_objects;
     upload_fileobj := λ _ _ _ _, None;
     object_delete := λ _ _ _, None;
     objects_filter := λ _ _ _,
       Ok [ "acic22/truth/truth_0005.parquet"; "acic22/truth/notes.txt";
            "acic22/truth/truth_0007.parquet" ] |}.





End Scenario.

(** * Properties *)

(** ** Sorted sets and dictionaries *)
Module PyFacts.
Import Py.

(** The formatting helpers on some values of the deployment. *)
Example format_04d_values :
  format_04d 7 = "0007" ∧ format_04d 3400 = "3400"
  ∧ format_04d 12345 = "12345" ∧ format_04d (-5) = "-005".
Proof. by vm_compute. Qed.

Example repr_values :
  repr_int_list [5; 6; 7] = "[5, 6, 7]" ∧ repr_int_list [] = "[]"
  ∧ Backend.repr_str_list (Backend.ENDPOINTS.*1)
    = "['primary', 'site-1', 'site-2', 'site-3']".
Proof. by vm_compute. Qed.

Example strip_values :
  str_strip ("  easy " +:+ newline) = "easy"
  ∧ str_strip "very easy" = "very easy"
  ∧ str_strip_slash "/acic22/truth/" = "acic22/truth"
  ∧ str_lower " Yes" = " yes".
Proof. by vm_compute. Qed.

(** White space beyond ASCII: U+00A0 before a label, U+2003 after an
    answer, U+3000 and U+0085 beside blanks; a byte 160 by itself; and the
    letter a with a grave accent, whose second byte is that of U+00A0 and
    which stays. *)
Example strip_unicode_values :
  str_strip (of_bytes [194; 160] +:+ "easy") = "easy"
  ∧ str_strip ("y" +:+ of_bytes [226; 128; 131]) = "y"
  ∧ str_strip (" " +:+ of_bytes [227; 128; 128] +:+ "all " +:+ of_bytes [194; 133]) = "all"
  ∧ str_strip (of_bytes [160] +:+ "easy") = "easy"
  ∧ str_strip ("voil" +:+ of_bytes [195; 160]) = "voil" +:+ of_bytes [195; 160]
  ∧ chars ("a" +:+ of_bytes [240; 159; 152; 160] +:+ "b")
    = ["a"; of_bytes [240; 159; 152; 160]; "b"].
Proof. vm_compute. repeat split. Qed.

(** [chars] cuts a text without losing or adding a byte, so [str_strip]
    returns a piece of its argument. *)
Lemma chars_whole_upto (n : nat) :
  ∀ s, (String.length s ≤ n)%nat → foldr String.append EmptyString (chars s) = s.
Proof.
  induction n as [|n IH]; intros s Hn.
  - destruct s; [done|simpl in Hn; lia].
  - destruct s as [|a [|b [|c [|d s4]]]]; try done.
    + cbn -[byte_in continuation]. by repeat case_match.
    + cbn [chars].
      repeat case_match; cbn [foldr String.append];
        rewrite ?IH; try done; cbn [String.length] in *; try lia.
    + cbn [chars].
      repeat case_match; cbn [foldr String.append];
        rewrite ?IH; try done; cbn [String.length] in *; try lia.
Qed.

Lemma chars_whole (s : string) : foldr String.append EmptyString (chars s) = s.
Proof. by apply (chars_whole_upto (String.length s)). Qed.

Example _truth_key_values :
  TruthMatcher._truth_key 7 "acic22/truth" = "acic22/truth/truth_0007.parquet"
  ∧ TruthMatcher._truth_key 7 "/acic22/truth/" = "acic22/truth/truth_0007.parquet".
Proof. by vm_compute. Qed.

Lemma sorted_set_perm (s : gset Z) : sorted_set s ≡ₚ elements s.
Proof. apply merge_sort_Permutation. Qed.

Lemma elem_of_sorted_set (x : Z) (s : gset Z) : x ∈ sorted_set s ↔ x ∈ s.
Proof. by rewrite sorted_set_perm, elem_of_elements. Qed.

Lemma sorted_set_NoDup (s : gset Z) : NoDup (sorted_set s).
Proof. rewrite sorted_set_perm. apply NoDup_elements. Qed.

Lemma sorted_set_Sorted (s : gset Z) : Sorted Z.le (sorted_set s).
Proof. apply (Sorted_merge_sort Z.le). Qed.

Lemma sorted_set_empty : sorted_set ∅ = [].
Proof. reflexivity. Qed.

Lemma sorted_set_nil (s : gset Z) : sorted_set s = [] ↔ s = ∅.
Proof.
  split; [|intros ->; apply sorted_set_empty].
  intros H. apply set_eq. intros x. rewrite <- elem_of_sorted_set, H. set_solver.
Qed.

Lemma set_of_sorted_set (s : gset Z) : set_of (sorted_set s) = s.
Proof.
  apply set_eq. intros x. unfold set_of.
  by rewrite elem_of_list_to_set, elem_of_sorted_set.
Qed.

Lemma set_of_merge_sort (l : list Z) : set_of (merge_sort Z.le l) = set_of l.
Proof.
  apply set_eq. intros x. unfold set_of.
  by rewrite !elem_of_list_to_set, merge_sort_Permutation.
Qed.

(** Ascending without repeats is strictly ascending. *)
Lemma Sorted_le_NoDup_lt (l : list Z) :
  Sorted Z.le l → NoDup l → StronglySorted Z.lt l.
Proof.
  intros Hs Hn. apply Sorted_StronglySorted in Hs; [|apply _].
  induction Hs as [|x l Hs IH Hall]; [constructor|].
  apply NoDup_cons in Hn as [Hx Hn]. constructor; [by apply IH|].
  rewrite Forall_forall in *. intros y Hy.
  specialize (Hall y Hy). assert (x ≠ y) by (intros ->; done). lia.
Qed.

Lemma sorted_set_ascending (s : gset Z) : StronglySorted Z.lt (sorted_set s).
Proof. apply Sorted_le_NoDup_lt; [apply sorted_set_Sorted|apply sorted_set_NoDup]. Qed.

(** A sorted list without repeats is the sorted form of its own set. *)
Lemma sorted_set_unique (l : list Z) :
  Sorted Z.le l → NoDup l → sorted_set (set_of l) = l.
Proof.
  intros Hs Hn. apply (Sorted_unique Z.le); [apply sorted_set_Sorted|done|].
  rewrite sorted_set_perm. unfold set_of. by apply elements_list_to_set.
Qed.

Lemma elem_of_dict_set {V : Type} (x k : Z) (v : V) (d : list (Z * V)) :
  x ∈ dict_keys (dict_set k v d) ↔ x = k ∨ x ∈ dict_keys d.
Proof.
  unfold dict_keys. induction d as [|[k' v'] d IH]; cbn [dict_set fmap list_fmap fst].
  - rewrite elem_of_cons, !elem_of_nil. tauto.
  - destruct (decide (k = k')) as [->|Hne]; cbn [fmap list_fmap fst].
    + rewrite !elem_of_cons. tauto.
    + rewrite !elem_of_cons, IH. tauto.
Qed.

Lemma set_of_dict_set {V : Type} (k : Z) (v : V) (d : list (Z * V)) :
  set_of (dict_keys (dict_set k v d)) = {[ k ]} ∪ set_of (dict_keys d).
Proof.
  apply set_eq. intros x. unfold set_of.
  rewrite elem_of_union, !elem_of_list_to_set, elem_of_dict_set, elem_of_singleton.
  done.
Qed.

(** Setting a key that is not there yet puts it last. *)
Lemma dict_set_fresh {V : Type} (k : Z) (v : V) (d : list (Z * V)) :
  k ∉ dict_keys d → dict_set k v d = (d ++ [(k, v)])%list.
Proof.
  unfold dict_keys. induction d as [|[k' v'] d IH]; simpl; [done|].
  rewrite not_elem_of_cons. intros [Hne Hnin].
  rewrite decide_False by done. by rewrite IH.
Qed.

End PyFacts.

(** ** Running a computation by hand *)
Module Run.
Import Py World.

Ltac unfold_M :=
  unfold print, warnings_warn, request, lift, try_except in *;
  unfold mbind, M_bind, mret, M_ret, raise, get, modify in *.

Ltac wsimpl :=
  cbn [backend loaders environ stdin_isatty stdin stdout warned history remote
       files entropy entropy_drawn boto3_exceptions
       with_backend with_loaders with_stdin with_stdout with_warned
       with_history with_entropy_drawn
       _S3 _BUCKET _ACTIVE_ENDPOINT _READ_ONLY _CACHE _META_CACHE
       res_access res_secret res_endpoint bucket_resource bucket_name
       fst snd unit_result andb orb negb] in *.

Lemma bind_ok {A B : Type} (m : M A) (k : A → M B) w a w' :
  m w = (Ok a, w') → (m ≫= k) w = k a w'.
Proof. intros H. unfold mbind, M_bind. by rewrite H. Qed.

Lemma bind_raise {A B : Type} (m : M A) (k : A → M B) w e w' :
  m w = (Raise e, w') → (m ≫= k) w = (Raise e, w').
Proof. intros H. unfold mbind, M_bind. by rewrite H. Qed.

Lemma bind_inv_ok {A B : Type} (m : M A) (k : A → M B) w b w2 :
  (m ≫= k) w = (Ok b, w2) → ∃ a w1, m w = (Ok a, w1) ∧ k a w1 = (Ok b, w2).
Proof.
  unfold mbind, M_bind. destruct (m w) as [[a|e] w1]; [eauto|discriminate].
Qed.

End Run.

(** ** backend.py: connection errors, the write guard, deletions *)
Module BackendFacts.
Import Py World Backend Run Scenario.

Lemma probes_only_refl (h : list event) : probes_only h h.
Proof. exists []. by rewrite app_nil_r. Qed.

Lemma probes_no_write (h h' : list event) :
  probes_only h h' → filter is_write h' = filter is_write h.
Proof.
  intros (pre & -> & Hpre). rewrite filter_app.
  assert (filter is_write pre = []) as ->; [|by rewrite app_nil_r].
  induction Hpre as [|ev pre [b ->] _ IH]; [done|].
  rewrite filter_cons_False; [done|]. simpl. intros [].
Qed.

Lemma probes_no_download (h h' : list event) :
  probes_only h h' → filter is_download h' = filter is_download h.
Proof.
  intros (pre & -> & Hpre). rewrite filter_app.
  assert (filter is_download pre = []) as ->; [|by rewrite app_nil_r].
  induction Hpre as [|ev pre [b ->] _ IH]; [done|].
  rewrite filter_cons_False; [done|]. simpl. intros [].
Qed.

(** What [connect_s3] changes, whatever its outcome: the globals of the
    module, the standard output and, by at most the probe, the history.
    The flag is set to the argument on every path. *)
Lemma connect_s3_effect bucket_name endpoint_key read_only w r w' :
  connect_s3 bucket_name endpoint_key read_only w = (r, w') →
  same_outside_backend w w'
  ∧ probes_only (history w) (history w')
  ∧ _READ_ONLY (backend w') = read_only
  ∧ (∀ v, r = Ok v →
       _S3 (backend w') = Some v.1.1 ∧ _BUCKET (backend w') = Some v.1.2).
Proof.
  unfold connect_s3, create_resource, probe_handler,
    set_READ_ONLY, set_ACTIVE_ENDPOINT, set_S3, set_BUCKET.
  unfold_M. wsimpl. intros H.
  repeat case_match; simplify_eq; wsimpl;
    (split; [by repeat split|]);
    (split; [first [apply probes_only_refl
                   | eexists [_]; split; [done|]; repeat constructor; eauto ]|]);
    (split; [done|]); intros v ?; simplify_eq; done.
Qed.

Lemma connect_s3_credentials bucket_name endpoint_key read_only w :
  let access := environ w !! "UHH_S3_ACCESS" in
  let secret := environ w !! "UHH_S3_SECRET" in
  (connect_s3 bucket_name endpoint_key read_only w).1 =
    if env_missing access && env_missing secret then Raise (RuntimeError msg_both_missing)
    else if env_missing access then Raise (RuntimeError msg_access_missing)
    else if env_missing secret then Raise (RuntimeError msg_secret_missing)
    else (connect_s3 bucket_name endpoint_key read_only w).1.
Proof.
  intros access secret. unfold connect_s3, set_READ_ONLY. unfold_M. wsimpl.
  fold access secret.
  by destruct (env_missing access), (env_missing secret).
Qed.

Lemma endpoint_lookup_None (k : string) (d : list (string * string)) :
  endpoint_lookup k d = None ↔ k ∉ d.*1.
Proof.
  induction d as [|[k' v] d IH]; cbn [endpoint_lookup fmap list_fmap fst].
  - split; [intros _; apply not_elem_of_nil|done].
  - rewrite not_elem_of_cons. destruct (decide (k = k')) as [->|Hne].
    + split; [done|]. by intros [? _].
    + rewrite IH. tauto.
Qed.

Lemma connect_s3_unknown_endpoint bucket_name endpoint_key read_only w :
  credentials_present w →
  endpoint_lookup endpoint_key ENDPOINTS = None →
  (connect_s3 bucket_name endpoint_key read_only w).1
    = Raise (ValueError (msg_invalid_endpoint endpoint_key)).
Proof.
  intros [Ha Hs] Hep. unfold connect_s3, set_READ_ONLY. unfold_M. wsimpl.
  by rewrite Ha, Hs, Hep.
Qed.

(** A failing probe, as far as the handlers of the [try] statement: what
    [connect_s3] raises is what the lookup of the first clause allows. *)
Lemma connect_s3_probe_failure bucket_name endpoint_key read_only w url e :
  endpoint_lookup endpoint_key ENDPOINTS = Some url →
  probe_reached w url bucket_name →
  bucket_load (remote w) (history w) (handle_of w url bucket_name) = Some e →
  (connect_s3 bucket_name endpoint_key read_only w).1 =
    if bool_decide ("ClientError" ∈ boto3_exceptions w)
    then Raise (probe_error bucket_name e)
    else Raise (AttributeError msg_no_ClientError).
Proof.
  intros Hurl ((Ha & Hs) & Hres & Hbkt) Hload.
  unfold connect_s3, create_resource, probe_handler,
    set_READ_ONLY, set_ACTIVE_ENDPOINT, set_S3, set_BUCKET.
  unfold handle_of in *.
  unfold_M. wsimpl.
  rewrite Ha, Hs. wsimpl. rewrite Hurl. wsimpl.
  rewrite Hres. wsimpl. rewrite Hbkt. wsimpl.
  rewrite Hload. wsimpl. by destruct (bool_decide _).
Qed.

(** The errors of [connect_s3], cause by cause: a [RuntimeError] whose
    text tells apart both credentials missing, the access key missing and
    the secret missing; a [ValueError] for an endpoint selector outside the
    four known ones; and, for a failing probe where the first [except]
    clause can be evaluated, a [RuntimeError] chosen by the error code of
    the store, with a catch-all text for every other code and for every
    other exception.  The eight fixed errors are pairwise different. *)
Lemma connect_s3_error_per_cause bucket_name endpoint_key read_only w :
  let access := environ w !! "UHH_S3_ACCESS" in
  let secret := environ w !! "UHH_S3_SECRET" in
  let outcome := (connect_s3 bucket_name endpoint_key read_only w).1 in
  (env_missing access = true → env_missing secret = true →
     outcome = Raise (RuntimeError msg_both_missing))
  ∧ (env_missing access = true → env_missing secret = false →
     outcome = Raise (RuntimeError msg_access_missing))
  ∧ (env_missing access = false → env_missing secret = true →
     outcome = Raise (RuntimeError msg_secret_missing))
  ∧ (credentials_present w →
     endpoint_key ∉ ["primary"; "site-1"; "site-2"; "site-3"] →
     outcome = Raise (ValueError (msg_invalid_endpoint endpoint_key)))
  ∧ (∀ url e,
       endpoint_lookup endpoint_key ENDPOINTS = Some url →
       probe_reached w url bucket_name →
       bucket_load (remote w) (history w) (handle_of w url bucket_name) = Some e →
       "ClientError" ∈ boto3_exceptions w →
       (∀ text, e = ClientError "InvalidAccessKeyId" text →
          outcome = Raise (RuntimeError msg_invalid_key))
       ∧ (∀ text, e = ClientError "SignatureDoesNotMatch" text →
          outcome = Raise (RuntimeError msg_invalid_secret))
       ∧ (∀ text, e = ClientError "AccessDenied" text →
          outcome = Raise (RuntimeError msg_access_denied))
       ∧ (∀ text, e = ClientError "NoSuchBucket" text →
          outcome = Raise (RuntimeError (msg_no_bucket bucket_name)))
       ∧ (∀ code text, e = ClientError code text →
          code ∉ ["InvalidAccessKeyId"; "SignatureDoesNotMatch";
                  "AccessDenied"; "NoSuchBucket"] →
          outcome = Raise (RuntimeError ("S3 connection failed: " +:+ text)))
       ∧ ((∀ code text, e ≠ ClientError code text) →
          outcome = Raise (RuntimeError
                             ("S3 connection failed: Unknown error ("
                                +:+ exn_str e +:+ ")"))))
  ∧ NoDup [ RuntimeError msg_both_missing; RuntimeError msg_access_missing;
            RuntimeError msg_secret_missing;
            ValueError (msg_invalid_endpoint endpoint_key);
            RuntimeError msg_invalid_key; RuntimeError msg_invalid_secret;
            RuntimeError msg_access_denied; RuntimeError (msg_no_bucket bucket_name) ].
Proof.
  intros access secret outcome.
  pose proof (connect_s3_credentials bucket_name endpoint_key read_only w) as Hcred.
  cbv zeta in Hcred. fold access secret outcome in Hcred.
  split; [|split; [|split; [|split; [|split]]]].
  - intros Ha Hs. by rewrite Hcred, Ha, Hs.
  - intros Ha Hs. by rewrite Hcred, Ha, Hs.
  - intros Ha Hs. by rewrite Hcred, Ha, Hs.
  - intros Hc Hep. apply connect_s3_unknown_endpoint; [done|].
    by apply endpoint_lookup_None.
  - intros url e Hurl Hreach Hload Hname.
    pose proof (connect_s3_probe_failure bucket_name endpoint_key read_only w url e
                  Hurl Hreach Hload) as Hp.
    rewrite bool_decide_true in Hp by done.
    fold outcome in Hp. rewrite Hp.
    repeat split.
    + by intros text ->.
    + by intros text ->.
    + by intros text ->.
    + by intros text ->.
    + intros code text -> Hcode. simpl.
      rewrite !not_elem_of_cons in Hcode. destruct Hcode as (?&?&?&?&_).
      by repeat (case_decide; [done|]).
    + intros Hne. destruct e; try done. by destruct (Hne code text).
  - repeat (apply NoDup_cons; split;
      [rewrite ?elem_of_cons, elem_of_nil;
       intros H; repeat (destruct H as [H|H]; [discriminate H|]); done |]).
    apply NoDup_nil_2.
Qed.

(** C4.  The claim holds for the credentials and for the endpoint, and
    fails for the probe: with the released library, where
    [boto3.exceptions] defines no [ClientError], every failure of the
    probe, whatever the error code of the store, leaves [connect_s3] as
    the [AttributeError] of the lookup, and none of the five errors that
    the handlers hold ready is raised. *)
Theorem connect_s3_probe_failure_unclassified bucket_name endpoint_key read_only w url e :
  endpoint_lookup endpoint_key ENDPOINTS = Some url →
  probe_reached w url bucket_name →
  bucket_load (remote w) (history w) (handle_of w url bucket_name) = Some e →
  "ClientError" ∉ boto3_exceptions w →
  (connect_s3 bucket_name endpoint_key read_only w).1
    = Raise (AttributeError msg_no_ClientError)
  ∧ (connect_s3 bucket_name endpoint_key read_only w).1
    ≠ Raise (probe_error bucket_name e).
Proof.
  intros Hurl Hreach Hload Hname.
  rewrite (connect_s3_probe_failure bucket_name endpoint_key read_only w url e
             Hurl Hreach Hload).
  rewrite bool_decide_false by done. split; [done|].
  unfold probe_error. repeat case_match; discriminate.
Qed.

(** The failing input: both credentials set, the primary endpoint, and a
    store that rejects the access key at the probe. *)
Lemma connect_s3_probe_failure_unclassified_witness :
  (connect_s3 "cidl-test" "primary" true (started credentials rejecting_store)).1
    = Raise (AttributeError msg_no_ClientError)
  ∧ (connect_s3 "cidl-test" "primary" true (started credentials rejecting_store)).1
    ≠ Raise (RuntimeError msg_invalid_key).
Proof.
  apply (connect_s3_probe_failure_unclassified "cidl-test" "primary" true
           (started credentials rejecting_store)
           "https://s3-uhh.lzs.uni-hamburg.de:443"
           (ClientError "InvalidAccessKeyId" "The access key is unknown")).
  - vm_compute. reflexivity.
  - repeat split; vm_compute; reflexivity.
  - vm_compute. reflexivity.
  - vm_compute. intros Hin. repeat (apply elem_of_cons in Hin as [Hin|Hin]; [discriminate Hin|]).
    by apply elem_of_nil in Hin.
Defined.

(** With credentials missing the cause is named, as it is for a selector
    that is not one of the four. *)
Example connect_s3_without_credentials :
  (connect_s3 "cidl-test" "primary" true (started ∅ quiet_store)).1
    = Raise (RuntimeError msg_both_missing)
  ∧ (connect_s3 "cidl-test" "backup" true (started credentials quiet_store)).1
    = Raise (ValueError
               "Invalid endpoint 'backup'. Choose from ['primary', 'site-1', 'site-2', 'site-3'].").
Proof. split; vm_compute; reflexivity. Qed.

Lemma _ensure_connected_noop w : connected w → _ensure_connected w = (Ok (), w).
Proof.
  intros [[r Hr] [b Hb]]. unfold _ensure_connected. unfold_M.
  rewrite Hr, Hb. reflexivity.
Qed.

Lemma _ensure_connected_auto w :
  ¬ connected w →
  _ensure_connected w =
    match connect_s3 "cidl-test" "primary" true w with
    | (Ok _, w') => (Ok (), w')
    | (Raise e, w') => (Raise e, w')
    end.
Proof.
  intros Hn. unfold _ensure_connected. unfold_M.
  destruct (_S3 (backend w)) as [r|] eqn:Hr, (_BUCKET (backend w)) as [b|] eqn:Hb;
    try reflexivity.
  destruct Hn. split; eauto.
Qed.

(** [_ensure_connected] leaves the caches, the environment and the store
    alone, adds at most a probe to the history, and on a normal return a
    session is present. *)
Lemma _ensure_connected_effect w r w' :
  _ensure_connected w = (r, w') →
  same_outside_backend w w'
  ∧ probes_only (history w) (history w')
  ∧ (r = Ok () → connected w').
Proof.
  destruct (decide (connected w)) as [Hc|Hn].
  - rewrite (_ensure_connected_noop w Hc). intros [= <- <-].
    split; [by repeat split|]. split; [apply probes_only_refl|done].
  - rewrite (_ensure_connected_auto w Hn).
    destruct (connect_s3 "cidl-test" "primary" true w) as [[v|e] w1] eqn:Hc;
      intros [= <- <-];
      apply connect_s3_effect in Hc as (Hsame & Hp & _ & Hv);
      (split; [done|]); (split; [done|]); [|done].
    intros _. destruct (Hv v eq_refl) as [H1 H2]. split; eauto.
Qed.

Lemma _check_write_permission_blocked w :
  _READ_ONLY (backend w) = true →
  _check_write_permission w = (Raise (PermissionError msg_write_blocked), w).
Proof. intros H. unfold _check_write_permission. unfold_M. by rewrite H. Qed.

Lemma _check_write_permission_passes w :
  _READ_ONLY (backend w) = false → _check_write_permission w = (Ok (), w).
Proof. intros H. unfold _check_write_permission. unfold_M. by rewrite H. Qed.

(** A guarded operation is the two guards followed by a body. *)
Lemma guarded_blocked {A : Type} (body : M A) w :
  connected w → _READ_ONLY (backend w) = true →
  (_ensure_connected ;; _check_write_permission ;; body) w
    = (Raise (PermissionError msg_write_blocked), w).
Proof.
  intros Hc Hro. unfold mbind, M_bind.
  by rewrite (_ensure_connected_noop w Hc), (_check_write_permission_blocked w Hro).
Qed.

Lemma guarded_passes {A : Type} (body : M A) w :
  connected w → _READ_ONLY (backend w) = false →
  (_ensure_connected ;; _check_write_permission ;; body) w = body w.
Proof.
  intros Hc Hro. unfold mbind, M_bind.
  by rewrite (_ensure_connected_noop w Hc), (_check_write_permission_passes w Hro).
Qed.

Lemma guarded_auto_connect {A : Type} (body : M A) w v w' :
  ¬ connected w →
  connect_s3 "cidl-test" "primary" true w = (Ok v, w') →
  (_ensure_connected ;; _check_write_permission ;; body) w
    = (Raise (PermissionError msg_write_blocked), w').
Proof.
  intros Hn Hc. unfold mbind, M_bind at 1.
  rewrite (_ensure_connected_auto w Hn), Hc.
  apply connect_s3_effect in Hc as (_ & _ & Hro & _).
  unfold M_bind. by rewrite (_check_write_permission_blocked w' Hro).
Qed.

(** The write guard follows the flag of the module.  With a session
    present and the flag set, each of [upload_file], [upload_directory],
    [delete_object] and [delete_prefix] raises [PermissionError] and leaves
    the world as it was, so no request reaches the store.  A successful
    [connect_s3] leaves the flag it was asked for, and the session that the
    first guard makes on demand is read-only, so the operation is refused
    after the probe and before any write.  With the flag clear the guard
    passes and the operation is its body. *)
Lemma write_guard_follows_flag :
  (∀ w, connected w → _READ_ONLY (backend w) = true →
     (∀ file_path key_prefix,
        upload_file file_path key_prefix w
          = (Raise (PermissionError msg_write_blocked), w))
     ∧ (∀ dir key_prefix max_workers extensions,
        upload_directory dir key_prefix max_workers extensions w
          = (Raise (PermissionError msg_write_blocked), w))
     ∧ (∀ key, delete_object key w = (Raise (PermissionError msg_write_blocked), w))
     ∧ (∀ key_prefix,
        delete_prefix key_prefix w = (Raise (PermissionError msg_write_blocked), w)))
  ∧ (∀ bucket_name endpoint_key read_only w v w',
       connect_s3 bucket_name endpoint_key read_only w = (Ok v, w') →
       connected w' ∧ _READ_ONLY (backend w') = read_only)
  ∧ (∀ w v w', ¬ connected w →
       connect_s3 "cidl-test" "primary" true w = (Ok v, w') →
       filter is_write (history w') = filter is_write (history w)
       ∧ (∀ file_path key_prefix,
            upload_file file_path key_prefix w
              = (Raise (PermissionError msg_write_blocked), w'))
       ∧ (∀ dir key_prefix max_workers extensions,
            upload_directory dir key_prefix max_workers extensions w
              = (Raise (PermissionError msg_write_blocked), w'))
       ∧ (∀ key, delete_object key w = (Raise (PermissionError msg_write_blocked), w'))
       ∧ (∀ key_prefix,
            delete_prefix key_prefix w = (Raise (PermissionError msg_write_blocked), w')))
  ∧ (∀ w, connected w → _READ_ONLY (backend w) = false →
       _check_write_permission w = (Ok (), w)
       ∧ (∀ file_path key_prefix,
            upload_file file_path key_prefix w = upload_file_body file_path key_prefix w)
       ∧ (∀ dir key_prefix max_workers extensions,
            upload_directory dir key_prefix max_workers extensions w
              = upload_directory_body dir key_prefix max_workers extensions w)
       ∧ (∀ key, delete_object key w = delete_object_body key w)
       ∧ (∀ key_prefix, delete_prefix key_prefix w = delete_prefix_body key_prefix w)).
Proof.
  split; [|split; [|split]].
  - intros w Hc Hro. repeat split; intros; by apply guarded_blocked.
  - intros bn ek ro w v w' H. apply connect_s3_effect in H as (_ & _ & Hro & Hv).
    destruct (Hv v eq_refl) as [H1 H2]. split; [split; eauto|done].
  - intros w v w' Hn Hc. split.
    + apply connect_s3_effect in Hc as (_ & Hpre & _). by apply probes_no_write.
    + repeat split; intros; by eapply guarded_auto_connect.
  - intros w Hc Hro. split; [by apply _check_write_permission_passes|].
    repeat split; intros; by apply guarded_passes.
Qed.

Lemma session_connected ro st :
  _S3 (backend (session ro st)) ≠ None →
  _BUCKET (backend (session ro st)) ≠ None →
  connected (session ro st).
Proof.
  intros H1 H2. split.
  - by destruct (_S3 (backend (session ro st))); [eexists|].
  - by destruct (_BUCKET (backend (session ro st))); [eexists|].
Qed.

(** On the small deployment: a read-only session refuses a deletion, a
    write session uploads. *)
Lemma write_guard_follows_flag_deployment :
  delete_object "acic22/truth/truth_0005.parquet" (session true quiet_store)
    = (Raise (PermissionError msg_write_blocked), session true quiet_store)
  ∧ (upload_file {| path_str := "/data/sim_0003.parquet"; path_name := "sim_0003.parquet" |}
       "acic22/simulations" (session false quiet_store)).1
    = Ok ("sim_0003.parquet", PyTrue,
          Some "s3://cidl-test/acic22/simulations/sim_0003.parquet").
Proof.
  destruct write_guard_follows_flag as (Hblocked & _ & _ & Hpasses).
  split.
  - apply (Hblocked (session true quiet_store)).
    + apply session_connected; vm_compute; discriminate.
    + vm_compute. reflexivity.
  - destruct (Hpasses (session false quiet_store)) as (_ & Hup & _).
    + apply session_connected; vm_compute; discriminate.
    + vm_compute. reflexivity.
    + rewrite Hup. vm_compute. reflexivity.
Defined.

(** A call of [connect_s3] that returns found both credentials. *)
Lemma connect_s3_ok_credentials bucket_name endpoint_key read_only w v w' :
  connect_s3 bucket_name endpoint_key read_only w = (Ok v, w') →
  credentials_present w.
Proof.
  intros H.
  pose proof (connect_s3_credentials bucket_name endpoint_key read_only w) as Hc.
  cbv zeta in Hc. rewrite H in Hc. cbn [fst] in Hc. unfold credentials_present.
  destruct (env_missing (environ w !! "UHH_S3_ACCESS")),
    (env_missing (environ w !! "UHH_S3_SECRET")); by try discriminate Hc.
Qed.

(** The world that [connect_s3] leaves behind when it stops at the
    endpoint selector: the flag is the only thing it has written. *)
Lemma connect_s3_unknown_endpoint_world bucket_name endpoint_key read_only w :
  credentials_present w →
  endpoint_lookup endpoint_key ENDPOINTS = None →
  connect_s3 bucket_name endpoint_key read_only w
    = (Raise (ValueError (msg_invalid_endpoint endpoint_key)),
       (set_READ_ONLY read_only w).2).
Proof.
  intros [Ha Hs] Hep. unfold connect_s3, set_READ_ONLY. unfold_M. wsimpl.
  by rewrite Ha, Hs, Hep.
Qed.

(** C9.  The guard reads the flag of the module, and [connect_s3] assigns
    its argument to the flag before it checks anything.  So the claim holds
    for a session as [connect_s3(read_only=True)] leaves it, where each
    mutating operation raises [PermissionError], and fails one call later:
    a call of [connect_s3] with [read_only=False] that stops at the
    endpoint selector raises [ValueError], leaves the session that was
    established read-only in place and in use, and lifts the guard.  The
    four operations are then their bodies, and a deletion reaches the
    store. *)
Theorem failed_connect_lifts_write_guard bucket_name0 endpoint_key0 w0 r b url w
    bucket_name endpoint_key :
  connect_s3 bucket_name0 endpoint_key0 true w0 = (Ok (r, b, url), w) →
  endpoint_lookup endpoint_key ENDPOINTS = None →
  let w' := (connect_s3 bucket_name endpoint_key false w).2 in
  (∀ key, delete_object key w = (Raise (PermissionError msg_write_blocked), w))
  ∧ (connect_s3 bucket_name endpoint_key false w).1
      = Raise (ValueError (msg_invalid_endpoint endpoint_key))
  ∧ (_S3 (backend w') = Some r ∧ _BUCKET (backend w') = Some b
     ∧ _ACTIVE_ENDPOINT (backend w') = _ACTIVE_ENDPOINT (backend w)
     ∧ history w' = history w)
  ∧ (∀ file_path key_prefix,
       upload_file file_path key_prefix w' = upload_file_body file_path key_prefix w')
  ∧ (∀ dir key_prefix max_workers extensions,
       upload_directory dir key_prefix max_workers extensions w'
         = upload_directory_body dir key_prefix max_workers extensions w')
  ∧ (∀ key, delete_object key w' = delete_object_body key w')
  ∧ (∀ key_prefix, delete_prefix key_prefix w' = delete_prefix_body key_prefix w')
  ∧ (∀ key, object_delete (remote w) (history w) b key = None →
       (delete_object key w').1 = Ok PyTrue
       ∧ history (delete_object key w').2 = (history w ++ [EvDelete b key])%list).
Proof.
  intros Hest Hep w'.
  pose proof (connect_s3_ok_credentials _ _ _ _ _ _ Hest) as Hcred0.
  apply connect_s3_effect in Hest as (Hsame & _ & Hro & Hv).
  destruct (Hv _ eq_refl) as [Hr Hb]. cbn [fst snd] in Hr, Hb.
  assert (connected w) as Hc by (split; eauto).
  assert (credentials_present w) as Hcred.
  { destruct Hsame as (_ & Henv & _). unfold credentials_present in *.
    by rewrite Henv. }
  assert (w' = (set_READ_ONLY false w).2) as Hw'.
  { unfold w'. by rewrite (connect_s3_unknown_endpoint_world _ _ _ _ Hcred Hep). }
  assert (connected w') as Hc'.
  { rewrite Hw'. unfold set_READ_ONLY. unfold_M. wsimpl. done. }
  assert (_READ_ONLY (backend w') = false) as Hro'.
  { rewrite Hw'. unfold set_READ_ONLY. unfold_M. wsimpl. done. }
  assert (∀ key, delete_object key w' = delete_object_body key w') as Hdel.
  { intros key. by apply guarded_passes. }
  split; [intros key; by apply guarded_blocked|].
  split; [by rewrite (connect_s3_unknown_endpoint_world _ _ _ _ Hcred Hep)|].
  split.
  { rewrite Hw'. unfold set_READ_ONLY. unfold_M. wsimpl. done. }
  split; [intros; by apply guarded_passes|].
  split; [intros; by apply guarded_passes|].
  split; [done|].
  split; [intros; by apply guarded_passes|].
  intros key Hgo. rewrite Hdel, Hw'.
  unfold delete_object_body, bucket_attr, set_READ_ONLY. unfold_M. wsimpl.
  rewrite Hb. wsimpl. rewrite Hgo. wsimpl. done.
Qed.

(** The failing run on the small deployment: a read-only session refuses
    the deletion; a call for write mode with the selector [backup] fails;
    the same deletion then goes to the store. *)
Lemma failed_connect_lifts_write_guard_witness :
  let key := "acic22/truth/truth_0005.parquet" in
  let w := session true quiet_store in
  let w' := (connect_s3 "cidl-test" "backup" false w).2 in
  delete_object key w = (Raise (PermissionError msg_write_blocked), w)
  ∧ (connect_s3 "cidl-test" "backup" false w).1
      = Raise (ValueError (msg_invalid_endpoint "backup"))
  ∧ (delete_object key w').1 = Ok PyTrue
  ∧ history (delete_object key w').2 = [EvLoad main_bucket; EvDelete main_bucket key].
Proof.
  intros key w w'.
  destruct (failed_connect_lifts_write_guard "cidl-test" "primary"
              (started credentials quiet_store)
              (bucket_resource main_bucket) main_bucket
              "https://s3-uhh.lzs.uni-hamburg.de:443" w "cidl-test" "backup")
    as (Hblocked & Hfails & _ & _ & _ & _ & _ & Hwrite).
  - vm_compute. reflexivity.
  - vm_compute. reflexivity.
  - destruct (Hwrite key) as [Hok Hhist]; [vm_compute; reflexivity|].
    split; [apply Hblocked|]. split; [exact Hfails|]. split; [exact Hok|].
    etransitivity; [exact Hhist|]. vm_compute. reflexivity.
Defined.

Lemma for_each_delete_raise b objs w e w' :
  for_each (delete_one b) objs w = (Raise e, w') →
  ∃ key h, key ∈ objs ∧ object_delete (remote w) h b key = Some e.
Proof.
  revert w. induction objs as [|k objs IH]; intros w; simpl.
  - unfold_M. intros [=].
  - unfold delete_one. unfold_M.
    destruct (object_delete (remote w) (history w) b k) as [e0|] eqn:Hk; wsimpl.
    + intros [= <- <-]. exists k, (history w). split; [left|done].
    + intros H. apply IH in H as (key & h & Hin & Hd). wsimpl.
      exists key, h. split; [by right|done].
Qed.

(** C10.  In write mode, [delete_object] and [delete_prefix] always return:
    [True] when the deletion went through (for [delete_prefix] also when
    nothing matched the prefix), and otherwise the very exception that the
    listing or a deletion raised. *)
Theorem delete_returns_caught_exception w b :
  is_Some (_S3 (backend w)) →
  _BUCKET (backend w) = Some b →
  _READ_ONLY (backend w) = false →
  (∀ key,
     (delete_object key w).1 =
       match object_delete (remote w) (history w) b key with
       | None => Ok PyTrue
       | Some e => Ok (PyExc e)
       end)
  ∧ (∀ key_prefix,
       (delete_prefix key_prefix w).1 =
         match objects_filter (remote w) (history w) b key_prefix with
         | Raise e => Ok (PyExc e)
         | Ok objects =>
             match (for_each (delete_one b) objects
                      (after_request (EvList b key_prefix) w)).1 with
             | Ok _ => Ok PyTrue
             | Raise e => Ok (PyExc e)
             end
         end)
  ∧ (∀ key_prefix,
       objects_filter (remote w) (history w) b key_prefix = Ok [] →
       (delete_prefix key_prefix w).1 = Ok PyTrue)
  ∧ (∀ key, ∃ r, (delete_object key w).1 = Ok r)
  ∧ (∀ key_prefix, ∃ r, (delete_prefix key_prefix w).1 = Ok r).
Proof.
  intros HS3 Hb Hro.
  assert (connected w) as Hc by (split; [done|by rewrite Hb]).
  assert (∀ key,
     (delete_object key w).1 =
       match object_delete (remote w) (history w) b key with
       | None => Ok PyTrue
       | Some e => Ok (PyExc e)
       end) as Hobj.
  { intros key. unfold delete_object. rewrite (guarded_passes _ w Hc Hro).
    unfold delete_object_body, bucket_attr. unfold_M. rewrite Hb. wsimpl.
    by destruct (object_delete _ _ _ _). }
  assert (∀ key_prefix,
       (delete_prefix key_prefix w).1 =
         match objects_filter (remote w) (history w) b key_prefix with
         | Raise e => Ok (PyExc e)
         | Ok objects =>
             match (for_each (delete_one b) objects
                      (after_request (EvList b key_prefix) w)).1 with
             | Ok _ => Ok PyTrue
             | Raise e => Ok (PyExc e)
             end
         end) as Hpre.
  { intros key_prefix. unfold delete_prefix. rewrite (guarded_passes _ w Hc Hro).
    unfold delete_prefix_body, bucket_attr, after_request. unfold_M. rewrite Hb. wsimpl.
    destruct (objects_filter _ _ _ _) as [[|k objs]|e]; [done| |done].
    by destruct (for_each _ _ _) as [[[]|e] w']. }
  split; [done|]. split; [done|]. split; [|split].
  - intros key_prefix Hnone. by rewrite Hpre, Hnone.
  - intros key. rewrite Hobj. destruct (object_delete _ _ _ _); eauto.
  - intros key_prefix. rewrite Hpre.
    destruct (objects_filter _ _ _ _); [|by eauto].
    destruct (for_each _ _ _).1; eauto.
Qed.

(** The theorem at work: a store that refuses deletions. *)
Lemma delete_returns_caught_exception_witness :
  (delete_object "acic22/truth/truth_0005.parquet" (session false refusing_store)).1
    = Ok (PyExc (ClientError "AccessDenied" "Access Denied"))
  ∧ (delete_prefix "acic22/truth" (session false refusing_store)).1
    = Ok (PyExc (ClientError "AccessDenied" "Access Denied"))
  ∧ (delete_prefix "acic22/none" (session false quiet_store)).1 = Ok PyTrue.
Proof.
  destruct (delete_returns_caught_exception (session false refusing_store) main_bucket)
    as (Hobj & Hpre & _).
  { vm_compute. by eexists. }
  { vm_compute. reflexivity. }
  { vm_compute. reflexivity. }
  destruct (delete_returns_caught_exception (session false quiet_store) main_bucket)
    as (_ & _ & Hnone & _).
  { vm_compute. by eexists. }
  { vm_compute. reflexivity. }
  { vm_compute. reflexivity. }
  split; [|split].
  - rewrite Hobj. vm_compute. reflexivity.
  - rewrite Hpre. vm_compute. reflexivity.
  - apply Hnone. vm_compute. reflexivity.
Defined.

End BackendFacts.

(** ** loaders.py: the byte cache, difficulty tiers, eligible indices, sampling *)
Module LoadersFacts.
Import Py World Backend Loaders Run Scenario PyFacts BackendFacts.

Lemma grows_refl w : grows w w.
Proof. unfold grows. split_and!; done. Qed.

Lemma grows_trans w1 w2 w3 : grows w1 w2 → grows w2 w3 → grows w1 w3.
Proof.
  intros (?&?&?&?&?&?) (?&?&?&?&?&?). split_and!; try (etrans; eauto); eauto.
Qed.

Lemma _ensure_connected_grows w r w' : _ensure_connected w = (r, w') → grows w w'.
Proof.
  intros H. destruct (decide (connected w)) as [Hc|Hn].
  - rewrite (_ensure_connected_noop w Hc) in H. injection H as <- <-. apply grows_refl.
  - apply _ensure_connected_effect in H as ((Hl & _ & _ & _ & _ & Hr & Hf & He) & _ & _).
    unfold grows. rewrite Hl. by split_and!.
Qed.

Lemma _download_file_hit key data w :
  _CACHE (loaders w) !! key = Some data → _download_file key true w = (Ok data, w).
Proof. intros H. unfold _download_file. unfold_M. by rewrite H. Qed.

(** A download that does not find the key in the cache: connect if need
    be, ask the store, keep the bytes when caching is on. *)
Lemma _download_file_miss key use_cache w :
  (use_cache = true → _CACHE (loaders w) !! key = None) →
  _download_file key use_cache w =
    match _ensure_connected w with
    | (Raise e, w1) => (Raise e, w1)
    | (Ok _, w1) =>
        match _BUCKET (backend w1) with
        | None => (Raise (AttributeError "'NoneType' object has no attribute 'Object'"), w1)
        | Some b =>
            match download_fileobj (remote w1) (history w1) b key with
            | Raise e => (Raise e, after_request (EvDownload b key) w1)
            | Ok data =>
                (Ok data,
                 if use_cache
                 then with_loaders (λ g, {| _CACHE := <[key := data]> (_CACHE g);
                                            _META_CACHE := _META_CACHE g |})
                        (after_request (EvDownload b key) w1)
                 else after_request (EvDownload b key) w1)
            end
        end
    end.
Proof.
  intros Hmiss. unfold _download_file, bucket_attr, set_CACHE, after_request. unfold_M.
  assert ((if use_cache then _CACHE (loaders w) !! key else None) = None) as ->.
  { destruct use_cache; [by apply Hmiss|done]. }
  destruct (_ensure_connected w) as [[[]|e] w1]; [|done].
  destruct (_BUCKET (backend w1)) as [b|]; [|done]. wsimpl.
  destruct (download_fileobj _ _ _ _) as [data|e]; [|done].
  by destruct use_cache.
Qed.

Lemma download_file_cases key use_cache w :
  (∃ data, use_cache = true ∧ _CACHE (loaders w) !! key = Some data)
  ∨ (use_cache = true → _CACHE (loaders w) !! key = None).
Proof.
  destruct use_cache; [|by right].
  destruct (_CACHE (loaders w) !! key) as [data|] eqn:H; [left; eauto|by right].
Qed.

Lemma _download_file_grows key use_cache w r w' :
  _download_file key use_cache w = (r, w') →
  grows w w' ∧ _META_CACHE (loaders w') = _META_CACHE (loaders w).
Proof.
  destruct (download_file_cases key use_cache w) as [(data & -> & Hhit)|Hmiss].
  - rewrite (_download_file_hit key data w Hhit). intros [= <- <-].
    split; [apply grows_refl|done].
  - rewrite (_download_file_miss key use_cache w Hmiss).
    destruct (_ensure_connected w) as [[[]|e] w1] eqn:Hc;
      pose proof (_ensure_connected_grows _ _ _ Hc) as Hg;
      apply _ensure_connected_effect in Hc as ((Hl & _) & _).
    2: { intros [= <- <-]. by rewrite Hl. }
    destruct (_BUCKET (backend w1)) as [b|]; [|intros [= <- <-]; by rewrite Hl].
    destruct (download_fileobj _ _ _ _) as [data|e]; intros [= <- <-].
    + destruct use_cache; (split; [eapply grows_trans; [exact Hg|]|]).
      * unfold grows, after_request, connected. wsimpl. split_and!; try done.
        apply insert_subseteq. rewrite Hl. by apply Hmiss.
      * unfold after_request. wsimpl. by rewrite Hl.
      * unfold grows, after_request, connected. wsimpl. by split_and!.
      * unfold after_request. wsimpl. by rewrite Hl.
    + split; [eapply grows_trans; [exact Hg|]|].
      * unfold grows, after_request, connected. wsimpl. by split_and!.
      * unfold after_request. wsimpl. by rewrite Hl.
Qed.

(** A download that returns leaves the bytes in the cache, after at most
    one request to the store. *)
Lemma _download_file_ok key w data w1 :
  _download_file key true w = (Ok data, w1) →
  _CACHE (loaders w1) !! key = Some data
  ∧ (length (downloads w1) ≤ S (length (downloads w)))%nat
  ∧ (_CACHE (loaders w) !! key = None →
       _CACHE (loaders w1) = <[key := data]> (_CACHE (loaders w))
       ∧ ∃ b, downloads w1 = (downloads w ++ [EvDownload b key])%list).
Proof.
  intros Hd. destruct (_CACHE (loaders w) !! key) as [data0|] eqn:Hc.
  - rewrite (_download_file_hit key data0 w Hc) in Hd. injection Hd as <- <-.
    split; [done|]. split; [lia|done].
  - rewrite (_download_file_miss key true w (λ _, Hc)) in Hd.
    destruct (_ensure_connected w) as [[[]|e] w0] eqn:Hens; [|done].
    apply _ensure_connected_effect in Hens as ((Hl & _) & Hp & _).
    destruct (_BUCKET (backend w0)) as [b|]; [|done].
    destruct (download_fileobj _ _ _ _) as [d|e]; [|done].
    injection Hd as <- <-. unfold downloads, after_request. wsimpl.
    rewrite filter_app, (probes_no_download _ _ Hp), Hl.
    rewrite filter_cons_True by done. rewrite filter_nil.
    split; [by rewrite lookup_insert_eq|].
    split; [rewrite length_app; simpl; lia|].
    intros _. split; [done|]. by exists b.
Qed.

Lemma _download_file_again key w data w1 w2 :
  _download_file key true w = (Ok data, w1) →
  grows w1 w2 →
  _download_file key true w2 = (Ok data, w2).
Proof.
  intros Hd (Hsub & _). apply _download_file_ok in Hd as (Hin & _).
  apply _download_file_hit. by eapply lookup_weaken.
Qed.

(** C8.  Two calls of [_download_file] with caching on return the same
    bytes, and together they send at most one download to the store: a
    call that returns leaves the bytes in the cache under the key (after
    one download when the key was not cached, after none when it was), and
    the next call, like every later call in a world whose caches kept
    their entries, returns them and leaves the world as it is. *)
Theorem fetch_bytes_twice key w data w1 :
  _download_file key true w = (Ok data, w1) →
  _download_file key true w1 = (Ok data, w1)
  ∧ (∀ w2, grows w1 w2 → _download_file key true w2 = (Ok data, w2))
  ∧ (length (downloads w1) ≤ S (length (downloads w)))%nat
  ∧ (∀ data0, _CACHE (loaders w) !! key = Some data0 → data = data0 ∧ w1 = w)
  ∧ (_CACHE (loaders w) !! key = None →
       _CACHE (loaders w1) = <[key := data]> (_CACHE (loaders w))
       ∧ ∃ b, downloads w1 = (downloads w ++ [EvDownload b key])%list).
Proof.
  intros Hd. pose proof (_download_file_ok _ _ _ _ Hd) as (Hin & Hlen & Hmiss).
  split; [by apply _download_file_hit|].
  split; [intros w2; by apply (_download_file_again key w data w1)|].
  split; [done|]. split; [|done].
  intros data0 Hc. rewrite (_download_file_hit key data0 w Hc) in Hd.
  by injection Hd as <- <-.
Qed.

Section WithLibraries.
Context `{!Pandas, !Json, !Numpy}.

Lemma elem_of_select_all (idx : Z) (meta dgp_info : gmap Z json_rec) :
  idx ∈ select_indices None meta dgp_info ↔ is_Some (meta !! idx).
Proof. unfold select_indices. by rewrite elem_of_sorted_set, elem_of_dom. Qed.

Lemma elem_of_select_tiers (idx : Z) (tiers : gset string) (meta dgp_info : gmap Z json_rec) :
  idx ∈ select_indices (Some tiers) meta dgp_info ↔
  ∃ rec g grec t,
    meta !! idx = Some rec ∧ rec_dgp rec = Some g
    ∧ dgp_info !! g = Some grec ∧ rec_difficulty_tier grec = Some t ∧ t ∈ tiers.
Proof.
  unfold select_indices. rewrite elem_of_sorted_set, elem_of_dom.
  unfold is_Some. setoid_rewrite map_lookup_filter_Some. cbn [snd].
  unfold dgp_in, tier_in. split.
  - intros (rec & Hrec & Hin). destruct (rec_dgp rec) as [g|] eqn:Hg; [|done].
    apply elem_of_dom in Hin as [grec Hgrec].
    apply map_lookup_filter_Some in Hgrec as [Hgrec Ht]. cbn [snd] in Ht.
    destruct (rec_difficulty_tier grec) as [t|] eqn:Htier; [|done].
    by exists rec, g, grec, t.
  - intros (rec & g & grec & t & Hrec & Hg & Hgrec & Htier & Ht).
    exists rec. split; [done|]. rewrite Hg. apply elem_of_dom. exists grec.
    apply map_lookup_filter_Some. split; [done|]. cbn [snd]. by rewrite Htier.
Qed.

Lemma select_indices_ascending tiers meta dgp_info :
  StronglySorted Z.lt (select_indices tiers meta dgp_info).
Proof. destruct tiers; apply sorted_set_ascending. Qed.

Lemma _indices_for_difficulty_run difficulty msrc dsrc use_cache w meta w1 dgp_info w2 tiers :
  _load_acic22_metadata msrc use_cache w = (Ok meta, w1) →
  _load_dgp_info dsrc use_cache w1 = (Ok dgp_info, w2) →
  _difficulty_to_tiers difficulty = Ok tiers →
  _indices_for_difficulty difficulty msrc dsrc use_cache w
    = (Ok (select_indices tiers meta dgp_info), w2).
Proof.
  intros Hm Hd Ht. unfold _indices_for_difficulty.
  rewrite (bind_ok _ _ _ _ _ Hm), (bind_ok _ _ _ _ _ Hd).
  unfold_M. by rewrite Ht.
Qed.


(** *** The metadata cache *)

Lemma _read_json_source_hit source obj w :
  _META_CACHE (loaders w) !! source = Some obj →
  _read_json_source source true w = (Ok obj, w).
Proof. intros Hhit. unfold _read_json_source. unfold_M. by rewrite Hhit. Qed.

Lemma _read_json_source_effect source use_cache w r w' :
  _read_json_source source use_cache w = (r, w') →
  grows w w'
  ∧ (∀ obj, r = Ok obj → use_cache = true → _META_CACHE (loaders w') !! source = Some obj).
Proof.
  unfold _read_json_source. unfold mbind, M_bind at 1. unfold get at 1.
  destruct (if use_cache then _META_CACHE (loaders w) !! source else None) as [obj|] eqn:Hc.
  - unfold_M. intros [= <- <-]. split; [apply grows_refl|].
    intros obj' [= <-] ->. done.
  - assert (use_cache = true → _META_CACHE (loaders w) !! source = None) as Hmiss.
    { by intros ->. }
    clear Hc. unfold set_META_CACHE. unfold_M.
    destruct (path_exists (files w) source).
    + destruct (read_json_file (files w) source) as [obj|e]; [|intros [= <- <-]].
      2: { split; [apply grows_refl|done]. }
      destruct use_cache; intros [= <- <-].
      * split.
        -- unfold grows, connected. wsimpl. split_and!; try done.
           apply insert_subseteq. by apply Hmiss.
        -- intros obj' [= <-] _. wsimpl. by rewrite lookup_insert_eq.
      * split; [apply grows_refl|done].
    + destruct (_download_file source use_cache w) as [[raw|e] w1] eqn:Hd;
        pose proof (_download_file_grows _ _ _ _ _ Hd) as [Hg Hmeta].
      2: { intros [= <- <-]. done. }
      destruct (decode_and_parse raw) as [obj|e]; [|by intros [= <- <-]].
      destruct use_cache; intros [= <- <-]; [|done].
      split.
      * eapply grows_trans; [exact Hg|].
        unfold grows, connected. wsimpl. split_and!; try done.
        apply insert_subseteq. rewrite Hmeta. by apply Hmiss.
      * intros obj' [= <-] _. wsimpl. by rewrite lookup_insert_eq.
Qed.


Lemma _load_acic22_metadata_effect source use_cache w r w' :
  _load_acic22_metadata source use_cache w = (r, w') → grows w w'.
Proof.
  unfold _load_acic22_metadata. unfold mbind, M_bind.
  destruct (_read_json_source source use_cache w) as [[obj|e] w1] eqn:Hr;
    apply _read_json_source_effect in Hr as [Hg _]; unfold_M; by intros [= <- <-].
Qed.


Lemma _load_dgp_info_effect source use_cache w r w' :
  _load_dgp_info source use_cache w = (r, w') → grows w w'.
Proof.
  unfold _load_dgp_info. unfold mbind, M_bind.
  destruct (_read_json_source source use_cache w) as [[obj|e] w1] eqn:Hr;
    apply _read_json_source_effect in Hr as [Hg _]; unfold_M; by intros [= <- <-].
Qed.


Lemma _indices_for_difficulty_inv difficulty msrc dsrc use_cache w out w2 :
  _indices_for_difficulty difficulty msrc dsrc use_cache w = (Ok out, w2) →
  ∃ meta w1 dgp_info tiers,
    _load_acic22_metadata msrc use_cache w = (Ok meta, w1)
    ∧ _load_dgp_info dsrc use_cache w1 = (Ok dgp_info, w2)
    ∧ _difficulty_to_tiers difficulty = Ok tiers
    ∧ out = select_indices tiers meta dgp_info.
Proof.
  unfold _indices_for_difficulty. intros Hr.
  apply bind_inv_ok in Hr as (meta & w1 & Hm & Hr).
  apply bind_inv_ok in Hr as (dgp_info & w2' & Hd & Hr).
  apply bind_inv_ok in Hr as (tiers & w2'' & Ht & Hr).
  unfold_M. injection Ht as Ht <-. injection Hr as <- <-.
  by exists meta, w1, dgp_info, tiers.
Qed.

Lemma _indices_for_difficulty_effect difficulty msrc dsrc use_cache w r w' :
  _indices_for_difficulty difficulty msrc dsrc use_cache w = (r, w') → grows w w'.
Proof.
  unfold _indices_for_difficulty. unfold mbind, M_bind.
  destruct (_load_acic22_metadata msrc use_cache w) as [[meta|e] w1] eqn:Hm;
    apply _load_acic22_metadata_effect in Hm; [|by intros [= <- <-]].
  destruct (_load_dgp_info dsrc use_cache w1) as [[info|e] w2] eqn:Hd;
    apply _load_dgp_info_effect in Hd; [|intros [= <- <-]; by eapply grows_trans].
  unfold_M. destruct (_difficulty_to_tiers difficulty);
    intros [= <- <-]; by eapply grows_trans.
Qed.


(** *** Loading simulations *)

Lemma load_each_cons meta prefix use_cache idx rest out0 :
  load_each meta prefix use_cache (idx :: rest) out0 =
    (let filename := filename_of meta idx in
     data ← _download_file (prefix +:+ "/" +:+ filename) use_cache;
     df ← lift (_read_file_bytes data filename);
     load_each meta prefix use_cache rest (dict_set idx df out0)).
Proof. reflexivity. Qed.



Lemma load_each_keys meta prefix use_cache idxs out0 w out w' :
  NoDup (dict_keys out0 ++ idxs) →
  load_each meta prefix use_cache idxs out0 w = (Ok out, w') →
  dict_keys out = (dict_keys out0 ++ idxs)%list.
Proof.
  revert out0 w. induction idxs as [|idx rest IH]; intros out0 w Hnd.
  - simpl. unfold_M. intros [= <- <-]. by rewrite app_nil_r.
  - rewrite load_each_cons. cbv zeta. intros Hr.
    apply bind_inv_ok in Hr as (data & w1 & Hd & Hr).
    apply bind_inv_ok in Hr as (df & w1' & Hp & Hr).
    assert (idx ∉ dict_keys out0) as Hfresh.
    { apply NoDup_app in Hnd as (_ & Hdisj & _). intros Hin.
      apply (Hdisj idx Hin). left. }
    apply IH in Hr.
    + rewrite Hr, (dict_set_fresh idx df out0 Hfresh).
      unfold dict_keys. rewrite fmap_app. simpl. by rewrite <- app_assoc.
    + rewrite (dict_set_fresh idx df out0 Hfresh).
      unfold dict_keys. rewrite fmap_app. simpl. by rewrite <- app_assoc.
Qed.

Lemma load_simulations_inv indices prefix use_cache msrc w out w' :
  load_simulations indices prefix use_cache msrc w = (Ok out, w') →
  ∃ w1 meta w2,
    _ensure_connected w = (Ok (), w1)
    ∧ _load_acic22_metadata msrc use_cache w1 = (Ok meta, w2)
    ∧ load_each meta prefix use_cache indices [] w2 = (Ok out, w').
Proof.
  unfold load_simulations. intros Hr.
  apply bind_inv_ok in Hr as ([] & w1 & Hc & Hr).
  apply bind_inv_ok in Hr as (meta & w2 & Hm & Hr).
  by exists w1, meta, w2.
Qed.

Lemma load_simulations_keys indices prefix use_cache msrc w out w' :
  NoDup indices →
  load_simulations indices prefix use_cache msrc w = (Ok out, w') →
  dict_keys out = indices.
Proof.
  intros Hnd Hr. apply load_simulations_inv in Hr as (w1 & meta & w2 & _ & _ & Hr).
  by apply load_each_keys in Hr.
Qed.



Lemma StronglySorted_NoDup_lt (l : list Z) : StronglySorted Z.lt l → NoDup l.
Proof.
  induction 1 as [|x l Hs IH Hall]; [constructor|].
  apply NoDup_cons. split; [|done].
  intros Hin. rewrite Forall_forall in Hall. specialize (Hall x Hin). lia.
Qed.



Lemma load_random_simulations_run n k difficulty prefix seed use_cache msrc dsrc w
    eligible w1 :
  int_value n = Some k → 0 < k →
  _indices_for_difficulty difficulty msrc dsrc use_cache w = (Ok eligible, w1) →
  load_random_simulations n difficulty prefix seed use_cache msrc dsrc w =
    if Z.of_nat (length eligible) <? k
    then (Raise (ValueError (msg_too_many (size_repr n) (length eligible) difficulty)), w1)
    else (rng ← make_rng seed;
          population ← lift (np_array_int eligible);
          sampled ← lift (sample rng population n k);
          load_simulations sampled prefix use_cache msrc) w1.
Proof.
  intros Hk Hn He. unfold load_random_simulations. rewrite Hk.
  destruct (k <=? 0) eqn:Hle; [lia|].
  rewrite (bind_ok _ _ _ _ _ He). by destruct (Z.of_nat (length eligible) <? k).
Qed.




End WithLibraries.

(** C7 (as the code has it).  The label is stripped of surrounding white
    space and then checked against the six labels: a stripped label outside
    them raises [ValueError], [all] yields [None], every other one yields
    the set holding just the stripped label; [None] as argument yields
    [None].  The sets for [easy] and [very_easy] are disjoint. *)
Theorem difficulty_tiers_of_stripped_label :
  _difficulty_to_tiers None = Ok None
  ∧ (∀ label,
       let d := str_strip label in
       (d ∉ VALID_DIFFICULTIES →
          _difficulty_to_tiers (Some label)
            = Raise (ValueError (msg_invalid_difficulty label)))
       ∧ (d = "all" → _difficulty_to_tiers (Some label) = Ok None)
       ∧ (d ∈ VALID_DIFFICULTIES → d ≠ "all" →
          _difficulty_to_tiers (Some label) = Ok (Some {[ d ]})))
  ∧ (∃ easy very_easy : gset string,
       _difficulty_to_tiers (Some "easy") = Ok (Some easy)
       ∧ _difficulty_to_tiers (Some "very_easy") = Ok (Some very_easy)
       ∧ easy ## very_easy)
  ∧ _difficulty_to_tiers (Some "all") = Ok None.
Proof.
  split; [done|]. split; [|split].
  - intros label d. unfold _difficulty_to_tiers. fold d. repeat split.
    + intros Hd. by rewrite decide_False.
    + intros Hd. rewrite Hd. reflexivity.
    + intros Hd Hall. by rewrite decide_True, decide_False.
  - exists {[ "easy" ]}, {[ "very_easy" ]}. repeat split. set_solver.
  - reflexivity.
Qed.

(** The theorem at work: a label with white space around it. *)
Lemma difficulty_tiers_of_stripped_label_witness :
  _difficulty_to_tiers (Some " hard ") = Ok (Some {[ "hard" ]})
  ∧ _difficulty_to_tiers (Some "Easy")
    = Raise (ValueError (msg_invalid_difficulty "Easy")).
Proof.
  destruct difficulty_tiers_of_stripped_label as (_ & Hlabel & _).
  split.
  - destruct (Hlabel " hard ") as (_ & _ & Hvalid).
    apply Hvalid; vm_compute; [reflexivity|discriminate].
  - destruct (Hlabel "Easy") as (Hbad & _).
    apply Hbad. vm_compute. discriminate.
Defined.

(** C7 as the claim has it fails: a label that is not one of the six is
    accepted when stripping makes it one. *)
Lemma difficulty_label_not_strict :
  (" easy" ∉ VALID_DIFFICULTIES)
  ∧ _difficulty_to_tiers (Some " easy") = Ok (Some {[ "easy" ]})
  ∧ ¬ (∀ label, label ∉ VALID_DIFFICULTIES →
         ∃ msg, _difficulty_to_tiers (Some label) = Raise (ValueError msg)).
Proof.
  assert (" easy" ∉ VALID_DIFFICULTIES) as Hout by (vm_compute; discriminate).
  split; [done|]. split; [reflexivity|].
  intros Hstrict. destruct (Hstrict " easy" Hout) as [msg Hmsg]. discriminate Hmsg.
Qed.

(** White space is what [str.isspace] says it is: a no-break space before
    the label and an em space behind it are stripped like blanks. *)
Example difficulty_label_unicode_space :
  _difficulty_to_tiers (Some (of_bytes [194; 160] +:+ "easy" +:+ of_bytes [226; 128; 131]))
  = Ok (Some {[ "easy" ]}).
Proof. vm_compute. reflexivity. Qed.

Section WithJson.
Context `{!Json}.

(** C6.  When both metadata documents load, [_indices_for_difficulty]
    returns a strictly ascending list: all indices of the simulation index
    when the difficulty resolves to no filter, and otherwise exactly the
    indices whose record names a generator whose record carries a tier of
    the resolved set.  On the index 1 with generator 10, 2 with generator
    20 and the tiers 10 easy, 20 hard, [easy] gives [1] and [all] gives
    [1; 2]. *)
Theorem eligible_indices_two_hop_join difficulty msrc dsrc use_cache w
    meta w1 dgp_info w2 tiers :
  _load_acic22_metadata msrc use_cache w = (Ok meta, w1) →
  _load_dgp_info dsrc use_cache w1 = (Ok dgp_info, w2) →
  _difficulty_to_tiers difficulty = Ok tiers →
  ∃ out,
    _indices_for_difficulty difficulty msrc dsrc use_cache w = (Ok out, w2)
    ∧ StronglySorted Z.lt out
    ∧ (tiers = None → ∀ idx, idx ∈ out ↔ is_Some (meta !! idx))
    ∧ (∀ ts, tiers = Some ts →
         ∀ idx, idx ∈ out ↔
           ∃ rec g grec t,
             meta !! idx = Some rec ∧ rec_dgp rec = Some g
             ∧ dgp_info !! g = Some grec ∧ rec_difficulty_tier grec = Some t ∧ t ∈ ts)
    ∧ (meta = metadata_index → dgp_info = dgp_index →
         (difficulty = Some "easy" → out = [1])
         ∧ (difficulty = Some "all" → out = [1; 2])).
Proof.
  intros Hm Hd Ht. exists (select_indices tiers meta dgp_info).
  split; [by apply _indices_for_difficulty_run with (w1 := w1)|].
  split; [apply select_indices_ascending|]. split; [|split].
  - intros -> idx. apply elem_of_select_all.
  - intros ts -> idx. apply elem_of_select_tiers.
  - intros -> ->. split; intros ->; injection Ht as <-; by vm_compute.
Qed.

End WithJson.

(** The theorem at work on the small deployment. *)
Lemma eligible_indices_two_hop_join_witness :
  (@_indices_for_difficulty plain_json (Some "easy")
     DEFAULT_ACIC22_METADATA DEFAULT_ACIC22_DGP_INFO true fresh).1 = Ok [1].
Proof.
  destruct (@eligible_indices_two_hop_join plain_json (Some "easy")
              DEFAULT_ACIC22_METADATA DEFAULT_ACIC22_DGP_INFO true fresh
              metadata_index
              (@_load_acic22_metadata plain_json DEFAULT_ACIC22_METADATA true fresh).2
              dgp_index
              (@_indices_for_difficulty plain_json (Some "easy")
                 DEFAULT_ACIC22_METADATA DEFAULT_ACIC22_DGP_INFO true fresh).2
              (Some {[ "easy" ]}))
    as (out & Hrun & _ & _ & _ & Hscenario).
  - vm_compute. reflexivity.
  - vm_compute. reflexivity.
  - vm_compute. reflexivity.
  - rewrite Hrun. cbn [fst]. f_equal. by apply Hscenario.
Defined.

(** The theorem at work: one call fetches the truth file of index 5, the
    next one finds it in the cache. *)
Lemma fetch_bytes_twice_witness :
  let first := _download_file "acic22/truth/truth_0005.parquet" true fresh in
  first.1 = Ok [Byte.x05]
  ∧ _download_file "acic22/truth/truth_0005.parquet" true first.2 = (Ok [Byte.x05], first.2)
  ∧ length (downloads first.2) = 1%nat.
Proof.
  intros first.
  destruct (fetch_bytes_twice "acic22/truth/truth_0005.parquet" fresh [Byte.x05] first.2)
    as (Hagain & _ & _ & _ & Hmiss).
  - vm_compute. reflexivity.
  - split; [vm_compute; reflexivity|]. split; [exact Hagain|].
    destruct Hmiss as (_ & b & ->); [vm_compute; reflexivity|].
    rewrite length_app. reflexivity.
Defined.



End LoadersFacts.

(** ** truth_matcher.py: bundles, missing files, mismatches *)
Module TruthMatcherFacts.
Import Py World Backend Loaders TruthMatcher Run Scenario PyFacts BackendFacts LoadersFacts.

Lemma convert_all_ints (l : list Z) (out : gset Z) :
  convert_all (IntLike <$> l) out = Ok (set_of l ∪ out).
Proof.
  revert out. induction l as [|z l IH]; intros out; cbn [fmap list_fmap convert_all].
  - f_equal. unfold set_of. set_solver.
  - rewrite IH. f_equal. unfold set_of. set_solver.
Qed.

Lemma normalize_raw_ints (l : list Z) :
  normalize_raw (IntLike <$> l) = Ok (sorted_set (set_of l)).
Proof.
  unfold normalize_raw. rewrite convert_all_ints. do 2 f_equal. set_solver.
Qed.

Lemma normalize_raw_sorted raw idxs :
  normalize_raw raw = Ok idxs → ∃ s, idxs = sorted_set s.
Proof.
  unfold normalize_raw. destruct (convert_all raw ∅) as [out|e]; [|done].
  intros [= <-]. by exists out.
Qed.

(** The result of [_normalize_indices] is ascending and free of repeats. *)
Lemma _normalize_indices_sorted indices idxs :
  _normalize_indices indices = Ok idxs → ∃ s, idxs = sorted_set s.
Proof.
  destruct indices; simpl; try by apply normalize_raw_sorted.
  - intros [= <-]. by exists ∅.
  - done.
Qed.

(** Normalizing a normalized list again changes nothing. *)
Lemma normalize_again indices idxs :
  _normalize_indices indices = Ok idxs →
  _normalize_indices (ArgIterable (IntLike <$> idxs)) = Ok idxs.
Proof.
  intros Hn. apply _normalize_indices_sorted in Hn as [s ->].
  cbn [_normalize_indices]. rewrite normalize_raw_ints. by rewrite set_of_sorted_set.
Qed.

Section WithLibraries.
Context `{!Pandas}.

(** *** One round of the loop *)

Lemma load_one_loaded prefix use_cache on_missing idx st w df w1 :
  load_file (_truth_key idx prefix) use_cache w = (Ok df, w1) →
  load_one prefix use_cache on_missing idx st w
    = (Ok {| l_truth := dict_set idx df (l_truth st);
             l_missing_files := l_missing_files st;
             l_warnings_out := l_warnings_out st |}, w1).
Proof. intros Hl. unfold load_one. unfold_M. by rewrite Hl. Qed.

Lemma load_one_failed prefix use_cache on_missing idx st w e w1 :
  load_file (_truth_key idx prefix) use_cache w = (Raise e, w1) →
  load_one prefix use_cache on_missing idx st w =
    if taken_as_missing e
    then note_missing idx (_truth_key idx prefix) on_missing st w1
    else (Raise e, w1).
Proof.
  intros Hl. unfold load_one. unfold try_except, mbind, M_bind. rewrite Hl.
  destruct e; try done; cbn [taken_as_missing];
    by destruct (_is_missing_s3_object_error _ _).
Qed.

Lemma note_missing_warn idx key st w :
  note_missing idx key "warn" st w
    = (Ok (noted_missing idx (l_warnings_out st ++ [msg_missing_file idx key]) st),
       with_warned (warned w ++ [msg_missing_file idx key]) w).
Proof. reflexivity. Qed.

Lemma note_missing_error idx key st w :
  note_missing idx key "error" st w
    = (Raise (FileNotFoundError (msg_missing_file idx key)), w).
Proof. reflexivity. Qed.

Lemma note_missing_ignore idx key st w :
  note_missing idx key "ignore" st w = (Ok (noted_missing idx (l_warnings_out st) st), w).
Proof. reflexivity. Qed.

Lemma note_missing_invalid idx key on_missing st w :
  on_missing ∉ VALID_ON_MISSING →
  note_missing idx key on_missing st w = (Raise (ValueError msg_bad_on_missing), w).
Proof.
  intros Hbad. unfold note_missing, _handle_missing_file. unfold_M.
  by rewrite decide_False.
Qed.

(** What a round that returns has done to the locals. *)
Lemma load_one_inv prefix use_cache on_missing idx st w st' w' :
  load_one prefix use_cache on_missing idx st w = (Ok st', w') →
  (∃ df, l_truth st' = dict_set idx df (l_truth st)
         ∧ l_missing_files st' = l_missing_files st
         ∧ l_warnings_out st' = l_warnings_out st)
  ∨ (l_truth st' = l_truth st
     ∧ l_missing_files st' = (l_missing_files st ++ [idx])%list
     ∧ ∃ more, l_warnings_out st' = (l_warnings_out st ++ more)%list).
Proof.
  destruct (load_file (_truth_key idx prefix) use_cache w) as [[df|e] w1] eqn:Hl.
  - rewrite (load_one_loaded _ _ _ _ _ _ _ _ Hl). intros [= <- <-]. left. by exists df.
  - rewrite (load_one_failed _ _ _ _ _ _ _ _ Hl).
    destruct (taken_as_missing e); [|done].
    unfold note_missing, _handle_missing_file. unfold_M.
    repeat case_decide; intros [= <- <-]; right; cbn.
    + split_and!; try done. exists []. by rewrite app_nil_r.
    + split_and!; try done. by eexists.
Qed.

Lemma load_all_app prefix use_cache on_missing pre post st w :
  load_all prefix use_cache on_missing (pre ++ post) st w =
    (load_all prefix use_cache on_missing pre st
       ≫= load_all prefix use_cache on_missing post) w.
Proof.
  revert st w. induction pre as [|idx pre IH]; intros st w; [done|].
  cbn [app load_all]. unfold mbind, M_bind.
  destruct (load_one prefix use_cache on_missing idx st w) as [[st1|e] w1]; [|done].
  apply IH.
Qed.

Lemma NoDup_dict_set {V : Type} (k : Z) (v : V) (d : list (Z * V)) :
  NoDup (dict_keys d) → NoDup (dict_keys (dict_set k v d)).
Proof.
  unfold dict_keys. induction d as [|[k' v'] d IH]; cbn [dict_set fmap list_fmap fst].
  - intros _. apply NoDup_singleton.
  - rewrite NoDup_cons. intros [Hk' Hnd].
    destruct (decide (k = k')) as [->|Hne]; cbn [fmap list_fmap fst].
    + by apply NoDup_cons.
    + apply NoDup_cons. split; [|by apply IH].
      intros Hin. apply (elem_of_dict_set k' k v d) in Hin as [->|Hin]; done.
Qed.

(** What the rounds that return have done to the locals: the keys of
    [truth] are among the indices gone through, they stay free of repeats,
    and the two lists only grow. *)
Lemma load_all_inv prefix use_cache on_missing idxs st w st' w' :
  load_all prefix use_cache on_missing idxs st w = (Ok st', w') →
  set_of (dict_keys (l_truth st')) ⊆ set_of (dict_keys (l_truth st)) ∪ set_of idxs
  ∧ (NoDup (dict_keys (l_truth st)) → NoDup (dict_keys (l_truth st')))
  ∧ (∃ more, l_missing_files st' = (l_missing_files st ++ more)%list)
  ∧ (∃ more, l_warnings_out st' = (l_warnings_out st ++ more)%list).
Proof.
  revert st w. induction idxs as [|idx rest IH]; intros st w.
  - cbn [load_all]. unfold_M. intros [= <- <-].
    split; [set_solver|]. split; [done|]. split; exists []; by rewrite app_nil_r.
  - cbn [load_all]. intros Hr. apply bind_inv_ok in Hr as (st1 & w1 & Hone & Hr).
    apply IH in Hr as (Hkeys & Hnd & (m1 & Hm) & (m2 & Hw)).
    apply load_one_inv in Hone
      as [(df & Ht & Hmf & Hwo)|(Ht & Hmf & (more & Hwo))];
      rewrite Ht in *; rewrite Hmf in *; rewrite Hwo in *.
    + rewrite set_of_dict_set in Hkeys.
      split; [unfold set_of in *; set_solver|].
      split; [intros ?; by apply Hnd, NoDup_dict_set|].
      split; by eexists.
    + split; [unfold set_of in *; set_solver|]. split; [done|].
      split; [exists ([idx] ++ m1)%list|exists (more ++ m2)%list];
        by rewrite app_assoc.
Qed.

Lemma load_truths_run indices prefix use_cache on_missing w idxs :
  (∀ keys, indices ≠ ArgMapping keys) →
  _normalize_indices indices = Ok idxs →
  load_truths indices prefix use_cache on_missing w =
    match load_all prefix use_cache on_missing idxs nothing_loaded w with
    | (Ok st, w') =>
        (Ok {| simulation_indices := idxs;
               truth_indices_requested := idxs;
               truth := l_truth st;
               missing_truth_files := merge_sort Z.le (l_missing_files st);
               missing_for_simulations :=
                 sorted_set (set_of idxs ∖ set_of (merge_sort Z.le (dict_keys (l_truth st))));
               extra_truth := [];
               warnings := l_warnings_out st |}, w')
    | (Raise e, w') => (Raise e, w')
    end.
Proof.
  intros Hnm Hn. unfold load_truths, nothing_loaded.
  destruct indices; try (by destruct (Hnm keys)); unfold_M; rewrite Hn;
    by destruct (load_all _ _ _ _ _ _) as [[st|e] w'].
Qed.

Lemma load_truths_inv indices prefix use_cache on_missing w b w' :
  load_truths indices prefix use_cache on_missing w = (Ok b, w') →
  ∃ idxs st,
    _normalize_indices indices = Ok idxs
    ∧ load_all prefix use_cache on_missing idxs nothing_loaded w = (Ok st, w')
    ∧ b = {| simulation_indices := idxs;
             truth_indices_requested := idxs;
             truth := l_truth st;
             missing_truth_files := merge_sort Z.le (l_missing_files st);
             missing_for_simulations :=
               sorted_set (set_of idxs ∖ set_of (merge_sort Z.le (dict_keys (l_truth st))));
             extra_truth := [];
             warnings := l_warnings_out st |}.
Proof.
  intros Hr.
  assert (∀ keys, indices ≠ ArgMapping keys) as Hnm.
  { intros keys ->. discriminate Hr. }
  destruct (_normalize_indices indices) as [idxs|e] eqn:Hn.
  - rewrite (load_truths_run _ _ _ _ _ _ Hnm Hn) in Hr.
    destruct (load_all _ _ _ _ _ _) as [[st|e] w1] eqn:Hall; [|done].
    injection Hr as <- <-. by exists idxs, st.
  - unfold load_truths in Hr. destruct indices; unfold_M; try rewrite Hn in Hr; done.
Qed.

(** The keys loaded by [load_truths] are free of repeats and among the
    indices asked for. *)
Lemma load_truths_keys indices prefix use_cache on_missing w b w' :
  load_truths indices prefix use_cache on_missing w = (Ok b, w') →
  NoDup (dict_keys (truth b))
  ∧ set_of (dict_keys (truth b)) ⊆ set_of (truth_indices_requested b)
  ∧ simulation_indices b = truth_indices_requested b
  ∧ _normalize_indices indices = Ok (truth_indices_requested b).
Proof.
  intros Hr. apply load_truths_inv in Hr as (idxs & st & Hn & Hall & ->).
  apply load_all_inv in Hall as (Hkeys & Hnd & _). cbn.
  split; [apply Hnd; constructor|]. split; [|done].
  unfold set_of in *. cbn in Hkeys. set_solver.
Qed.

Lemma full_match_iff (b : TruthBundle) :
  is_full_match b = true ↔ missing_for_simulations b = [] ∧ extra_truth b = [].
Proof.
  unfold is_full_match. rewrite andb_true_iff, !Nat.eqb_eq.
  by rewrite !length_zero_iff_nil.
Qed.

Lemma loaded_is_sorted_keys (b : TruthBundle) :
  NoDup (dict_keys (truth b)) →
  truth_indices_loaded b = sorted_set (set_of (dict_keys (truth b))).
Proof.
  intros Hnd. unfold truth_indices_loaded.
  apply (Sorted_unique Z.le); [apply (Sorted_merge_sort Z.le)|apply sorted_set_Sorted|].
  rewrite merge_sort_Permutation, sorted_set_perm. unfold set_of.
  by rewrite elements_list_to_set.
Qed.

Lemma bundle_invariant_intro (b : TruthBundle) :
  NoDup (dict_keys (truth b)) →
  set_of (dict_keys (truth b)) ⊆ set_of (truth_indices_requested b) →
  missing_for_simulations b
    = sorted_set (set_of (simulation_indices b) ∖ set_of (dict_keys (truth b))) →
  extra_truth b
    = sorted_set (set_of (dict_keys (truth b)) ∖ set_of (simulation_indices b)) →
  bundle_invariant b.
Proof.
  intros Hnd Hsub Hmiss Hextra. unfold bundle_invariant.
  split; [done|]. split; [done|]. split; [apply full_match_iff|].
  split; [by apply loaded_is_sorted_keys|].
  intros x. rewrite (loaded_is_sorted_keys b Hnd), elem_of_sorted_set.
  intros Hx. apply Hsub in Hx. unfold set_of in Hx. by apply elem_of_list_to_set in Hx.
Qed.

(** *** The mismatch policy *)

Lemma mismatch_found_iff sim (lb : TruthBundle) :
  mismatch_found sim lb = true ↔ set_of (truth_indices_loaded lb) ≠ set_of sim.
Proof.
  unfold mismatch_found. rewrite orb_true_iff, !negb_true_iff, !bool_decide_eq_false.
  rewrite !sorted_set_nil. split.
  - intros [Hd|Hd] Heq; apply Hd; rewrite Heq; set_solver.
  - intros Hne.
    destruct (decide (set_of sim ∖ set_of (truth_indices_loaded lb) = ∅)) as [H1|H1];
      [|by left].
    right. intros H2. apply Hne. apply set_eq. intros x.
    assert (x ∉ set_of sim ∖ set_of (truth_indices_loaded lb)) as Hx1
      by (rewrite H1; set_solver).
    assert (x ∉ set_of (truth_indices_loaded lb) ∖ set_of sim) as Hx2
      by (rewrite H2; set_solver).
    rewrite !elem_of_difference in Hx1, Hx2.
    destruct (decide (x ∈ set_of sim)), (decide (x ∈ set_of (truth_indices_loaded lb)));
      tauto.
Qed.

Lemma _handle_mismatch_ignore msg prompt ws w :
  _handle_mismatch msg "ignore" prompt ws w = (Ok ws, w).
Proof. reflexivity. Qed.

Lemma _handle_mismatch_error msg prompt ws w :
  _handle_mismatch msg "error" prompt ws w = (Raise (ValueError msg), w).
Proof. reflexivity. Qed.

Lemma _handle_mismatch_invalid msg on_mismatch prompt ws w :
  on_mismatch ∉ VALID_ON_MISMATCH →
  _handle_mismatch msg on_mismatch prompt ws w = (Raise (ValueError msg_bad_on_mismatch), w).
Proof. intros Hbad. unfold _handle_mismatch. by rewrite decide_False. Qed.

Lemma _handle_mismatch_warn_quiet msg ws w :
  _handle_mismatch msg "warn" false ws w
    = (Ok (ws ++ [msg])%list, with_warned (warned w ++ [msg]) w).
Proof. reflexivity. Qed.

(** Under [warn] the diagnostic is emitted and recorded before anything
    else happens, whatever the prompt does afterwards. *)
Lemma _handle_mismatch_warn msg prompt ws w r w' :
  _handle_mismatch msg "warn" prompt ws w = (r, w') →
  (∃ more, warned w' = (warned w ++ msg :: more)%list)
  ∧ (∀ ws', r = Ok ws' → ∃ more, ws' = (ws ++ msg :: more)%list).
Proof.
  unfold _handle_mismatch.
  rewrite decide_True by (vm_compute; reflexivity).
  rewrite decide_False by discriminate. rewrite decide_False by discriminate.
  unfold _can_prompt, input. unfold_M. wsimpl.
  destruct prompt; cbv beta; wsimpl.
  - destruct (stdin_isatty w); cbv beta; wsimpl.
    + destruct (stdin w) as [|line rest]; cbv beta; wsimpl.
      * intros [= <- <-]. wsimpl. split; [by exists []|done].
      * case_decide; intros [= <- <-]; wsimpl; (split; [by exists []|]); [|done].
        intros ws' [= <-]. by exists [].
    + intros [= <- <-]. wsimpl. rewrite <- !app_assoc. cbn [app].
      split; [by eexists|]. intros ws' [= <-]. by eexists.
  - intros [= <- <-]. wsimpl. split; [by exists []|]. intros ws' [= <-]. by exists [].
Qed.

Lemma truth_for_simulations_run keys truth_indices prefix use_cache on_missing
    on_mismatch prompt w sim req lb w1 :
  _normalize_indices (ArgIterable keys) = Ok sim →
  (if is_None truth_indices then Ok sim else _normalize_indices truth_indices) = Ok req →
  load_truths (ArgIterable (IntLike <$> req)) prefix use_cache on_missing w = (Ok lb, w1) →
  truth_for_simulations (SimsMapping keys) truth_indices prefix use_cache
      on_missing on_mismatch prompt w =
    if negb (is_None truth_indices) && mismatch_found sim lb
    then match _handle_mismatch (mismatch_message sim lb) on_mismatch prompt
                 (warnings lb) w1 with
         | (Ok ws, w2) => (Ok (matched_bundle sim req lb ws), w2)
         | (Raise e, w2) => (Raise e, w2)
         end
    else (Ok (matched_bundle sim req lb (warnings lb)), w1).
Proof.
  intros Hsim Hreq Hload. unfold truth_for_simulations.
  unfold mbind, M_bind at 1. unfold lift at 1. rewrite Hsim.
  unfold M_bind at 1.
  assert ((if is_None truth_indices
           then mret sim else lift (_normalize_indices truth_indices)) w = (Ok req, w))
    as ->.
  { destruct (is_None truth_indices); unfold_M; by rewrite Hreq. }
  unfold M_bind at 1. rewrite Hload.
  unfold mismatch_found, mismatch_message, matched_bundle. unfold M_bind, mret, M_ret.
  by destruct (negb (is_None truth_indices) && _).
Qed.

Lemma truth_for_simulations_inv simulations truth_indices prefix use_cache on_missing
    on_mismatch prompt w b w' :
  truth_for_simulations simulations truth_indices prefix use_cache
    on_missing on_mismatch prompt w = (Ok b, w') →
  ∃ keys sim req lb w1 ws,
    simulations = SimsMapping keys
    ∧ _normalize_indices (ArgIterable keys) = Ok sim
    ∧ (if is_None truth_indices then Ok sim else _normalize_indices truth_indices) = Ok req
    ∧ load_truths (ArgIterable (IntLike <$> req)) prefix use_cache on_missing w = (Ok lb, w1)
    ∧ b = matched_bundle sim req lb ws.
Proof.
  destruct simulations as [keys|]; [|done]. intros Hr.
  destruct (_normalize_indices (ArgIterable keys)) as [sim|e] eqn:Hsim.
  2: { unfold truth_for_simulations in Hr. unfold mbind, M_bind, lift in Hr.
       by rewrite Hsim in Hr. }
  destruct (if is_None truth_indices then Ok sim else _normalize_indices truth_indices)
    as [req|e] eqn:Hreq.
  2: { unfold truth_for_simulations in Hr. unfold mbind, M_bind at 1 in Hr.
       unfold lift at 1 in Hr. rewrite Hsim in Hr. unfold M_bind at 1 in Hr.
       destruct (is_None truth_indices); [done|]. unfold lift at 1 in Hr.
       by rewrite Hreq in Hr. }
  destruct (load_truths (ArgIterable (IntLike <$> req)) prefix use_cache on_missing w)
    as [[lb|e] w1] eqn:Hload.
  2: { unfold truth_for_simulations in Hr. unfold mbind, M_bind at 1 in Hr.
       unfold lift at 1 in Hr. rewrite Hsim in Hr. unfold M_bind at 1 in Hr.
       assert ((if is_None truth_indices
                then mret sim else lift (_normalize_indices truth_indices)) w
               = (Ok req, w)) as Hq.
       { destruct (is_None truth_indices); unfold_M; by rewrite Hreq. }
       rewrite Hq in Hr. unfold M_bind at 1 in Hr. by rewrite Hload in Hr. }
  rewrite (truth_for_simulations_run _ _ _ _ _ on_mismatch prompt _ _ _ _ _ Hsim Hreq Hload)
    in Hr.
  destruct (negb (is_None truth_indices) && mismatch_found sim lb).
  - destruct (_handle_mismatch _ _ _ _ _) as [[ws|e] w2]; [|done].
    injection Hr as <- <-. by exists keys, sim, req, lb, w1, ws.
  - injection Hr as <- <-. by exists keys, sim, req, lb, w1, (warnings lb).
Qed.

Lemma append_assoc (s1 s2 s3 : string) : (s1 +:+ s2) +:+ s3 = s1 +:+ (s2 +:+ s3).
Proof.
  induction s1 as [|a s1 IH]; [done|].
  change (String a ((s1 +:+ s2) +:+ s3) = String a (s1 +:+ s2 +:+ s3)).
  by rewrite IH.
Qed.

(** The head of the diagnostic: both index lists, one per line. *)
Lemma _format_mismatch_message_head sim loaded missing extra files :
  ∃ rest,
    _format_mismatch_message sim loaded missing extra files =
      "Truth/Simulation mismatch detected." +:+ newline
        +:+ "- Simulation indices: " +:+ repr_int_list sim +:+ newline
        +:+ "- Truth indices loaded: " +:+ repr_int_list loaded +:+ newline +:+ rest.
Proof.
  unfold _format_mismatch_message. cbv zeta.
  set (tl := ((if bool_decide (missing = []) then [] else _) ++ _)%list).
  assert (tl ≠ []) as Hne.
  { unfold tl. intros Hnil. repeat (apply app_eq_nil in Hnil as [_ Hnil]). done. }
  destruct tl as [|x tl']; [done|]. exists (join_with newline (x :: tl')).
  cbn [app join_with]. rewrite !append_assoc. reflexivity.
Qed.

(** *** The three statements about bundles *)

(** C1.  Every bundle returned by [load_truths] or by
    [truth_for_simulations] satisfies: the missing indices are the
    simulation indices minus the keys of [truth], in ascending order; the
    extra indices are the keys of [truth] minus the simulation indices;
    the bundle is a full match exactly when both lists are empty; and the
    loaded indices, which are the sorted keys of [truth], are all among
    the requested ones. *)
Theorem truth_bundle_invariants :
  (∀ indices prefix use_cache on_missing w b w',
     load_truths indices prefix use_cache on_missing w = (Ok b, w') →
     bundle_invariant b)
  ∧ (∀ simulations truth_indices prefix use_cache on_missing on_mismatch prompt w b w',
       truth_for_simulations simulations truth_indices prefix use_cache
         on_missing on_mismatch prompt w = (Ok b, w') →
       bundle_invariant b)
  ∧ (∀ b : TruthBundle,
       is_full_match b = true ↔ missing_for_simulations b = [] ∧ extra_truth b = []).
Proof.
  split; [|split; [|apply full_match_iff]].
  - intros indices prefix use_cache on_missing w b w' Hr.
    pose proof (load_truths_keys _ _ _ _ _ _ _ Hr) as (Hnd & Hsub & Hsim & _).
    apply load_truths_inv in Hr as (idxs & st & _ & _ & ->). cbn in *.
    apply bundle_invariant_intro; cbn; try done.
    + by rewrite set_of_merge_sort.
    + symmetry. apply sorted_set_nil. set_solver.
  - intros simulations truth_indices prefix use_cache on_missing on_mismatch prompt
      w b w' Hr.
    apply truth_for_simulations_inv in Hr
      as (keys & sim & req & lb & w1 & ws & -> & Hsim & Hreq & Hload & ->).
    pose proof (load_truths_keys _ _ _ _ _ _ _ Hload) as (Hnd & Hsub & _ & Hn).
    cbn [_normalize_indices] in Hn. rewrite normalize_raw_ints in Hn.
    injection Hn as Hn. rewrite <- Hn, set_of_sorted_set in Hsub.
    apply bundle_invariant_intro; cbn; try done.
    + unfold truth_indices_loaded. by rewrite set_of_merge_sort.
    + unfold truth_indices_loaded. by rewrite set_of_merge_sort.
Qed.

(** C2 (as the code has it).  When [load_file] fails in a round of the
    loop of [load_truths], the failure counts as a missing truth file
    exactly when it is a client error whose code, stripped, is one of
    [404], [NoSuchKey], [NotFound] or whose text contains [Not Found], or
    when it is a [FileNotFoundError].  Such a failure is put under the
    policy: [warn] notes the index, records the message and emits it,
    [error] raises [FileNotFoundError] on the spot, [ignore] notes the
    index and says nothing.  Every other failure leaves the round, and
    with it [load_truths], as it is, whatever the policy. *)
Theorem missing_file_policy prefix use_cache on_missing idx st w e w1 :
  load_file (_truth_key idx prefix) use_cache w = (Raise e, w1) →
  let key := _truth_key idx prefix in
  let msg := msg_missing_file idx key in
  let round := load_one prefix use_cache on_missing idx st w in
  (taken_as_missing e = true ↔
     (∃ code text, e = ClientError code text
        ∧ (str_strip code ∈ NOT_FOUND_CODES ∨ str_contains "Not Found" text = true))
     ∨ (∃ m, e = FileNotFoundError m))
  ∧ (taken_as_missing e = true →
       (on_missing = "warn" →
          round = (Ok (noted_missing idx (l_warnings_out st ++ [msg]) st),
                   with_warned (warned w1 ++ [msg]) w1))
       ∧ (on_missing = "error" → round = (Raise (FileNotFoundError msg), w1))
       ∧ (on_missing = "ignore" →
          round = (Ok (noted_missing idx (l_warnings_out st) st), w1)))
  ∧ (taken_as_missing e = false → round = (Raise e, w1))
  ∧ (∀ indices pre post w0,
       (∀ keys, indices ≠ ArgMapping keys) →
       _normalize_indices indices = Ok (pre ++ idx :: post)%list →
       load_all prefix use_cache on_missing pre nothing_loaded w0 = (Ok st, w) →
       let call := load_truths indices prefix use_cache on_missing w0 in
       (taken_as_missing e = false → call = (Raise e, w1))
       ∧ (taken_as_missing e = true → on_missing = "error" →
          call = (Raise (FileNotFoundError msg), w1))
       ∧ (taken_as_missing e = true → on_missing = "warn" →
          ∀ b w', call = (Ok b, w') →
            idx ∈ missing_truth_files b ∧ msg ∈ warnings b
            ∧ idx ∉ dict_keys (truth b))
       ∧ (taken_as_missing e = true → on_missing = "ignore" →
          ∀ b w', call = (Ok b, w') →
            idx ∈ missing_truth_files b ∧ idx ∉ dict_keys (truth b))).
Proof.
  intros Hl key msg round.
  pose proof (load_one_failed prefix use_cache on_missing idx st w e w1 Hl) as Hround.
  fold round key in Hround.
  split; [|split; [|split; [|]]].
  - destruct e; cbn [taken_as_missing]; try (split; [done|]; intros [(?&?&?&?)|(?&?)]; done).
    + split; [intros _; right; by eexists|done].
    + unfold _is_missing_s3_object_error. rewrite orb_true_iff, bool_decide_eq_true.
      split.
      * intros Hm. left. by exists code, text.
      * intros [(c & t & [= -> ->] & Hm)|(m & ?)]; done.
  - intros Hm. rewrite Hm in Hround. rewrite Hround.
    split; [|split]; intros ->; reflexivity.
  - intros Hm. by rewrite Hm in Hround.
  - intros indices pre post w0 Hnm Hn Hpre call.
    assert (call =
            match (match round with
                   | (Ok st1, w2) => load_all prefix use_cache on_missing post st1 w2
                   | (Raise e', w2) => (Raise e', w2)
                   end) with
            | (Ok st', w') =>
                (Ok {| simulation_indices := (pre ++ idx :: post)%list;
                       truth_indices_requested := (pre ++ idx :: post)%list;
                       truth := l_truth st';
                       missing_truth_files := merge_sort Z.le (l_missing_files st');
                       missing_for_simulations :=
                         sorted_set (set_of (pre ++ idx :: post)
                                       ∖ set_of (merge_sort Z.le (dict_keys (l_truth st'))));
                       extra_truth := [];
                       warnings := l_warnings_out st' |}, w')
            | (Raise e', w') => (Raise e', w')
            end) as Hcall.
    { unfold call. rewrite (load_truths_run _ _ _ _ _ _ Hnm Hn).
      rewrite load_all_app. rewrite (bind_ok _ _ _ _ _ Hpre). reflexivity. }
    assert (NoDup (pre ++ idx :: post)) as Hnd.
    { apply _normalize_indices_sorted in Hn as [s ->]. apply sorted_set_NoDup. }
    assert ((idx ∉ pre) ∧ (idx ∉ post)) as [Hnpre Hnpost].
    { apply NoDup_app in Hnd as (_ & Hdisj & Hnd2). apply NoDup_cons in Hnd2 as [? _].
      split; [|done]. intros Hin. apply (Hdisj idx Hin). left. }
    assert (idx ∉ dict_keys (l_truth st)) as Hnst.
    { apply load_all_inv in Hpre as (Hkeys & _). cbn in Hkeys.
      intros Hin. assert (idx ∈ set_of (dict_keys (l_truth st))) as Hin'
        by (unfold set_of; by apply elem_of_list_to_set).
      apply Hkeys in Hin'. unfold set_of in Hin'. set_solver. }
    split; [|split; [|split]].
    + intros Hm. rewrite Hcall, Hround, Hm. done.
    + intros Hm ->. rewrite Hcall, Hround, Hm. done.
    + intros Hm -> b w' Hb. rewrite Hcall in Hb.
      rewrite Hround, Hm, note_missing_warn in Hb.
      destruct (load_all _ _ _ post _ _) as [[st'|e'] w2] eqn:Hpost; [|done].
      injection Hb as <- <-. cbn.
      apply load_all_inv in Hpost as (Hkeys & _ & (m1 & Hmf) & (m2 & Hwo)).
      cbn in Hkeys, Hmf, Hwo. split; [|split].
      * rewrite merge_sort_Permutation, Hmf. set_solver.
      * rewrite Hwo. fold key msg. set_solver.
      * intros Hin. assert (idx ∈ set_of (dict_keys (l_truth st'))) as Hin'
          by (unfold set_of; by apply elem_of_list_to_set).
        apply Hkeys in Hin'. unfold set_of in Hin'. set_solver.
    + intros Hm -> b w' Hb. rewrite Hcall in Hb.
      rewrite Hround, Hm, note_missing_ignore in Hb.
      destruct (load_all _ _ _ post _ _) as [[st'|e'] w2] eqn:Hpost; [|done].
      injection Hb as <- <-. cbn.
      apply load_all_inv in Hpost as (Hkeys & _ & (m1 & Hmf) & _).
      cbn in Hkeys, Hmf. split.
      * rewrite merge_sort_Permutation, Hmf. set_solver.
      * intros Hin. assert (idx ∈ set_of (dict_keys (l_truth st'))) as Hin'
          by (unfold set_of; by apply elem_of_list_to_set).
        apply Hkeys in Hin'. unfold set_of in Hin'. set_solver.
Qed.

(** C3.  Once the indices are normalized and [load_truths] has returned,
    [truth_for_simulations] looks at [on_mismatch] only when
    [truth_indices] was given and the loaded indices differ, as a set,
    from the simulation keys.  Then [ignore] returns the bundle and
    changes nothing, [error] raises [ValueError] with the diagnostic and
    returns no bundle, and [warn] emits the diagnostic and records it in
    the bundle; the diagnostic lists the simulation indices and the loaded
    truth indices.  When [truth_indices] is [None] the requested indices
    are the simulation keys and the outcome does not depend on the policy.
    For the keys 5, 6, 7 with the explicit indices 5, 6, 9, the policy
    [error] never returns a bundle. *)
Theorem mismatch_policy_only_when_explicit keys truth_indices prefix use_cache
    on_missing on_mismatch prompt w sim req lb w1 :
  _normalize_indices (ArgIterable keys) = Ok sim →
  (if is_None truth_indices then Ok sim else _normalize_indices truth_indices) = Ok req →
  load_truths (ArgIterable (IntLike <$> req)) prefix use_cache on_missing w = (Ok lb, w1) →
  let call := truth_for_simulations (SimsMapping keys) truth_indices prefix use_cache
                on_missing on_mismatch prompt w in
  let msg := mismatch_message sim lb in
  let loaded := truth_indices_loaded lb in
  (truth_indices = ArgNone →
     req = sim ∧ call = (Ok (matched_bundle sim sim lb (warnings lb)), w1))
  ∧ (set_of loaded = set_of sim →
     call = (Ok (matched_bundle sim req lb (warnings lb)), w1))
  ∧ (truth_indices ≠ ArgNone → set_of loaded ≠ set_of sim →
     (on_mismatch = "ignore" →
        call = (Ok (matched_bundle sim req lb (warnings lb)), w1))
     ∧ (on_mismatch = "error" → call = (Raise (ValueError msg), w1))
     ∧ (on_mismatch = "warn" →
        (∃ more, warned call.2 = (warned w1 ++ msg :: more)%list)
        ∧ (∀ b, call.1 = Ok b →
             ∃ more, b = matched_bundle sim req lb (warnings lb ++ msg :: more))
        ∧ (prompt = false →
           call = (Ok (matched_bundle sim req lb (warnings lb ++ [msg])),
                   with_warned (warned w1 ++ [msg]) w1)))
     ∧ (on_mismatch ∉ VALID_ON_MISMATCH →
        call = (Raise (ValueError msg_bad_on_mismatch), w1))
     ∧ (∃ rest,
          msg = "Truth/Simulation mismatch detected." +:+ newline
                  +:+ "- Simulation indices: " +:+ repr_int_list sim +:+ newline
                  +:+ "- Truth indices loaded: " +:+ repr_int_list loaded +:+ newline
                  +:+ rest))
  ∧ (keys = [IntLike 5; IntLike 6; IntLike 7] →
     truth_indices = ArgIterable [IntLike 5; IntLike 6; IntLike 9] →
     on_mismatch = "error" →
     call = (Raise (ValueError msg), w1)).
Proof.
  intros Hsim Hreq Hload call msg loaded.
  pose proof (truth_for_simulations_run keys truth_indices prefix use_cache on_missing
                on_mismatch prompt w sim req lb w1 Hsim Hreq Hload) as Hcall.
  fold call in Hcall.
  assert (truth_indices ≠ ArgNone → set_of loaded ≠ set_of sim →
          call = match _handle_mismatch msg on_mismatch prompt (warnings lb) w1 with
                 | (Ok ws, w2) => (Ok (matched_bundle sim req lb ws), w2)
                 | (Raise e, w2) => (Raise e, w2)
                 end) as Hpolicy.
  { intros Hex Hdiff. rewrite Hcall.
    assert (is_None truth_indices = false) as -> by by destruct truth_indices.
    by rewrite (proj2 (mismatch_found_iff sim lb) Hdiff). }
  split; [|split; [|split]].
  - intros ->. cbn in Hreq. injection Hreq as <-. split; [done|]. by rewrite Hcall.
  - intros Hsame. rewrite Hcall.
    destruct (mismatch_found sim lb) eqn:Hm.
    + by apply mismatch_found_iff in Hm.
    + by rewrite andb_false_r.
  - intros Hex Hdiff. specialize (Hpolicy Hex Hdiff). split_and!.
    + intros ->. by rewrite Hpolicy, _handle_mismatch_ignore.
    + intros ->. by rewrite Hpolicy, _handle_mismatch_error.
    + intros ->.
      destruct (_handle_mismatch msg "warn" prompt (warnings lb) w1) as [r w2] eqn:Hh.
      pose proof (_handle_mismatch_warn _ _ _ _ _ _ Hh) as (Hemit & Hrec).
      split_and!.
      * rewrite Hpolicy. by destruct r.
      * intros b Hb. rewrite Hpolicy in Hb. destruct r as [ws|e]; [|done].
        cbn in Hb. injection Hb as <-. destruct (Hrec ws eq_refl) as [more ->].
        by exists more.
      * intros ->. rewrite _handle_mismatch_warn_quiet in Hh. injection Hh as <- <-.
        by rewrite Hpolicy.
    + intros Hbad. by rewrite Hpolicy, (_handle_mismatch_invalid _ _ _ _ _ Hbad).
    + subst msg loaded. unfold mismatch_message.
      exact (_format_mismatch_message_head _ _ _ _ _).
  - intros -> -> ->.
    assert (sim = [5; 6; 7]) as -> by (vm_compute in Hsim; by injection Hsim as <-).
    assert (req = [5; 6; 9]) as -> by (vm_compute in Hreq; by injection Hreq as <-).
    rewrite Hpolicy, _handle_mismatch_error; [done|done|].
    pose proof (load_truths_keys _ _ _ _ _ _ _ Hload) as (_ & Hsub & _ & Hn).
    cbn [_normalize_indices] in Hn. rewrite normalize_raw_ints in Hn.
    injection Hn as Hn. rewrite <- Hn, set_of_sorted_set in Hsub.
    intros Heq. assert (7 ∈ set_of loaded) as Hin by (rewrite Heq; set_solver).
    unfold loaded, truth_indices_loaded in Hin. rewrite set_of_merge_sort in Hin.
    apply Hsub in Hin. unfold set_of in Hin. set_solver.
Qed.

End WithLibraries.

(** The statements at work on the small deployment: simulations 5, 6 and
    7, truth files for 5 and 6 only. *)
Definition simulations_567 : simulations_arg :=
  SimsMapping [IntLike 5; IntLike 6; IntLike 7].

Lemma truth_bundle_invariants_witness :
  ∃ b w',
    @truth_for_simulations plain_pandas simulations_567 ArgNone DEFAULT_TRUTH_PREFIX
      true "warn" "warn" false fresh = (Ok b, w')
    ∧ @truth_indices_loaded plain_pandas b = [5; 6]
    ∧ missing_for_simulations b = [7] ∧ extra_truth b = []
    ∧ @is_full_match plain_pandas b = false
    ∧ length (warnings b) = 1%nat
    ∧ @bundle_invariant plain_pandas b.
Proof.
  destruct (@truth_for_simulations plain_pandas simulations_567 ArgNone
              DEFAULT_TRUTH_PREFIX true "warn" "warn" false fresh) as [[b|e] w'] eqn:Hcall;
    vm_compute in Hcall; [|discriminate Hcall].
  exists b, w'. split; [reflexivity|].
  injection Hcall as <- <-. do 5 (split; [vm_compute; reflexivity|]).
  destruct (@truth_bundle_invariants plain_pandas) as (_ & Hmatch & _).
  eapply (Hmatch simulations_567 ArgNone DEFAULT_TRUTH_PREFIX true "warn" "warn" false fresh).
  vm_compute. reflexivity.
Defined.

Lemma missing_file_policy_witness :
  (@load_one plain_pandas DEFAULT_TRUTH_PREFIX true "warn" 7 nothing_loaded fresh).1
    = Ok (noted_missing 7
            [msg_missing_file 7 "acic22/truth/truth_0007.parquet"] nothing_loaded)
  ∧ (@load_one plain_pandas DEFAULT_TRUTH_PREFIX true "error" 7 nothing_loaded fresh).1
    = Raise (FileNotFoundError (msg_missing_file 7 "acic22/truth/truth_0007.parquet")).
Proof.
  split.
  - destruct (@missing_file_policy plain_pandas DEFAULT_TRUTH_PREFIX true "warn" 7
                nothing_loaded fresh not_found
                (@load_file plain_pandas "acic22/truth/truth_0007.parquet" true fresh).2)
      as (_ & Hpolicy & _); [vm_compute; reflexivity|].
    destruct Hpolicy as (Hwarn & _); [vm_compute; reflexivity|].
    rewrite Hwarn; reflexivity.
  - destruct (@missing_file_policy plain_pandas DEFAULT_TRUTH_PREFIX true "error" 7
                nothing_loaded fresh not_found
                (@load_file plain_pandas "acic22/truth/truth_0007.parquet" true fresh).2)
      as (_ & Hpolicy & _); [vm_compute; reflexivity|].
    destruct Hpolicy as (_ & Herror & _); [vm_compute; reflexivity|].
    rewrite Herror; reflexivity.
Defined.

(** C2 as the claim has it fails: the store answers with the code
    [AccessDenied], which is no not-found code, and a text that happens to
    contain the words; the failure is not handed on to the caller but
    taken for a missing truth file and, under [ignore], passed over. *)
Lemma not_found_by_text_counterexample :
  (str_strip "AccessDenied" ∉ NOT_FOUND_CODES)
  ∧ (@load_file plain_pandas "acic22/truth/truth_0007.parquet" true
       (started credentials denying_store)).1 = Raise denied
  ∧ ∃ b w',
      @load_truths plain_pandas (ArgIterable [IntLike 7]) DEFAULT_TRUTH_PREFIX true
        "ignore" (started credentials denying_store) = (Ok b, w')
      ∧ missing_truth_files b = [7] ∧ truth b = [] ∧ warnings b = [].
Proof.
  split; [vm_compute; discriminate|]. split; [vm_compute; reflexivity|].
  destruct (@load_truths plain_pandas (ArgIterable [IntLike 7]) DEFAULT_TRUTH_PREFIX true
              "ignore" (started credentials denying_store)) as [[b|e] w'] eqn:Hcall;
    vm_compute in Hcall; [|discriminate Hcall].
  exists b, w'. split; [reflexivity|]. injection Hcall as <- <-.
  repeat split.
Qed.

Lemma mismatch_policy_only_when_explicit_witness :
  ∃ msg,
    (@truth_for_simulations plain_pandas simulations_567
       (ArgIterable [IntLike 5; IntLike 6; IntLike 9]) DEFAULT_TRUTH_PREFIX
       true "warn" "error" false fresh).1 = Raise (ValueError msg).
Proof.
  destruct (@load_truths plain_pandas (ArgIterable (IntLike <$> [5; 6; 9]))
              DEFAULT_TRUTH_PREFIX true "warn" fresh) as [[lb|e] w1] eqn:Hload.
  2: { vm_compute in Hload. discriminate Hload. }
  destruct (@mismatch_policy_only_when_explicit plain_pandas
              [IntLike 5; IntLike 6; IntLike 7]
              (ArgIterable [IntLike 5; IntLike 6; IntLike 9])
              DEFAULT_TRUTH_PREFIX true "warn" "error" false fresh
              [5; 6; 7] [5; 6; 9] lb w1) as (_ & _ & _ & Hscenario).
  - vm_compute. reflexivity.
  - vm_compute. reflexivity.
  - exact Hload.
  - eexists. unfold simulations_567. rewrite Hscenario; reflexivity.
Defined.

End TruthMatcherFacts.

(** * Further properties of the three modules *)

(** ** Strings: suffixes, letter case and the four-digit format *)
Module StringFacts.
Import Py Loaders.

Lemma append_cons (c : ascii) (s1 s2 : string) :
  String c s1 +:+ s2 = String c (s1 +:+ s2).
Proof. done. Qed.

Lemma append_nil_l (s : string) : EmptyString +:+ s = s.
Proof. done. Qed.

Lemma append_nil_r (s : string) : s +:+ EmptyString = s.
Proof. induction s as [|c s IH]; [done|]. by rewrite append_cons, IH. Qed.

Lemma append_assoc' (s1 s2 s3 : string) : (s1 +:+ s2) +:+ s3 = s1 +:+ (s2 +:+ s3).
Proof.
  induction s1 as [|c s1 IH]; [done|]. by rewrite !append_cons, IH.
Qed.

Lemma length_append (s1 s2 : string) :
  String.length (s1 +:+ s2) = (String.length s1 + String.length s2)%nat.
Proof.
  induction s1 as [|c s1 IH]; [done|]. rewrite append_cons. simpl. by rewrite IH.
Qed.

Lemma append_inv_tail (s1 s2 t : string) : s1 +:+ t = s2 +:+ t → s1 = s2.
Proof.
  revert s2. induction s1 as [|c s1 IH]; intros [|d s2] H.
  - done.
  - apply (f_equal String.length) in H.
    rewrite append_nil_l, append_cons in H. simpl in H.
    rewrite length_append in H. lia.
  - apply (f_equal String.length) in H.
    rewrite append_nil_l, append_cons in H. simpl in H.
    rewrite length_append in H. lia.
  - rewrite !append_cons in H. injection H as -> H. by rewrite (IH s2 H).
Qed.

Lemma rev_app_append (s1 s2 s3 : string) :
  String.rev_app (s1 +:+ s2) s3 = String.rev_app s2 (String.rev_app s1 s3).
Proof.
  revert s3. induction s1 as [|c s1 IH]; intros s3; [done|].
  rewrite append_cons. simpl. apply IH.
Qed.

Lemma rev_app_spec (s1 s2 : string) :
  String.rev_app s1 s2 = String.rev s1 +:+ s2.
Proof.
  unfold String.rev. revert s2. induction s1 as [|c s1 IH]; intros s2; [done|].
  simpl. rewrite (IH (String c s2)), (IH (String c EmptyString)).
  by rewrite append_assoc'.
Qed.

Lemma rev_append (s1 s2 : string) :
  String.rev (s1 +:+ s2) = String.rev s2 +:+ String.rev s1.
Proof.
  unfold String.rev at 1. rewrite rev_app_append. by rewrite rev_app_spec.
Qed.

Lemma is_prefix_append (p s : string) : is_prefix p (p +:+ s) = true.
Proof.
  induction p as [|c p IH]; [done|].
  rewrite append_cons. cbn [is_prefix]. by rewrite bool_decide_true, IH.
Qed.

(** A text ends with what was appended to it last. *)
Lemma ends_with_append (suffix s : string) : ends_with suffix (s +:+ suffix) = true.
Proof. unfold ends_with. rewrite rev_append. apply is_prefix_append. Qed.

Lemma str_lower_append (s1 s2 : string) :
  str_lower (s1 +:+ s2) = str_lower s1 +:+ str_lower s2.
Proof.
  induction s1 as [|c s1 IH]; [done|].
  rewrite append_cons. cbn [str_lower]. by rewrite append_cons, IH.
Qed.

(** Two suffixes that differ in their last letter exclude each other. *)
Lemma ends_with_other (c d : ascii) (p q s : string) :
  c ≠ d →
  ends_with (p +:+ String c EmptyString) (s +:+ q +:+ String d EmptyString) = false.
Proof.
  intros Hne. unfold ends_with.
  rewrite <- append_assoc', !rev_append.
  change (String.rev (String c EmptyString)) with (String c EmptyString).
  change (String.rev (String d EmptyString)) with (String d EmptyString).
  rewrite !append_cons. cbn [is_prefix]. by rewrite bool_decide_false.
Qed.

(** *** The decimal digits of a number *)

Lemma pretty_N_char_leading (x : N) :
  (0 < x < 10)%N → pretty_N_char x ≠ "0"%char ∧ pretty_N_char x ≠ "-"%char.
Proof.
  intros Hx.
  assert (x = 1 ∨ x = 2 ∨ x = 3 ∨ x = 4 ∨ x = 5 ∨ x = 6 ∨ x = 7 ∨ x = 8 ∨ x = 9)%N
    as Hcases by lia.
  repeat (destruct Hcases as [->|Hcases]; [by split|]). by subst.
Qed.

Lemma pretty_N_go_leading (x : N) (s : string) :
  (0 < x)%N → leading_digit (pretty_N_go x s).
Proof.
  revert s. induction (N.lt_wf_0 x) as [x _ IH]. intros s Hx.
  rewrite pretty_N_go_step by done.
  destruct (decide (x < 10)%N) as [Hsmall|Hbig].
  - rewrite N.div_small by done. rewrite pretty_N_go_0.
    rewrite N.mod_small by done.
    destruct (pretty_N_char_leading x) as [H0 Hd]; [lia|].
    by exists (pretty_N_char x), s.
  - apply IH.
    + apply N.div_lt; lia.
    + apply N.div_str_pos. lia.
Qed.

(** The digits of a number: the single digit 0, or a text that starts
    with another digit. *)
Lemma pretty_N_digits (x : N) : pretty x = "0" ∨ leading_digit (pretty x).
Proof.
  unfold pretty, pretty_N. destruct (decide (x = 0)%N) as [->|Hx]; [by left|].
  right. apply pretty_N_go_leading. lia.
Qed.

Lemma zeros_S (n : nat) : zeros (S n) = "0" +:+ zeros n.
Proof. done. Qed.

Lemma zeros_add (n m : nat) : zeros (n + m) = zeros n +:+ zeros m.
Proof.
  induction n as [|n IH]; [done|].
  change (S n + m)%nat with (S (n + m)). cbn [zeros]. by rewrite append_cons, IH.
Qed.

(** Padding with zeros loses nothing. *)
Lemma zero_padding_inj (k1 k2 : nat) (d1 d2 : string) :
  (d1 = "0" ∨ leading_digit d1) →
  (d2 = "0" ∨ leading_digit d2) →
  zeros k1 +:+ d1 = zeros k2 +:+ d2 → d1 = d2.
Proof.
  assert (∀ k1 k2 d1 d2,
            (k1 < k2)%nat →
            (d1 = "0" ∨ leading_digit d1) →
            (d2 = "0" ∨ leading_digit d2) →
            zeros k1 +:+ d1 = zeros k2 +:+ d2 → False) as Hlt.
  { clear. intros k1 k2 d1 d2 Hk H1 H2 Heq.
    replace k2 with (k1 + S (k2 - k1 - 1))%nat in Heq by lia.
    rewrite zeros_add, append_assoc' in Heq.
    apply (inj (append (zeros k1))) in Heq.
    rewrite zeros_S, append_assoc' in Heq.
    change ("0" +:+ ?s) with (String "0" s) in Heq.
    destruct H1 as [->|(c & rest & -> & Hc & _)].
    - injection Heq as Heq. symmetry in Heq.
      apply (f_equal String.length) in Heq. rewrite length_append in Heq.
      destruct H2 as [->|(c & rest & -> & _)]; simpl in Heq; lia.
    - by injection Heq as -> _. }
  intros H1 H2 Heq.
  destruct (lt_eq_lt_dec k1 k2) as [[Hk|<-]|Hk].
  - by destruct (Hlt k1 k2 d1 d2).
  - by apply (inj (append (zeros k1))) in Heq.
  - by destruct (Hlt k2 k1 d2 d1).
Qed.

Lemma zero_padded_no_dash (k : nat) (d rest : string) :
  (d = "0" ∨ leading_digit d) → zeros k +:+ d ≠ "-" +:+ rest.
Proof.
  intros Hd. destruct k as [|k].
  - rewrite append_nil_l. destruct Hd as [->|(c & r & -> & _ & Hc)]; [done|].
    intros [= ? _]. done.
  - done.
Qed.

(** [f"{z:04d}"] tells the numbers apart. *)
Lemma format_04d_inj (z1 z2 : Z) : format_04d z1 = format_04d z2 → z1 = z2.
Proof.
  unfold format_04d.
  pose proof (pretty_N_digits (Z.abs_N z1)) as H1.
  pose proof (pretty_N_digits (Z.abs_N z2)) as H2.
  destruct (z1 <? 0) eqn:Hs1, (z2 <? 0) eqn:Hs2; intros Heq.
  - apply (inj (append "-")) in Heq.
    apply zero_padding_inj in Heq; [|done..].
    apply (inj pretty) in Heq. lia.
  - symmetry in Heq. by apply zero_padded_no_dash in Heq.
  - by apply zero_padded_no_dash in Heq.
  - apply zero_padding_inj in Heq; [|done..].
    apply (inj pretty) in Heq. lia.
Qed.

End StringFacts.

(** ** backend.py: sessions, uploads and deletions *)
Module BackendBehaviour.
Import Py World Backend Run Scenario BackendFacts.

(** The world that a successful [connect_s3] leaves behind. *)
Lemma connect_s3_ok_inv bucket_name endpoint_key read_only w v w' :
  connect_s3 bucket_name endpoint_key read_only w = (Ok v, w') →
  ∃ url,
    endpoint_lookup endpoint_key ENDPOINTS = Some url
    ∧ probe_reached w url bucket_name
    ∧ bucket_load (remote w) (history w) (handle_of w url bucket_name) = None
    ∧ v = (bucket_resource (handle_of w url bucket_name),
           handle_of w url bucket_name, url)
    ∧ backend w' = {| _S3 := Some (bucket_resource (handle_of w url bucket_name));
                      _BUCKET := Some (handle_of w url bucket_name);
                      _ACTIVE_ENDPOINT := Some url;
                      _READ_ONLY := read_only |}
    ∧ history w' = (history w ++ [EvLoad (handle_of w url bucket_name)])%list
    ∧ stdout w' =
        (stdout w ++ ["Connected to bucket '" +:+ bucket_name +:+ "' via " +:+ url
                        +:+ " [" +:+ (if read_only then "READ-ONLY" else "WRITE")
                        +:+ " mode]"])%list.
Proof.
  unfold connect_s3, create_resource, probe_handler,
    set_READ_ONLY, set_ACTIVE_ENDPOINT, set_S3, set_BUCKET.
  unfold probe_reached, credentials_present, handle_of.
  unfold_M. wsimpl. intros H.
  destruct (env_missing (environ w !! "UHH_S3_ACCESS")) eqn:Ha,
    (env_missing (environ w !! "UHH_S3_SECRET")) eqn:Hs; wsimpl;
    try discriminate H.
  destruct (endpoint_lookup endpoint_key ENDPOINTS) as [url|] eqn:Hurl;
    [|discriminate H].
  wsimpl.
  destruct (new_resource _ _ _ _) eqn:Hres; [discriminate H|]. wsimpl.
  destruct (new_bucket _ _ _) eqn:Hbkt; [discriminate H|]. wsimpl.
  destruct (bucket_load _ _ _) eqn:Hload; wsimpl.
  { by destruct (bool_decide _). }
  injection H as <- <-. exists url. wsimpl. by repeat split.
Qed.

Lemma connect_s3_ok_intro bucket_name endpoint_key read_only w url :
  endpoint_lookup endpoint_key ENDPOINTS = Some url →
  probe_reached w url bucket_name →
  bucket_load (remote w) (history w) (handle_of w url bucket_name) = None →
  ∃ w', connect_s3 bucket_name endpoint_key read_only w
          = (Ok (bucket_resource (handle_of w url bucket_name),
                 handle_of w url bucket_name, url), w').
Proof.
  intros Hurl ((Ha & Hs) & Hres & Hbkt) Hload.
  unfold connect_s3, create_resource, probe_handler,
    set_READ_ONLY, set_ACTIVE_ENDPOINT, set_S3, set_BUCKET.
  unfold handle_of in *.
  unfold_M. wsimpl.
  rewrite Ha, Hs. wsimpl. rewrite Hurl. wsimpl.
  rewrite Hres. wsimpl. rewrite Hbkt. wsimpl.
  rewrite Hload. wsimpl. eauto.
Qed.

(** X1.  [connect_s3] returns exactly when both credentials are set, the
    selector is one of the four, the two handles are made and the store
    answers the probe.  It then returns the triple that it has stored in
    the globals, has sent the probe and nothing else, has written one line
    that names the bucket, the endpoint and the mode, and has left the
    caches alone. *)
Theorem connect_s3_success bucket_name endpoint_key read_only w :
  ((∃ v w', connect_s3 bucket_name endpoint_key read_only w = (Ok v, w'))
   ↔ ∃ url,
       endpoint_lookup endpoint_key ENDPOINTS = Some url
       ∧ probe_reached w url bucket_name
       ∧ bucket_load (remote w) (history w) (handle_of w url bucket_name) = None)
  ∧ (∀ v w',
       connect_s3 bucket_name endpoint_key read_only w = (Ok v, w') →
       _S3 (backend w') = Some v.1.1
       ∧ _BUCKET (backend w') = Some v.1.2
       ∧ _ACTIVE_ENDPOINT (backend w') = Some v.2
       ∧ _READ_ONLY (backend w') = read_only
       ∧ bucket_resource v.1.2 = v.1.1
       ∧ World.bucket_name v.1.2 = bucket_name
       ∧ res_endpoint v.1.1 = v.2
       ∧ history w' = (history w ++ [EvLoad v.1.2])%list
       ∧ stdout w' =
           (stdout w ++ ["Connected to bucket '" +:+ bucket_name +:+ "' via " +:+ v.2
                           +:+ " [" +:+ (if read_only then "READ-ONLY" else "WRITE")
                           +:+ " mode]"])%list
       ∧ loaders w' = loaders w).
Proof.
  split.
  - split.
    + intros (v & w' & H). apply connect_s3_ok_inv in H as (url & ? & ? & ? & _).
      by exists url.
    + intros (url & Hurl & Hreach & Hload).
      destruct (connect_s3_ok_intro bucket_name endpoint_key read_only w url)
        as [w' Hw']; eauto.
  - intros v w' H.
    pose proof (connect_s3_effect _ _ _ _ _ _ H) as ((Hl & _) & _).
    apply connect_s3_ok_inv in H
      as (url & _ & _ & _ & -> & Hb & Hh & Hout).
    rewrite Hb. cbn [fst snd handle_of bucket_resource World.bucket_name
                     res_endpoint _S3 _BUCKET _ACTIVE_ENDPOINT _READ_ONLY].
    by repeat split.
Qed.

(** On the small deployment. *)
Lemma connect_s3_on_deployment :
  (connect_s3 "cidl-test" "site-2" false fresh).1
    = Ok (bucket_resource (handle_of fresh "https://s3-uhh-s2.lzs.uni-hamburg.de:443" "cidl-test"),
          handle_of fresh "https://s3-uhh-s2.lzs.uni-hamburg.de:443" "cidl-test",
          "https://s3-uhh-s2.lzs.uni-hamburg.de:443")
  ∧ stdout (connect_s3 "cidl-test" "site-2" false fresh).2
    = ["Connected to bucket 'cidl-test' via https://s3-uhh-s2.lzs.uni-hamburg.de:443 [WRITE mode]"].
Proof. split; vm_compute; reflexivity. Qed.

(** X2.  A probe that fails comes after the two handles were stored.  So the
    failed call leaves a session in the globals, with the endpoint and the
    flag of the call, no line on the standard output, and
    [_ensure_connected] has nothing to do afterwards: the operations that
    follow use the handles that the probe has refused. *)
Theorem failed_probe_leaves_session bucket_name endpoint_key read_only w url e :
  endpoint_lookup endpoint_key ENDPOINTS = Some url →
  probe_reached w url bucket_name →
  bucket_load (remote w) (history w) (handle_of w url bucket_name) = Some e →
  let w' := (connect_s3 bucket_name endpoint_key read_only w).2 in
  (∃ e', (connect_s3 bucket_name endpoint_key read_only w).1 = Raise e')
  ∧ backend w' = {| _S3 := Some (bucket_resource (handle_of w url bucket_name));
                    _BUCKET := Some (handle_of w url bucket_name);
                    _ACTIVE_ENDPOINT := Some url;
                    _READ_ONLY := read_only |}
  ∧ history w' = (history w ++ [EvLoad (handle_of w url bucket_name)])%list
  ∧ stdout w' = stdout w
  ∧ _ensure_connected w' = (Ok (), w').
Proof.
  intros Hurl ((Ha & Hs) & Hres & Hbkt) Hload w'.
  assert (backend w' = {| _S3 := Some (bucket_resource (handle_of w url bucket_name));
                          _BUCKET := Some (handle_of w url bucket_name);
                          _ACTIVE_ENDPOINT := Some url;
                          _READ_ONLY := read_only |}
          ∧ history w' = (history w ++ [EvLoad (handle_of w url bucket_name)])%list
          ∧ stdout w' = stdout w
          ∧ ∃ e', (connect_s3 bucket_name endpoint_key read_only w).1 = Raise e')
    as (Hb & Hh & Hout & He).
  { unfold w', connect_s3, create_resource, probe_handler,
      set_READ_ONLY, set_ACTIVE_ENDPOINT, set_S3, set_BUCKET.
    unfold handle_of in *.
    unfold_M. wsimpl.
    rewrite Ha, Hs. wsimpl. rewrite Hurl. wsimpl.
    rewrite Hres. wsimpl. rewrite Hbkt. wsimpl.
    rewrite Hload. wsimpl.
    destruct (bool_decide _); wsimpl; repeat split; eauto. }
  split; [done|]. split; [done|]. split; [done|]. split; [done|].
  apply _ensure_connected_noop. unfold connected. rewrite Hb.
  split; by eexists.
Qed.

Lemma failed_probe_leaves_session_witness :
  let w' := (connect_s3 "cidl-test" "primary" true (started credentials rejecting_store)).2 in
  connected w' ∧ _ensure_connected w' = (Ok (), w') ∧ stdout w' = [].
Proof.
  intros w'.
  destruct (failed_probe_leaves_session "cidl-test" "primary" true
              (started credentials rejecting_store)
              "https://s3-uhh.lzs.uni-hamburg.de:443"
              (ClientError "InvalidAccessKeyId" "The access key is unknown"))
    as (_ & Hb & _ & Hout & Hnoop).
  - vm_compute. reflexivity.
  - repeat split; vm_compute; reflexivity.
  - vm_compute. reflexivity.
  - subst w'. split; [|split; [exact Hnoop|exact Hout]].
    unfold connected. rewrite Hb. split; by eexists.
Defined.

(** X3.  [_ensure_connected] is made at most once: when it returns, a session
    is present and a second call does nothing.  With a session present it
    changes nothing, so it never turns a write session into a read-only
    one; without one, it connects to the bucket [cidl-test] at the primary
    endpoint in read-only mode, with the probe as its only request. *)
Theorem _ensure_connected_once w w' :
  _ensure_connected w = (Ok (), w') →
  _ensure_connected w' = (Ok (), w')
  ∧ connected w'
  ∧ (connected w → w' = w)
  ∧ (¬ connected w →
       _READ_ONLY (backend w') = true
       ∧ _ACTIVE_ENDPOINT (backend w') = Some "https://s3-uhh.lzs.uni-hamburg.de:443"
       ∧ ∃ b, _BUCKET (backend w') = Some b
              ∧ World.bucket_name b = "cidl-test"
              ∧ history w' = (history w ++ [EvLoad b])%list).
Proof.
  intros H.
  pose proof (_ensure_connected_effect _ _ _ H) as (_ & _ & Hc).
  specialize (Hc eq_refl).
  split; [by apply _ensure_connected_noop|]. split; [done|]. split.
  - intros Hw. rewrite (_ensure_connected_noop w Hw) in H. by injection H.
  - intros Hn. rewrite (_ensure_connected_auto w Hn) in H.
    destruct (connect_s3 "cidl-test" "primary" true w) as [[v|e] w1] eqn:Hcon;
      [|discriminate H].
    injection H as <-.
    apply connect_s3_ok_inv in Hcon as (url & Hurl & _ & _ & _ & Hb & Hh & _).
    vm_compute in Hurl. injection Hurl as <-.
    rewrite Hb. cbn [_READ_ONLY _ACTIVE_ENDPOINT _BUCKET].
    split; [done|]. split; [done|]. eexists. split; [done|]. split; [done|].
    exact Hh.
Qed.

Lemma _ensure_connected_once_witness :
  let w' := (_ensure_connected fresh).2 in
  _ensure_connected w' = (Ok (), w') ∧ _READ_ONLY (backend w') = true
  ∧ length (history w') = 1%nat.
Proof.
  intros w'.
  destruct (_ensure_connected_once fresh w') as (Hagain & _ & _ & Hauto).
  - vm_compute. reflexivity.
  - destruct Hauto as (Hro & _ & b & _ & _ & Hh).
    + vm_compute. intros [[? [=]] _].
    + split; [exact Hagain|]. split; [exact Hro|]. rewrite Hh. reflexivity.
Defined.

Lemma upload_file_run w b file_path key_prefix :
  is_Some (_S3 (backend w)) →
  _BUCKET (backend w) = Some b →
  _READ_ONLY (backend w) = false →
  upload_file file_path key_prefix w =
    match stat_size (files w) file_path with
    | Raise e => (Ok (path_name file_path, PyExc e, None), w)
    | Ok _ =>
        match upload_fileobj (remote w) (history w) b
                (upload_key key_prefix file_path) (path_str file_path) with
        | Some e =>
            (Ok (path_name file_path, PyExc e, None),
             after_request (upload_event b key_prefix file_path) w)
        | None =>
            (Ok (path_name file_path, PyTrue,
                 Some ("s3://" +:+ bucket_name b +:+ "/"
                         +:+ upload_key key_prefix file_path)),
             after_request (upload_event b key_prefix file_path) w)
        end
    end.
Proof.
  intros HS3 Hb Hro.
  assert (connected w) as Hc by (split; [done|by rewrite Hb]).
  unfold upload_file. rewrite (guarded_passes _ w Hc Hro).
  unfold upload_file_body, bucket_attr, after_request, upload_event, upload_key.
  unfold_M. wsimpl.
  destruct (stat_size _ _); [|done]. wsimpl. rewrite Hb. wsimpl.
  by destruct (upload_fileobj _ _ _ _ _).
Qed.

(** X4.  In write mode [upload_file] never raises: it returns the name of the
    file with [True] and the address of the object, or with the exception
    that [stat] or the upload raised and no address.  A file that cannot
    be inspected is not sent; otherwise exactly one upload is sent, under
    the key made of the prefix and the name of the file. *)
Theorem upload_file_returns_outcome w b file_path key_prefix :
  is_Some (_S3 (backend w)) →
  _BUCKET (backend w) = Some b →
  _READ_ONLY (backend w) = false →
  let call := upload_file file_path key_prefix w in
  let sent := upload_event b key_prefix file_path in
  (∃ r, call.1 = Ok (path_name file_path, r.1, r.2)
        ∧ (r.1 = PyTrue ↔ is_Some r.2))
  ∧ (∀ e, stat_size (files w) file_path = Raise e →
       call = (Ok (path_name file_path, PyExc e, None), w))
  ∧ (∀ size, stat_size (files w) file_path = Ok size →
       call.2 = after_request sent w
       ∧ call.1 =
           match upload_fileobj (remote w) (history w) b
                   (upload_key key_prefix file_path) (path_str file_path) with
           | Some e => Ok (path_name file_path, PyExc e, None)
           | None =>
               Ok (path_name file_path, PyTrue,
                   Some ("s3://" +:+ bucket_name b +:+ "/" +:+ key_prefix
                           +:+ "/" +:+ path_name file_path))
           end).
Proof.
  intros HS3 Hb Hro call sent. unfold call, sent.
  rewrite (upload_file_run w b file_path key_prefix HS3 Hb Hro).
  split; [|split].
  - destruct (stat_size _ _) as [size|e].
    + destruct (upload_fileobj _ _ _ _ _) as [e|].
      * exists (PyExc e, None). split; [done|]. split; [done|]. by intros [? [=]].
      * eexists (PyTrue, Some _). split; [done|]. by split; [eexists|].
    + exists (PyExc e, None). split; [done|]. split; [done|]. by intros [? [=]].
  - by intros e ->.
  - intros size ->. by destruct (upload_fileobj _ _ _ _ _).
Qed.

Lemma upload_file_returns_outcome_witness :
  (upload_file {| path_str := "/data/sim_0003.parquet"; path_name := "sim_0003.parquet" |}
     "acic22/simulations" (session false quiet_store)).1
    = Ok ("sim_0003.parquet", PyTrue,
          Some "s3://cidl-test/acic22/simulations/sim_0003.parquet").
Proof.
  destruct (upload_file_returns_outcome (session false quiet_store) main_bucket
              {| path_str := "/data/sim_0003.parquet"; path_name := "sim_0003.parquet" |}
              "acic22/simulations") as (_ & _ & Hsent).
  - vm_compute. by eexists.
  - vm_compute. reflexivity.
  - vm_compute. reflexivity.
  - destruct (Hsent 1) as [_ Hr]; [vm_compute; reflexivity|].
    rewrite Hr. vm_compute. reflexivity.
Defined.






Lemma delete_one_run b key w :
  delete_one b key w
    = (unit_result (object_delete (remote w) (history w) b key),
       with_history (history w ++ [EvDelete b key]) w).
Proof. done. Qed.

(** Deletions that the store accepts one after the other. *)
Lemma for_each_delete_accepted b keys w :
  (∀ i key, keys !! i = Some key →
     object_delete (remote w) (history w ++ (EvDelete b <$> take i keys)) b key = None) →
  for_each (delete_one b) keys w
    = (Ok (), with_history (history w ++ (EvDelete b <$> keys)) w).
Proof.
  revert w. induction keys as [|k keys IH]; intros w Hacc.
  - cbn [for_each fmap list_fmap]. unfold_M. rewrite app_nil_r. by destruct w.
  - cbn [for_each]. unfold mbind, M_bind.
    pose proof (Hacc 0%nat k eq_refl) as H0.
    cbn [take fmap list_fmap] in H0. rewrite app_nil_r in H0.
    rewrite delete_one_run, H0. wsimpl.
    rewrite IH.
    + wsimpl. cbn [fmap list_fmap]. by rewrite <- app_assoc.
    + intros i key Hi. wsimpl. rewrite <- app_assoc.
      apply (Hacc (S i) key Hi).
Qed.

(** Deletions of which the store accepts a first part and refuses the
    next one. *)
Lemma for_each_delete_refused b pre key post e w :
  (∀ i k, pre !! i = Some k →
     object_delete (remote w) (history w ++ (EvDelete b <$> take i pre)) b k = None) →
  object_delete (remote w) (history w ++ (EvDelete b <$> pre)) b key = Some e →
  for_each (delete_one b) (pre ++ key :: post)%list w
    = (Raise e, with_history (history w ++ (EvDelete b <$> (pre ++ [key])%list)) w).
Proof.
  revert w. induction pre as [|k pre IH]; intros w Hacc Href.
  - cbn [app for_each fmap list_fmap] in *. unfold mbind, M_bind.
    rewrite app_nil_r in Href. rewrite delete_one_run, Href. wsimpl. done.
  - cbn [app for_each]. unfold mbind, M_bind.
    pose proof (Hacc 0%nat k eq_refl) as H0.
    cbn [take fmap list_fmap] in H0. rewrite app_nil_r in H0.
    rewrite delete_one_run, H0. wsimpl.
    rewrite IH.
    + wsimpl. cbn [fmap list_fmap app]. by rewrite <- app_assoc.
    + intros i k' Hi. wsimpl. rewrite <- app_assoc. apply (Hacc (S i) k' Hi).
    + wsimpl. by rewrite <- app_assoc.
Qed.

(** X6.  In write mode [delete_prefix] deletes the listed objects one by one in
    the order of the listing and stops at the first deletion that the
    store refuses: the objects before it are gone, the objects after it
    were never asked for, and the exception is returned.  When every
    deletion is accepted, each listed object was deleted once, the number
    is reported and [True] is returned. *)
Theorem delete_prefix_stops_at_first_failure w b key_prefix :
  is_Some (_S3 (backend w)) →
  _BUCKET (backend w) = Some b →
  _READ_ONLY (backend w) = false →
  let call := delete_prefix key_prefix w in
  (∀ pre key post e,
     objects_filter (remote w) (history w) b key_prefix = Ok (pre ++ key :: post)%list →
     (∀ i k, pre !! i = Some k →
        object_delete (remote w)
          (deleted_so_far (history w) b key_prefix (take i pre)) b k = None) →
     object_delete (remote w) (deleted_so_far (history w) b key_prefix pre) b key
       = Some e →
     call.1 = Ok (PyExc e)
     ∧ history call.2 = deleted_so_far (history w) b key_prefix (pre ++ [key])%list
     ∧ stdout call.2 =
         (stdout w ++ ["Failed to delete prefix '" +:+ key_prefix +:+ "': "
                         +:+ exn_str e])%list)
  ∧ (∀ keys,
       objects_filter (remote w) (history w) b key_prefix = Ok keys →
       keys ≠ [] →
       (∀ i k, keys !! i = Some k →
          object_delete (remote w)
            (deleted_so_far (history w) b key_prefix (take i keys)) b k = None) →
       call.1 = Ok PyTrue
       ∧ history call.2 = deleted_so_far (history w) b key_prefix keys
       ∧ stdout call.2 =
           (stdout w ++ ["Deleted " +:+ pretty (length keys)
                           +:+ " objects under prefix '" +:+ key_prefix +:+ "'."])%list).
Proof.
  intros HS3 Hb Hro call.
  assert (connected w) as Hc by (split; [done|by rewrite Hb]).
  assert (call = delete_prefix_body key_prefix w) as Hcall.
  { unfold call, delete_prefix. by rewrite (guarded_passes _ w Hc Hro). }
  unfold deleted_so_far. split.
  - intros pre key post e Hlist Hacc Href. rewrite Hcall.
    assert (for_each (delete_one b) (pre ++ key :: post)%list
              (with_history (history w ++ [EvList b key_prefix]) w)
            = (Raise e,
               with_history
                 (history w ++ EvList b key_prefix :: (EvDelete b <$> (pre ++ [key])%list))
                 w)) as Hrun.
    { rewrite (for_each_delete_refused b pre key post e); wsimpl.
      - by rewrite <- app_assoc.
      - intros i k Hi. rewrite <- app_assoc. by apply Hacc.
      - by rewrite <- app_assoc. }
    remember (pre ++ key :: post)%list as objs eqn:Hobjs.
    destruct objs as [|k0 objs]; [by destruct pre|].
    unfold delete_prefix_body, bucket_attr. unfold_M. rewrite Hb. wsimpl.
    rewrite Hlist. wsimpl. rewrite Hrun. wsimpl. done.
  - intros keys Hlist Hne Hacc. rewrite Hcall.
    unfold delete_prefix_body, bucket_attr. unfold_M. rewrite Hb. wsimpl.
    rewrite Hlist. wsimpl. clear Hcall.
    assert (for_each (delete_one b) keys
              (with_history (history w ++ [EvList b key_prefix]) w)
            = (Ok (),
               with_history (history w ++ EvList b key_prefix :: (EvDelete b <$> keys)) w))
      as Hrun.
    { rewrite (for_each_delete_accepted b keys); wsimpl.
      - by rewrite <- app_assoc.
      - intros i k Hi. rewrite <- app_assoc. by apply Hacc. }
    destruct keys as [|k keys]; [done|].
    rewrite Hrun. wsimpl. done.
Qed.



(** On the small deployment: the store refuses the second of four
    objects; the first is deleted, the last two are not asked for. *)
Lemma delete_prefix_stops_at_first_failure_witness :
  let w := session false fragile_store in
  let call := delete_prefix "acic22" w in
  call.1 = Ok (PyExc (ClientError "AccessDenied" "Access Denied"))
  ∧ history call.2
    = deleted_so_far (history w) main_bucket "acic22"
        [ "acic22/truth/truth_0005.parquet"; "acic22/truth/truth_0006.parquet" ].
Proof.
  intros w call.
  destruct (delete_prefix_stops_at_first_failure w main_bucket "acic22")
    as (Hstop & _).
  - vm_compute. by eexists.
  - vm_compute. reflexivity.
  - vm_compute. reflexivity.
  - destruct (Hstop [ "acic22/truth/truth_0005.parquet" ]
                "acic22/truth/truth_0006.parquet"
                [ "acic22/simulations/sim_0001.parquet";
                  "acic22/simulations/sim_0002.parquet" ]
                (ClientError "AccessDenied" "Access Denied"))
      as (Hr & Hh & _).
    + vm_compute. reflexivity.
    + intros [|i] k Hk; [|discriminate Hk]. injection Hk as <-.
      vm_compute. reflexivity.
    + vm_compute. reflexivity.
    + split; [exact Hr|exact Hh].
Defined.

End BackendBehaviour.

(** ** loaders.py: formats, metadata, batches and prefixes *)
Module LoadersBehaviour.
Import Py World Backend Loaders TruthMatcher Run Scenario PyFacts BackendFacts
  LoadersFacts TruthMatcherFacts StringFacts.

Lemma csv_not_parquet (s : string) : ends_with ".parquet" (s +:+ ".csv") = false.
Proof. exact (ends_with_other "t" "v" ".parque" ".cs" s ltac:(done)). Qed.

Lemma json_not_parquet (s : string) : ends_with ".parquet" (s +:+ ".json") = false.
Proof. exact (ends_with_other "t" "n" ".parque" ".jso" s ltac:(done)). Qed.

Lemma json_not_csv (s : string) : ends_with ".csv" (s +:+ ".json") = false.
Proof. exact (ends_with_other "v" "n" ".cs" ".jso" s ltac:(done)). Qed.

(** The name of a simulation file and the key of a truth file end in
    [.parquet], whatever the index and the prefix. *)
Lemma sim_name_parquet (index : Z) :
  ends_with ".parquet" (str_lower ("sim_" +:+ format_04d index +:+ ".parquet")) = true.
Proof.
  rewrite <- append_assoc', str_lower_append. apply ends_with_append.
Qed.

Lemma _truth_key_parquet (index : Z) (prefix : string) :
  ends_with ".parquet" (str_lower (_truth_key index prefix)) = true.
Proof.
  unfold _truth_key. rewrite <- !append_assoc', str_lower_append.
  apply ends_with_append.
Qed.

Section WithLibraries.
Context `{!Pandas}.

(** X8.  The format is chosen by the end of the file name without regard to
    letter case: [.parquet], [.csv] or [.json].  A JSON payload is read as
    JSON lines first and as one JSON document when that fails, and then the
    first error is dropped.  Any other name raises [ValueError] with the
    name as it was given. *)
Theorem _read_file_bytes_by_suffix (data : bytes) :
  (∀ stem ext, str_lower ext = ".parquet" →
     _read_file_bytes data (stem +:+ ext) = read_parquet data)
  ∧ (∀ stem ext, str_lower ext = ".csv" →
       _read_file_bytes data (stem +:+ ext) = read_csv data)
  ∧ (∀ stem ext, str_lower ext = ".json" →
       _read_file_bytes data (stem +:+ ext) =
         match read_json_lines data with
         | Ok df => Ok df
         | Raise _ => read_json data
         end)
  ∧ (∀ filename,
       ends_with ".parquet" (str_lower filename) = false →
       ends_with ".csv" (str_lower filename) = false →
       ends_with ".json" (str_lower filename) = false →
       _read_file_bytes data filename
         = Raise (ValueError ("Unsupported file type: " +:+ filename)))
  ∧ _read_file_bytes data "Table.PARQUET" = read_parquet data
  ∧ _read_file_bytes data "acic22/notes.txt"
      = Raise (ValueError "Unsupported file type: acic22/notes.txt")
  ∧ _read_file_bytes data "parquet"
      = Raise (ValueError "Unsupported file type: parquet").
Proof.
  unfold _read_file_bytes. split; [|split; [|split; [|split; [|split; [|split]]]]].
  - intros stem ext Hext. by rewrite str_lower_append, Hext, ends_with_append.
  - intros stem ext Hext.
    by rewrite str_lower_append, Hext, csv_not_parquet, ends_with_append.
  - intros stem ext Hext.
    by rewrite str_lower_append, Hext, json_not_parquet, json_not_csv, ends_with_append.
  - by intros filename -> -> ->.
  - done.
  - done.
  - done.
Qed.

(** X9.  What [load_file] keeps in the cache is the bytes, not the frame, and
    it reads the name only after the download.  So a key with a name that
    no reader takes is downloaded, and cached, before [ValueError] is
    raised; and every later call parses the cached bytes again, with no
    request. *)
Theorem load_file_parses_after_download key w data w1 :
  _download_file key true w = (Ok data, w1) →
  load_file key true w = (_read_file_bytes data key, w1)
  ∧ _CACHE (loaders w1) !! key = Some data
  ∧ (∀ w2, grows w1 w2 → load_file key true w2 = (_read_file_bytes data key, w2))
  ∧ (ends_with ".parquet" (str_lower key) = false →
     ends_with ".csv" (str_lower key) = false →
     ends_with ".json" (str_lower key) = false →
     load_file key true w = (Raise (ValueError ("Unsupported file type: " +:+ key)), w1)).
Proof.
  intros Hd.
  assert (∀ w0 w0', _download_file key true w0 = (Ok data, w0') →
            load_file key true w0 = (_read_file_bytes data key, w0')) as Hrun.
  { intros w0 w0' H0. unfold load_file. unfold mbind, M_bind. rewrite H0.
    unfold lift. done. }
  split; [by apply Hrun|]. split; [by apply (_download_file_ok key w data w1)|].
  split.
  - intros w2 Hg. apply Hrun. by apply (_download_file_again key w data w1 w2).
  - intros Hp Hc Hj. rewrite (Hrun w w1 Hd). unfold _read_file_bytes.
    by rewrite Hp, Hc, Hj.
Qed.

(** X10.  [load_simulation] asks for the key made of the prefix and
    [sim_NNNN.parquet] and reads the payload as parquet, whatever the
    prefix; two indices never share a key.  It makes sure of a session
    before it looks into the cache: with the bytes cached and a session
    present it sends nothing, and with the bytes cached and no session to
    be had it fails all the same. *)
Theorem load_simulation_parquet index prefix use_cache w :
  let key := prefix +:+ "/" +:+ "sim_" +:+ format_04d index +:+ ".parquet" in
  (∀ w1 data w2,
     _ensure_connected w = (Ok (), w1) →
     _download_file key use_cache w1 = (Ok data, w2) →
     load_simulation index prefix use_cache w = (read_parquet data, w2))
  ∧ (∀ w1 e w2,
       _ensure_connected w = (Ok (), w1) →
       _download_file key use_cache w1 = (Raise e, w2) →
       load_simulation index prefix use_cache w = (Raise e, w2))
  ∧ (∀ e w1,
       _ensure_connected w = (Raise e, w1) →
       load_simulation index prefix use_cache w = (Raise e, w1))
  ∧ (∀ data,
       connected w → _CACHE (loaders w) !! key = Some data →
       load_simulation index prefix true w = (read_parquet data, w))
  ∧ (∀ other,
       prefix +:+ "/" +:+ "sim_" +:+ format_04d other +:+ ".parquet" = key →
       other = index).
Proof.
  intros key.
  assert (∀ data, _read_file_bytes data ("sim_" +:+ format_04d index +:+ ".parquet")
                  = read_parquet data) as Hread.
  { intros data. unfold _read_file_bytes. by rewrite sim_name_parquet. }
  split; [|split; [|split; [|split]]].
  - intros w1 data w2 Hens Hd. unfold load_simulation. unfold mbind, M_bind.
    rewrite Hens. fold key. rewrite Hd. unfold lift. by rewrite Hread.
  - intros w1 e w2 Hens Hd. unfold load_simulation. unfold mbind, M_bind.
    rewrite Hens. fold key. by rewrite Hd.
  - intros e w1 Hens. unfold load_simulation. unfold mbind, M_bind. by rewrite Hens.
  - intros data Hc Hhit. unfold load_simulation. unfold mbind, M_bind.
    rewrite (_ensure_connected_noop w Hc). fold key.
    rewrite (_download_file_hit key data w Hhit). unfold lift. by rewrite Hread.
  - intros other Hkey. unfold key in Hkey.
    apply (inj (append prefix)) in Hkey.
    apply (inj (append "/")) in Hkey.
    apply (inj (append "sim_")) in Hkey.
    apply append_inv_tail in Hkey. by apply format_04d_inj.
Qed.

(** X11.  The key of a truth file: the prefix without the slashes around it,
    [truth_NNNN.parquet] after one slash.  Two indices never share a key,
    and the key is read as parquet. *)
Theorem _truth_key_distinct prefix :
  (∀ i j, _truth_key i prefix = _truth_key j prefix → i = j)
  ∧ (∀ i data, _read_file_bytes data (_truth_key i prefix) = read_parquet data)
  ∧ (∀ i p, str_strip_slash p = str_strip_slash prefix →
       _truth_key i p = _truth_key i prefix)
  ∧ _truth_key 12 "//acic22/truth/" = "acic22/truth/truth_0012.parquet"
  ∧ _truth_key 12345 EmptyString = "/truth_12345.parquet".
Proof.
  split; [|split; [|split; [|split]]].
  - intros i j Hkey. unfold _truth_key in Hkey.
    apply (inj (append (str_strip_slash prefix))) in Hkey.
    apply (inj (append "/")) in Hkey.
    apply (inj (append "truth_")) in Hkey.
    apply append_inv_tail in Hkey. by apply format_04d_inj.
  - intros i data. unfold _read_file_bytes. by rewrite _truth_key_parquet.
  - intros i p Hp. unfold _truth_key. by rewrite Hp.
  - done.
  - done.
Qed.

(** X12.  [load_truth] needs no session for a file whose bytes are cached: it
    does not call [_ensure_connected] itself, and the download it would
    make is the one place that does.  The payload is always read as
    parquet. *)
Theorem load_truth_from_cache index prefix w :
  (∀ data, _CACHE (loaders w) !! _truth_key index prefix = Some data →
     load_truth index prefix true w = (read_parquet data, w))
  ∧ (∀ use_cache data w1,
       _download_file (_truth_key index prefix) use_cache w = (Ok data, w1) →
       load_truth index prefix use_cache w = (read_parquet data, w1))
  ∧ (∀ use_cache e w1,
       _download_file (_truth_key index prefix) use_cache w = (Raise e, w1) →
       load_truth index prefix use_cache w = (Raise e, w1)).
Proof.
  assert (∀ data, _read_file_bytes data (_truth_key index prefix) = read_parquet data)
    as Hread.
  { intros data. unfold _read_file_bytes. by rewrite _truth_key_parquet. }
  split; [|split].
  - intros data Hhit. unfold load_truth, load_file. unfold mbind, M_bind.
    rewrite (_download_file_hit _ data w Hhit). unfold lift. by rewrite Hread.
  - intros use_cache data w1 Hd. unfold load_truth, load_file. unfold mbind, M_bind.
    rewrite Hd. unfold lift. by rewrite Hread.
  - intros use_cache e w1 Hd. unfold load_truth, load_file. unfold mbind, M_bind.
    by rewrite Hd.
Qed.

End WithLibraries.

Lemma load_simulation_parquet_witness :
  (@load_simulation plain_pandas 2 DEFAULT_SIM_PREFIX true fresh).1 = Ok [Byte.x02].
Proof.
  destruct (@load_simulation_parquet plain_pandas 2 DEFAULT_SIM_PREFIX true fresh)
    as (Hok & _).
  rewrite (Hok (_ensure_connected fresh).2 [Byte.x02]
             (_download_file "acic22/simulations/sim_0002.parquet" true
                (_ensure_connected fresh).2).2).
  - reflexivity.
  - vm_compute. reflexivity.
  - vm_compute. reflexivity.
Defined.

Lemma load_file_parses_after_download_witness :
  let first := @load_file plain_pandas "acic22/truth/truth_0005.parquet" true fresh in
  first.1 = Ok [Byte.x05]
  ∧ @load_file plain_pandas "acic22/truth/truth_0005.parquet" true first.2
    = (Ok [Byte.x05], first.2).
Proof.
  intros first.
  destruct (@load_file_parses_after_download plain_pandas
              "acic22/truth/truth_0005.parquet" fresh [Byte.x05] first.2)
    as (Hfirst & _ & Hagain & _).
  - vm_compute. reflexivity.
  - split.
    + unfold first. rewrite Hfirst. reflexivity.
    + rewrite (Hagain first.2 (grows_refl _)). reflexivity.
Defined.

(** Indexing a list of records by a field: the two loops of
    [_load_acic22_metadata] and [_load_dgp_info] have this shape. *)
Section IndexBy.
Variable field : json_rec → option Z.
Variable msg : string.
Variable index_by : list json_rec → gmap Z json_rec → result (gmap Z json_rec).
Hypothesis index_by_nil : ∀ m, index_by [] m = Ok m.
Hypothesis index_by_cons : ∀ rec recs m,
  index_by (rec :: recs) m =
    match field rec with
    | None => Raise (ValueError msg)
    | Some i => index_by recs (<[i := rec]> m)
    end.

Lemma last_with_cons i rec recs :
  last_with field i (rec :: recs) =
    match last_with field i recs with
    | Some r => Some r
    | None => if decide (field rec = Some i) then Some rec else None
    end.
Proof.
  unfold last_with. destruct (decide (field rec = Some i)) as [Hi|Hi].
  - rewrite filter_cons_True by done.
    destruct (filter _ recs) as [|r rs] eqn:Hf; [done|].
    change (last (rec :: r :: rs)) with (last (r :: rs)).
    destruct (last (r :: rs)) eqn:Hl; [done|].
    by apply last_None in Hl.
  - rewrite filter_cons_False by done. by destruct (last _).
Qed.

Lemma index_by_ok recs m0 :
  Forall (λ rec, is_Some (field rec)) recs →
  ∃ m, index_by recs m0 = Ok m
       ∧ ∀ i, m !! i = match last_with field i recs with
                       | Some r => Some r
                       | None => m0 !! i
                       end.
Proof.
  intros Hall. revert m0. induction Hall as [|rec recs [j Hj] _ IH]; intros m0.
  - exists m0. by rewrite index_by_nil.
  - rewrite index_by_cons, Hj. destruct (IH (<[j := rec]> m0)) as (m & -> & Hm).
    exists m. split; [done|]. intros i. rewrite Hm, last_with_cons.
    destruct (last_with field i recs); [done|]. rewrite Hj.
    destruct (decide (Some j = Some i)) as [[= ->]|Hne].
    + by rewrite lookup_insert_eq.
    + rewrite lookup_insert_ne; [done|]. by intros ->.
Qed.

Lemma index_by_missing recs m0 :
  ¬ Forall (λ rec, is_Some (field rec)) recs →
  index_by recs m0 = Raise (ValueError msg).
Proof.
  revert m0. induction recs as [|rec recs IH]; intros m0 Hn.
  - by destruct Hn.
  - rewrite index_by_cons. destruct (field rec) as [j|] eqn:Hj; [|done].
    apply IH. intros Hall. apply Hn. constructor; [by eexists|done].
Qed.

End IndexBy.

(** A download with caching off writes neither cache. *)
Lemma _download_file_uncached_loaders key w r w' :
  _download_file key false w = (r, w') → loaders w' = loaders w.
Proof.
  rewrite _download_file_miss by done.
  destruct (_ensure_connected w) as [[[]|e0] w0] eqn:Hens;
    apply _ensure_connected_effect in Hens as ((Hl & _) & _).
  - destruct (_BUCKET (backend w0)); [|by intros [= <- <-]].
    destruct (download_fileobj _ _ _ _); intros [= <- <-]; by wsimpl.
  - by intros [= <- <-].
Qed.

Section WithJson.
Context `{!Json}.

(** X13.  [_load_acic22_metadata] returns the index of a document that is a list
    of records each carrying [index]: the index holds exactly the numbers
    that occur, and for a number that occurs twice the later record.  A
    document that is not a list and a record without [index] raise
    [ValueError]; with caching on, the document that was refused stays in
    the cache of parsed documents. *)
Theorem _load_acic22_metadata_index source use_cache w obj w1 :
  _read_json_source source use_cache w = (Ok obj, w1) →
  let call := _load_acic22_metadata source use_cache w in
  call.2 = w1
  ∧ (use_cache = true → _META_CACHE (loaders w1) !! source = Some obj)
  ∧ (∀ recs, obj = JList recs →
       Forall (λ rec, is_Some (rec_index rec)) recs →
       ∃ meta, call.1 = Ok meta
               ∧ (∀ i, meta !! i = last_with rec_index i recs)
               ∧ (∀ i, is_Some (meta !! i) ↔ ∃ rec, rec ∈ recs ∧ rec_index rec = Some i))
  ∧ (∀ recs, obj = JList recs →
       ¬ Forall (λ rec, is_Some (rec_index rec)) recs →
       call.1 = Raise (ValueError "ACIC22 metadata record missing 'index'."))
  ∧ (∀ dgps, obj = JDict dgps →
       call.1 = Raise (ValueError "ACIC22 metadata JSON must be a list. Got: <class 'dict'>")).
Proof.
  intros Hread call.
  assert (call = (metadata_of_doc obj, w1)) as ->.
  { unfold call, _load_acic22_metadata. unfold mbind, M_bind. by rewrite Hread. }
  cbn [fst snd]. split; [done|]. split.
  { intros ->. by apply (_read_json_source_effect source true w (Ok obj) w1). }
  split; [|split].
  - intros recs -> Hall. cbn [metadata_of_doc].
    destruct (index_by_ok rec_index "ACIC22 metadata record missing 'index'."
                index_records (λ _, eq_refl) (λ _ _ _, eq_refl) recs ∅ Hall)
      as (meta & -> & Hm).
    exists meta. split; [done|].
    assert (∀ i, meta !! i = last_with rec_index i recs) as Hlook.
    { intros i. rewrite Hm. destruct (last_with rec_index i recs); [done|].
      apply lookup_empty. }
    split; [done|]. intros i. rewrite Hlook. unfold last_with. split.
    + intros [r Hr]. apply last_Some_elem_of in Hr.
      apply list_elem_of_filter in Hr as [Hi Hr]. eauto.
    + intros (rec & Hrec & Hi).
      destruct (last (filter (λ rec, rec_index rec = Some i) recs)) eqn:Hl; [by eexists|].
      apply last_None in Hl.
      assert (rec ∈ filter (λ rec, rec_index rec = Some i) recs) as Hin
        by by apply list_elem_of_filter.
      rewrite Hl in Hin. by apply elem_of_nil in Hin.
  - intros recs -> Hn. cbn [metadata_of_doc].
    by apply (index_by_missing rec_index _ index_records (λ _ _ _, eq_refl)).
  - by intros dgps ->.
Qed.

(** X14.  [_load_dgp_info] returns the index of a document that is a dict whose
    entry [dgps] is a list of records each carrying [dgp], with the later
    record for a generator that occurs twice.  Its three [ValueError]s tell
    apart a document without the entry, an entry that is not a list, and a
    record without [dgp]. *)
Theorem _load_dgp_info_index source use_cache w obj w1 :
  _read_json_source source use_cache w = (Ok obj, w1) →
  let call := _load_dgp_info source use_cache w in
  call.2 = w1
  ∧ (∀ recs, obj = JDict (DgpsList recs) →
       Forall (λ rec, is_Some (rec_dgp rec)) recs →
       ∃ info, call.1 = Ok info
               ∧ (∀ g, info !! g = last_with rec_dgp g recs)
               ∧ (∀ g, is_Some (info !! g) ↔ ∃ rec, rec ∈ recs ∧ rec_dgp rec = Some g))
  ∧ (∀ recs, obj = JDict (DgpsList recs) →
       ¬ Forall (λ rec, is_Some (rec_dgp rec)) recs →
       call.1 = Raise (ValueError "DGP record missing 'dgp'."))
  ∧ (obj = JDict DgpsOther →
       call.1 = Raise (ValueError "DGP info JSON field 'dgps' must be a list."))
  ∧ ((obj = JDict DgpsAbsent ∨ (∀ dgps, obj ≠ JDict dgps)) →
       call.1 = Raise (ValueError "DGP info JSON must be a dict containing key 'dgps'.")).
Proof.
  intros Hread call.
  assert (call = (dgp_info_of_doc obj, w1)) as ->.
  { unfold call, _load_dgp_info. unfold mbind, M_bind. by rewrite Hread. }
  cbn [fst snd]. split; [done|]. split; [|split; [|split]].
  - intros recs -> Hall. cbn [dgp_info_of_doc].
    destruct (index_by_ok rec_dgp "DGP record missing 'dgp'."
                index_dgps (λ _, eq_refl) (λ _ _ _, eq_refl) recs ∅ Hall)
      as (info & -> & Hm).
    exists info. split; [done|].
    assert (∀ g, info !! g = last_with rec_dgp g recs) as Hlook.
    { intros g. rewrite Hm. destruct (last_with rec_dgp g recs); [done|].
      apply lookup_empty. }
    split; [done|]. intros g. rewrite Hlook. unfold last_with. split.
    + intros [r Hr]. apply last_Some_elem_of in Hr.
      apply list_elem_of_filter in Hr as [Hi Hr]. eauto.
    + intros (rec & Hrec & Hi).
      destruct (last (filter (λ rec, rec_dgp rec = Some g) recs)) eqn:Hl; [by eexists|].
      apply last_None in Hl.
      assert (rec ∈ filter (λ rec, rec_dgp rec = Some g) recs) as Hin
        by by apply list_elem_of_filter.
      rewrite Hl in Hin. by apply elem_of_nil in Hin.
  - intros recs -> Hn. cbn [dgp_info_of_doc].
    by apply (index_by_missing rec_dgp _ index_dgps (λ _ _ _, eq_refl)).
  - by intros ->.
  - intros [->|Hn]; [done|]. destruct obj as [recs|dgps|t]; [done| |done].
    by destruct (Hn dgps).
Qed.

(** X15.  [_read_json_source] takes a source that names a local file from the
    disk, without a session and without a request, and only otherwise
    from the bucket.  A document that is in the cache of parsed documents
    wins over both.  With caching on, a document from the bucket ends up
    in both caches, as bytes and parsed; with caching off neither cache is
    written, whatever the outcome. *)
Theorem _read_json_source_local_first source w :
  (∀ obj, _META_CACHE (loaders w) !! source = Some obj →
     _read_json_source source true w = (Ok obj, w))
  ∧ (∀ use_cache,
       (use_cache = true → _META_CACHE (loaders w) !! source = None) →
       path_exists (files w) source = true →
       let call := _read_json_source source use_cache w in
       call.1 = read_json_file (files w) source
       ∧ history call.2 = history w
       ∧ backend call.2 = backend w
       ∧ _CACHE (loaders call.2) = _CACHE (loaders w)
       ∧ (∀ obj, call.1 = Ok obj → use_cache = true →
            _META_CACHE (loaders call.2) = <[source := obj]> (_META_CACHE (loaders w)))
       ∧ (∀ e, call.1 = Raise e → call.2 = w))
  ∧ (∀ raw w1 obj,
       _META_CACHE (loaders w) !! source = None →
       path_exists (files w) source = false →
       _download_file source true w = (Ok raw, w1) →
       decode_and_parse raw = Ok obj →
       let call := _read_json_source source true w in
       call.1 = Ok obj
       ∧ _CACHE (loaders call.2) !! source = Some raw
       ∧ _META_CACHE (loaders call.2) !! source = Some obj)
  ∧ (∀ r w', _read_json_source source false w = (r, w') → loaders w' = loaders w).
Proof.
  split; [|split; [|split]].
  - intros obj Hhit. by apply _read_json_source_hit.
  - intros use_cache Hmiss Hlocal call. unfold call, _read_json_source.
    unfold_M. rewrite Hlocal.
    assert ((if use_cache then _META_CACHE (loaders w) !! source else None) = None)
      as ->.
    { destruct use_cache; [by apply Hmiss|done]. }
    destruct (read_json_file (files w) source) as [obj|e]; wsimpl.
    + destruct use_cache; unfold set_META_CACHE; unfold_M; wsimpl;
        repeat split; try done; try (by intros ? [=]); by intros ? [= <-].
    + repeat split; try done; by intros ? [=].
  - intros raw w1 obj Hmiss Hremote Hd Hparse call.
    pose proof (_download_file_ok source w raw w1 Hd) as (Hraw & _).
    pose proof (_download_file_grows source true w (Ok raw) w1 Hd) as (_ & Hmeta).
    unfold call, _read_json_source. unfold_M. rewrite Hmiss, Hremote.
    rewrite Hd. wsimpl. rewrite Hparse. wsimpl.
    unfold set_META_CACHE. unfold_M. wsimpl.
    split; [done|]. split; [done|]. by rewrite lookup_insert_eq.
  - intros r w'. unfold _read_json_source. unfold_M. wsimpl.
    destruct (path_exists (files w) source).
    + destruct (read_json_file (files w) source); wsimpl; by intros [= <- <-].
    + destruct (_download_file source false w) as [[raw|e] w1] eqn:Hd;
        apply _download_file_uncached_loaders in Hd.
      * wsimpl. destruct (decode_and_parse raw); wsimpl; by intros [= <- <-].
      * by intros [= <- <-].
Qed.

End WithJson.

Lemma _load_acic22_metadata_index_witness :
  ∃ meta,
    (@_load_acic22_metadata plain_json DEFAULT_ACIC22_METADATA true fresh).1 = Ok meta
    ∧ meta !! 2 = Some (sim_record 2 20) ∧ meta !! 3 = None.
Proof.
  destruct (@_load_acic22_metadata_index plain_json DEFAULT_ACIC22_METADATA true fresh
              metadata_doc
              (@_read_json_source plain_json DEFAULT_ACIC22_METADATA true fresh).2)
    as (_ & _ & Hok & _).
  - vm_compute. reflexivity.
  - destruct (Hok [sim_record 1 10; sim_record 2 20] eq_refl)
      as (meta & Hcall & Hlook & _).
    + repeat constructor; by eexists.
    + exists meta. split; [exact Hcall|]. rewrite !Hlook. split; vm_compute; reflexivity.
Defined.

Lemma _load_dgp_info_index_witness :
  ∃ info,
    (@_load_dgp_info plain_json DEFAULT_ACIC22_DGP_INFO true fresh).1 = Ok info
    ∧ info !! 10 = Some (dgp_record 10 "easy") ∧ info !! 30 = None.
Proof.
  destruct (@_load_dgp_info_index plain_json DEFAULT_ACIC22_DGP_INFO true fresh
              dgp_info_doc
              (@_read_json_source plain_json DEFAULT_ACIC22_DGP_INFO true fresh).2)
    as (_ & Hok & _).
  - vm_compute. reflexivity.
  - destruct (Hok [dgp_record 10 "easy"; dgp_record 20 "hard"] eq_refl)
      as (info & Hcall & Hlook & _).
    + repeat constructor; by eexists.
    + exists info. split; [exact Hcall|]. rewrite !Hlook. split; vm_compute; reflexivity.
Defined.


Section WithJson.
Context `{!Json}.

(** X16.  The selections by tier divide the index: what a tier selects is part
    of what [all] selects, which is what no label selects; two labels that
    are the same after stripping select the same; and two different tiers
    never select a common simulation. *)
Theorem difficulty_tiers_partition msrc dsrc use_cache w d1 d2 l1 w1 l2 w2 every w3 :
  _indices_for_difficulty (Some d1) msrc dsrc use_cache w = (Ok l1, w1) →
  _indices_for_difficulty (Some d2) msrc dsrc use_cache w = (Ok l2, w2) →
  _indices_for_difficulty None msrc dsrc use_cache w = (Ok every, w3) →
  l1 ⊆ every
  ∧ (str_strip d1 = "all" → l1 = every)
  ∧ (str_strip d1 = str_strip d2 → l1 = l2)
  ∧ (str_strip d1 ≠ "all" → str_strip d2 ≠ "all" → str_strip d1 ≠ str_strip d2 →
     ∀ i, i ∈ l1 → i ∉ l2).
Proof.
  intros H1 H2 H3.
  apply _indices_for_difficulty_inv in H1 as (meta & wa & info & t1 & Hm & Hi & Ht1 & ->).
  apply _indices_for_difficulty_inv in H2 as (meta2 & wa2 & info2 & t2 & Hm2 & Hi2 & Ht2 & ->).
  apply _indices_for_difficulty_inv in H3 as (meta3 & wa3 & info3 & t3 & Hm3 & Hi3 & Ht3 & ->).
  rewrite Hm in Hm2, Hm3. injection Hm2 as <- <-. injection Hm3 as <- <-.
  rewrite Hi in Hi2, Hi3. injection Hi2 as <- <-. injection Hi3 as <- <-.
  cbn [_difficulty_to_tiers] in Ht3. injection Ht3 as <-.
  unfold _difficulty_to_tiers in Ht1, Ht2.
  destruct (decide (str_strip d1 ∈ VALID_DIFFICULTIES)) as [Hv1|]; [|done].
  destruct (decide (str_strip d2 ∈ VALID_DIFFICULTIES)) as [Hv2|]; [|done].
  split; [|split; [|split]].
  - intros i. destruct t1 as [ts|]; [|done].
    rewrite elem_of_select_tiers, elem_of_select_all.
    intros (rec & g & grec & t & Hrec & _). by eexists.
  - intros Hall. destruct (decide (str_strip d1 = "all")); [|done]. by injection Ht1 as <-.
  - intros Heq. rewrite <- Heq in Ht2.
    destruct (decide (str_strip d1 = "all")); congruence.
  - intros Hn1 Hn2 Hne i.
    destruct (decide (str_strip d1 = "all")); [done|].
    destruct (decide (str_strip d2 = "all")); [done|].
    injection Ht1 as <-. injection Ht2 as <-.
    rewrite !elem_of_select_tiers.
    intros (rec & g & grec & t & Hrec & Hg & Hgrec & Ht & Hin)
           (rec' & g' & grec' & t' & Hrec' & Hg' & Hgrec' & Ht' & Hin').
    apply elem_of_singleton in Hin, Hin'. congruence.
Qed.

End WithJson.

Section WithLibraries.
Context `{!Pandas, !Json}.




(** X18.  [load_by_difficulty] returns the simulations that the label selects:
    the keys of the result are the eligible indices, in ascending order.
    The label is looked at only after both metadata documents were read,
    and before any simulation is asked for. *)
Theorem load_by_difficulty_keys difficulty prefix use_cache msrc dsrc w :
  (∀ out w',
     load_by_difficulty difficulty prefix use_cache msrc dsrc w = (Ok out, w') →
     ∃ eligible w1,
       _indices_for_difficulty (Some difficulty) msrc dsrc use_cache w = (Ok eligible, w1)
       ∧ load_simulations eligible prefix use_cache msrc w1 = (Ok out, w')
       ∧ dict_keys out = eligible
       ∧ StronglySorted Z.lt (dict_keys out)
       ∧ str_strip difficulty ∈ VALID_DIFFICULTIES)
  ∧ (∀ meta w1 dgp_info w2,
       _load_acic22_metadata msrc use_cache w = (Ok meta, w1) →
       _load_dgp_info dsrc use_cache w1 = (Ok dgp_info, w2) →
       str_strip difficulty ∉ VALID_DIFFICULTIES →
       load_by_difficulty difficulty prefix use_cache msrc dsrc w
         = (Raise (ValueError (msg_invalid_difficulty difficulty)), w2))
  ∧ (∀ e w1,
       _load_acic22_metadata msrc use_cache w = (Raise e, w1) →
       load_by_difficulty difficulty prefix use_cache msrc dsrc w = (Raise e, w1)).
Proof.
  split; [|split].
  - intros out w' Hrun. unfold load_by_difficulty in Hrun.
    apply bind_inv_ok in Hrun as (eligible & w1 & Hsel & Hload).
    exists eligible, w1. split; [done|]. split; [done|].
    pose proof (_indices_for_difficulty_inv _ _ _ _ _ _ _ Hsel)
      as (meta & wa & info & tiers & _ & _ & Ht & ->).
    pose proof (select_indices_ascending tiers meta info) as Hasc.
    assert (dict_keys out = select_indices tiers meta info) as Hk.
    { apply (load_simulations_keys _ _ _ _ _ _ _ (StronglySorted_NoDup_lt _ Hasc) Hload). }
    split; [done|]. split; [by rewrite Hk|].
    unfold _difficulty_to_tiers in Ht. by destruct (decide (_ ∈ _)).
  - intros meta w1 dgp_info w2 Hm Hi Hbad.
    unfold load_by_difficulty, _indices_for_difficulty. unfold mbind, M_bind.
    rewrite Hm, Hi. unfold lift, _difficulty_to_tiers.
    by destruct (decide (_ ∈ _)).
  - intros e w1 Hm.
    unfold load_by_difficulty, _indices_for_difficulty. unfold mbind, M_bind.
    by rewrite Hm.
Qed.

(** X19.  Each of the five wrappers returns the simulations of its own tier and
    of no other: a key is in the result exactly when its record names a
    generator whose record carries that very tier, so [load_easy] leaves
    out what is [very_easy]. *)
Theorem tier_wrappers_exact prefix use_cache msrc dsrc w meta w1 dgp_info w2 :
  _load_acic22_metadata msrc use_cache w = (Ok meta, w1) →
  _load_dgp_info dsrc use_cache w1 = (Ok dgp_info, w2) →
  let of_tier (tier : string) (out : list (Z * frame)) :=
    ∀ i, i ∈ dict_keys out ↔
           ∃ rec g grec,
             meta !! i = Some rec ∧ rec_dgp rec = Some g
             ∧ dgp_info !! g = Some grec ∧ rec_difficulty_tier grec = Some tier in
  (∀ out w', load_very_easy prefix use_cache msrc dsrc w = (Ok out, w') →
     of_tier "very_easy" out)
  ∧ (∀ out w', load_easy prefix use_cache msrc dsrc w = (Ok out, w') →
       of_tier "easy" out)
  ∧ (∀ out w', load_medium prefix use_cache msrc dsrc w = (Ok out, w') →
       of_tier "medium" out)
  ∧ (∀ out w', load_hard prefix use_cache msrc dsrc w = (Ok out, w') →
       of_tier "hard" out)
  ∧ (∀ out w', load_very_hard prefix use_cache msrc dsrc w = (Ok out, w') →
       of_tier "very_hard" out).
Proof.
  intros Hm Hi of_tier.
  assert (∀ tier out w',
            _difficulty_to_tiers (Some tier) = Ok (Some {[ tier ]}) →
            load_by_difficulty tier prefix use_cache msrc dsrc w = (Ok out, w') →
            of_tier tier out) as Hgen.
  { intros tier out w' Ht Hrun. unfold load_by_difficulty in Hrun.
    apply bind_inv_ok in Hrun as (eligible & wa & Hsel & Hload).
    rewrite (_indices_for_difficulty_run _ _ _ _ _ _ _ _ _ _ Hm Hi Ht) in Hsel.
    injection Hsel as <- <-.
    pose proof (select_indices_ascending (Some {[ tier ]}) meta dgp_info) as Hasc.
    unfold of_tier.
    rewrite (load_simulations_keys _ _ _ _ _ _ _ (StronglySorted_NoDup_lt _ Hasc) Hload).
    intros i. rewrite elem_of_select_tiers. split.
    - intros (rec & g & grec & t & ? & ? & ? & ? & ->%elem_of_singleton).
      by exists rec, g, grec.
    - intros (rec & g & grec & ? & ? & ? & ?). exists rec, g, grec, tier.
      repeat split; try done. by apply elem_of_singleton. }
  split; [|split; [|split; [|split]]]; intros out w'; by apply Hgen.
Qed.

End WithLibraries.

Lemma reads_only_refl w : reads_only w w.
Proof.
  split; [apply grows_refl|]. split; [done|]. exists []. by rewrite app_nil_r.
Qed.

Lemma reads_only_trans w1 w2 w3 : reads_only w1 w2 → reads_only w2 w3 → reads_only w1 w3.
Proof.
  intros (Hg1 & Hw1 & m1 & Ho1) (Hg2 & Hw2 & m2 & Ho2).
  split; [by eapply grows_trans|]. split; [by rewrite Hw2|].
  exists (m1 ++ m2)%list. by rewrite Ho2, Ho1, app_assoc.
Qed.

Lemma connect_s3_stdout bucket_name endpoint_key read_only w r w' :
  connect_s3 bucket_name endpoint_key read_only w = (r, w') →
  ∃ more, stdout w' = (stdout w ++ more)%list.
Proof.
  unfold connect_s3, create_resource, probe_handler,
    set_READ_ONLY, set_ACTIVE_ENDPOINT, set_S3, set_BUCKET.
  unfold_M. wsimpl. intros H.
  repeat case_match; simplify_eq; wsimpl;
    first [by exists []; rewrite app_nil_r | by eexists].
Qed.

Lemma _ensure_connected_reads w r w' :
  _ensure_connected w = (r, w') → reads_only w w'.
Proof.
  intros H. split; [by eapply _ensure_connected_grows|].
  pose proof (_ensure_connected_effect _ _ _ H) as (_ & Hp & _).
  split; [by apply probes_no_write|].
  destruct (decide (connected w)) as [Hc|Hn].
  - rewrite (_ensure_connected_noop w Hc) in H. injection H as <- <-.
    exists []. by rewrite app_nil_r.
  - rewrite (_ensure_connected_auto w Hn) in H.
    destruct (connect_s3 "cidl-test" "primary" true w) as [[v|e] w1] eqn:Hcon;
      injection H as <- <-; by eapply connect_s3_stdout.
Qed.

Lemma _download_file_reads key use_cache w r w' :
  _download_file key use_cache w = (r, w') → reads_only w w'.
Proof.
  intros H. split; [by eapply _download_file_grows|].
  destruct (download_file_cases key use_cache w) as [(data & -> & Hhit)|Hmiss].
  - rewrite (_download_file_hit key data w Hhit) in H. injection H as <- <-.
    split; [done|]. exists []. by rewrite app_nil_r.
  - rewrite (_download_file_miss key use_cache w Hmiss) in H.
    destruct (_ensure_connected w) as [[[]|e] w1] eqn:Hens;
      apply _ensure_connected_reads in Hens as (_ & Hw & more & Hout).
    + destruct (_BUCKET (backend w1)) as [b|]; [|injection H as <- <-; eauto].
      destruct (download_fileobj _ _ _ _) as [data|e]; injection H as <- <-.
      * destruct use_cache; unfold after_request; wsimpl;
          (split; [rewrite filter_app, Hw; cbn; by rewrite app_nil_r|eauto]).
      * unfold after_request; wsimpl.
        split; [rewrite filter_app, Hw; cbn; by rewrite app_nil_r|eauto].
    + injection H as <- <-. eauto.
Qed.

Lemma reads_only_print line w : reads_only w (with_stdout (stdout w ++ [line]) w).
Proof.
  split; [|split; [done|by eexists]].
  unfold grows. wsimpl. by split_and!.
Qed.

Section WithLibraries.
Context `{!Pandas}.

(** One round of the loop of [load_prefix] always returns: the key is in
    the result, or its failure is on the standard output. *)
Lemma load_listed_one_run use_cache key out w :
  ∃ out' w',
    load_listed_one use_cache key out w = (Ok out', w')
    ∧ reads_only w w'
    ∧ ((∃ df, out' = <[key := df]> out
              ∧ (use_cache = true → is_Some (_CACHE (loaders w') !! key)))
       ∨ (out' = out ∧ ∃ e, failure_line key e ∈ stdout w')).
Proof.
  unfold load_listed_one, load_file. unfold try_except, mbind, M_bind at 1.
  unfold mbind, M_bind.
  destruct (_download_file key use_cache w) as [[data|e] w1] eqn:Hd;
    pose proof (_download_file_reads _ _ _ _ _ Hd) as Hr.
  - unfold lift. destruct (_read_file_bytes data key) as [df|e].
    + unfold mret, M_ret. eexists _, _. split; [done|]. split; [done|].
      left. exists df. split; [done|]. intros ->.
      exists data. by apply (_download_file_ok key w data w1).
    + unfold print, modify, mret, M_ret. eexists _, _. split; [done|].
      split; [eapply reads_only_trans; [done|apply reads_only_print]|].
      right. split; [done|]. exists e. wsimpl. apply elem_of_app. right. by left.
  - unfold print, modify, mret, M_ret. eexists _, _. split; [done|].
    split; [eapply reads_only_trans; [done|apply reads_only_print]|].
    right. split; [done|]. exists e. wsimpl. apply elem_of_app. right. by left.
Qed.

Lemma load_listed_run use_cache keys out w :
  ∃ out' w',
    load_listed use_cache keys out w = (Ok out', w')
    ∧ reads_only w w'
    ∧ (∀ key, key ∈ dom out' → key ∈ dom out ∨ key ∈ keys)
    ∧ (∀ key, key ∈ dom out → key ∈ dom out')
    ∧ (∀ key, key ∈ keys → key ∈ dom out' ∨ ∃ e, failure_line key e ∈ stdout w')
    ∧ (use_cache = true →
       (∀ key, key ∈ dom out → is_Some (_CACHE (loaders w) !! key)) →
       ∀ key, key ∈ dom out' → is_Some (_CACHE (loaders w') !! key)).
Proof.
  revert out w. induction keys as [|k keys IH]; intros out w.
  - exists out, w. cbn [load_listed]. split; [done|]. split; [apply reads_only_refl|].
    split; [by left|]. split; [done|]. split; [by intros ? ?%elem_of_nil|]. done.
  - cbn [load_listed]. unfold mbind, M_bind.
    destruct (load_listed_one_run use_cache k out w) as (out1 & w1 & -> & Hr1 & Hone).
    destruct (IH out1 w1) as (out' & w' & -> & Hr & Hsub & Hkeep & Hall & Hcache).
    exists out', w'. split; [done|].
    split; [by eapply reads_only_trans|].
    assert (∀ key, key ∈ dom out1 ↔ key ∈ dom out ∨ (key = k ∧ k ∈ dom out1)) as Hdom1.
    { intros key. destruct Hone as [(df & -> & _)|[-> _]].
      - rewrite dom_insert, elem_of_union, elem_of_singleton.
        split; [intros [->|?]; [right; split; [done|set_solver]|by left]|].
        intros [?|[-> _]]; [by right|by left].
      - split; [by left|]. by intros [?|[-> ?]]. }
    split; [|split; [|split]].
    + intros key Hkey. destruct (Hsub key Hkey) as [H1|H1]; [|right; by right].
      apply Hdom1 in H1 as [?|[-> _]]; [by left|right; by left].
    + intros key Hkey. apply Hkeep, Hdom1. by left.
    + intros key [->|Hin]%elem_of_cons; [|by apply Hall].
      destruct Hone as [(df & -> & _)|[-> (e & Hline)]].
      * left. apply Hkeep. set_solver.
      * right. exists e. destruct Hr as (_ & _ & more & ->).
        apply elem_of_app. by left.
    + intros -> Hin key Hkey. apply (Hcache eq_refl); [|done].
      intros key1 Hkey1. apply Hdom1 in Hkey1 as [Hold|[-> Hnew]].
      * destruct (Hin key1 Hold) as [data Hdata]. exists data.
        destruct Hr1 as ((Hc & _) & _). by apply (lookup_weaken _ _ _ _ Hdata Hc).
      * destruct Hone as [(df & _ & Hc)|[-> _]]; [by apply Hc|].
        destruct (Hin k Hnew) as [data Hdata]. exists data.
        destruct Hr1 as ((Hc & _) & _). by apply (lookup_weaken _ _ _ _ Hdata Hc).
Qed.

(** X20.  Once the listing is made, [load_prefix] does not raise: every key of
    the listing within the limit ends up in the result or, with its
    exception, on the standard output, and the result holds no other key.
    A negative limit leaves out keys from the end of the listing.  No
    write is sent, and with caching on the bytes of every key of the
    result are in the cache afterwards.  A listing that fails is the one
    thing that makes the call raise. *)
Theorem load_prefix_isolates_failures prefix limit use_cache w b :
  connected w →
  _BUCKET (backend w) = Some b →
  let call := load_prefix prefix limit use_cache w in
  (∀ keys,
     objects_filter (remote w) (history w) b prefix = Ok keys →
     let wanted := match limit with
                   | Some n => slice_to n keys
                   | None => keys
                   end in
     ∃ out,
       call.1 = Ok out
       ∧ (∀ key, key ∈ dom out → key ∈ wanted)
       ∧ (∀ key, key ∈ wanted →
            key ∈ dom out ∨ ∃ e, failure_line key e ∈ stdout call.2)
       ∧ filter is_write (history call.2) = filter is_write (history w)
       ∧ (use_cache = true →
          ∀ key, key ∈ dom out → is_Some (_CACHE (loaders call.2) !! key))
       ∧ wanted `prefix_of` keys
       ∧ (∀ n, limit = Some n → 0 ≤ n → Z.of_nat (length wanted) ≤ n)
       ∧ (∀ n, limit = Some n → n < 0 →
            length wanted = (length keys - Z.to_nat (- n))%nat))
  ∧ (∀ e, objects_filter (remote w) (history w) b prefix = Raise e →
       call = (Raise e, after_request (EvList b prefix) w)).
Proof.
  intros Hc Hb call. split.
  - intros keys Hlist wanted.
    assert (call = load_listed use_cache wanted ∅ (after_request (EvList b prefix) w))
      as ->.
    { unfold call, load_prefix. unfold mbind, M_bind at 1.
      rewrite (_ensure_connected_noop w Hc).
      unfold bucket_attr, after_request. unfold_M. rewrite Hb. wsimpl.
      by rewrite Hlist. }
    destruct (load_listed_run use_cache wanted ∅ (after_request (EvList b prefix) w))
      as (out & w' & -> & (Hg & Hw & Hout) & Hsub & _ & Hall & Hcache).
    exists out. cbn [fst snd]. split; [done|]. split.
    { intros key Hkey. destruct (Hsub key Hkey) as [Hin|Hin]; [|done].
      rewrite dom_empty in Hin. by apply elem_of_empty in Hin. }
    split; [done|]. split.
    { rewrite Hw. unfold after_request. wsimpl. rewrite filter_app. cbn.
      by rewrite app_nil_r. }
    split.
    { intros -> key Hkey. apply (Hcache eq_refl); [|done].
      intros key1 Hin. rewrite dom_empty in Hin. by apply elem_of_empty in Hin. }
    split.
    { unfold wanted. destruct limit as [n|]; [|done]. unfold slice_to.
      destruct (0 <=? n); apply prefix_take. }
    split.
    + intros n -> Hn. unfold wanted, slice_to.
      assert ((0 <=? n) = true) as -> by lia. rewrite length_take. lia.
    + intros n -> Hn. unfold wanted, slice_to.
      assert ((0 <=? n) = false) as -> by lia. rewrite length_take. lia.
  - intros e Hlist. unfold call, load_prefix. unfold mbind, M_bind at 1.
    rewrite (_ensure_connected_noop w Hc).
    unfold bucket_attr, after_request. unfold_M. rewrite Hb. wsimpl.
    by rewrite Hlist.
Qed.

End WithLibraries.

(** On the small deployment: simulation 1 is easy, simulation 2 is
    hard. *)
Lemma difficulty_tiers_partition_witness :
  let select d := @_indices_for_difficulty plain_json d
                    DEFAULT_ACIC22_METADATA DEFAULT_ACIC22_DGP_INFO true fresh in
  (select (Some "easy")).1 = Ok [1]
  ∧ (select (Some " hard ")).1 = Ok [2]
  ∧ ∀ i, i ∈ [1] → i ∉ [2].
Proof.
  intros select.
  split; [vm_compute; reflexivity|]. split; [vm_compute; reflexivity|].
  destruct (@difficulty_tiers_partition plain_json
              DEFAULT_ACIC22_METADATA DEFAULT_ACIC22_DGP_INFO true fresh
              "easy" " hard " [1] (select (Some "easy")).2
              [2] (select (Some " hard ")).2 [1; 2] (select None).2)
    as (_ & _ & _ & Hdisjoint).
  - vm_compute. reflexivity.
  - vm_compute. reflexivity.
  - vm_compute. reflexivity.
  - apply Hdisjoint; vm_compute; discriminate.
Defined.


Lemma tier_wrappers_exact_witness :
  (@load_easy plain_pandas plain_json DEFAULT_SIM_PREFIX true
     DEFAULT_ACIC22_METADATA DEFAULT_ACIC22_DGP_INFO fresh).1 = Ok [(1, [Byte.x01])]
  ∧ ∃ rec g grec,
      metadata_index !! 1 = Some rec ∧ rec_dgp rec = Some g
      ∧ dgp_index !! g = Some grec ∧ rec_difficulty_tier grec = Some "easy".
Proof.
  split; [vm_compute; reflexivity|].
  destruct (@tier_wrappers_exact plain_pandas plain_json DEFAULT_SIM_PREFIX true
              DEFAULT_ACIC22_METADATA DEFAULT_ACIC22_DGP_INFO fresh
              metadata_index
              (@_load_acic22_metadata plain_json DEFAULT_ACIC22_METADATA true fresh).2
              dgp_index
              (@_indices_for_difficulty plain_json (Some "easy")
                 DEFAULT_ACIC22_METADATA DEFAULT_ACIC22_DGP_INFO true fresh).2)
    as (_ & Heasy & _).
  - vm_compute. reflexivity.
  - vm_compute. reflexivity.
  - apply (Heasy [(1, [Byte.x01])]
             (@load_easy plain_pandas plain_json DEFAULT_SIM_PREFIX true
                DEFAULT_ACIC22_METADATA DEFAULT_ACIC22_DGP_INFO fresh).2).
    + vm_compute. reflexivity.
    + by left.
Defined.

(** On the small deployment: of three keys listed, one loads, one is of no
    known format, one is not there. *)
Lemma load_prefix_isolates_failures_witness :
  let w := session true noted_store in
  let call := @load_prefix plain_pandas "acic22/truth" None true w in
  call.1 = Ok {[ "acic22/truth/truth_0005.parquet" := [Byte.x05] ]}
  ∧ stdout call.2
    = (stdout w ++
       [ "Failed to load acic22/truth/notes.txt: Unsupported file type: acic22/truth/notes.txt";
         failure_line "acic22/truth/truth_0007.parquet" not_found ])%list
  ∧ ∃ out, call.1 = Ok out
           ∧ filter is_write (history call.2) = filter is_write (history w).
Proof.
  intros w call.
  split; [vm_compute; reflexivity|]. split; [vm_compute; reflexivity|].
  destruct (@load_prefix_isolates_failures plain_pandas "acic22/truth" None true w
              main_bucket) as (Hlisted & _).
  - apply session_connected; vm_compute; discriminate.
  - vm_compute. reflexivity.
  - destruct (Hlisted [ "acic22/truth/truth_0005.parquet"; "acic22/truth/notes.txt";
                        "acic22/truth/truth_0007.parquet" ])
      as (out & Hok & _ & _ & Hw & _).
    + vm_compute. reflexivity.
    + by exists out.
Defined.

Section WithLibraries.
Context `{!Pandas, !Json, !Numpy}.

Lemma make_rng_quiet seed w rng w' :
  make_rng seed w = (Ok rng, w') →
  history w' = history w ∧ loaders w' = loaders w ∧ backend w' = backend w.
Proof.
  unfold make_rng. destruct seed as [s|]; unfold_M.
  - destruct (default_rng s); [|done]. by intros [= _ <-].
  - by intros [= _ <-].
Qed.

(** X27.  A [bool] passes the test for an [int] that [load_random_simulations]
    makes.  [False] is refused as not positive.  [True] counts as 1 in both
    size checks: with no eligible simulation it is refused as too large,
    and otherwise the generator is made and [rng.choice] refuses the size
    with [TypeError], so that nothing is drawn and no simulation is asked
    for, where the [int] 1 has one simulation drawn and loaded. *)
Theorem load_random_simulations_bool difficulty prefix seed use_cache msrc dsrc w
    eligible w1 :
  _indices_for_difficulty difficulty msrc dsrc use_cache w = (Ok eligible, w1) →
  let call n := load_random_simulations n difficulty prefix seed use_cache msrc dsrc w in
  call (NBool false) = (Raise (ValueError "n must be a positive integer."), w)
  ∧ (eligible = [] →
     call (NBool true) = (Raise (ValueError (msg_too_many "True" 0 difficulty)), w1))
  ∧ (eligible ≠ [] → forallb in_int64 eligible = true →
     ∀ rng w2, make_rng seed w1 = (Ok rng, w2) →
       call (NBool true) = (Raise (TypeError size_bool_text), w2)
       ∧ history w2 = history w1
       ∧ loaders w2 = loaders w1
       ∧ call (NInt 1)
         = load_simulations (draw_sorted rng eligible 1) prefix use_cache msrc w2).
Proof.
  intros He call. unfold call. split; [done|].
  rewrite (load_random_simulations_run (NBool true) 1 _ _ _ _ _ _ _ _ _ eq_refl
             Z.lt_0_1 He).
  rewrite (load_random_simulations_run (NInt 1) 1 _ _ _ _ _ _ _ _ _ eq_refl
             Z.lt_0_1 He).
  split.
  - by intros ->.
  - intros Hne Hrange rng w2 Hrng.
    assert ((Z.of_nat (length eligible) <? 1) = false) as ->.
    { destruct eligible; [done|]. apply Z.ltb_ge. cbn [length]. lia. }
    destruct (make_rng_quiet _ _ _ _ Hrng) as (Hh & Hl & _).
    rewrite !(bind_ok _ _ _ _ _ Hrng).
    unfold np_array_int. rewrite Hrange. unfold_M. by cbn [sample].
Qed.

End WithLibraries.

(** On the small deployment: [True] for one simulation out of two. *)
Lemma load_random_simulations_bool_witness :
  ∃ msg,
    (@load_random_simulations plain_pandas plain_json plain_numpy (NBool true)
       (Some "all") DEFAULT_SIM_PREFIX (Some 3) true
       DEFAULT_ACIC22_METADATA DEFAULT_ACIC22_DGP_INFO fresh).1
    = Raise (TypeError msg).
Proof.
  destruct (@_indices_for_difficulty plain_json (Some "all")
              DEFAULT_ACIC22_METADATA DEFAULT_ACIC22_DGP_INFO true fresh)
    as [[eligible|e] w1] eqn:He; pose proof He as Hrun; vm_compute in He;
    [|discriminate He].
  injection He as <- <-.
  destruct (@load_random_simulations_bool plain_pandas plain_json plain_numpy
              (Some "all") DEFAULT_SIM_PREFIX (Some 3) true
              DEFAULT_ACIC22_METADATA DEFAULT_ACIC22_DGP_INFO fresh _ _ Hrun)
    as (_ & _ & Htrue).
  exists (@size_bool_text plain_numpy).
  destruct (Htrue ltac:(discriminate) ltac:(vm_compute; reflexivity) 3 _ eq_refl)
    as (-> & _).
  reflexivity.
Defined.

End LoadersBehaviour.

(** ** truth_matcher.py: index arguments, the loop and the prompt *)
Module TruthMatcherBehaviour.
Import Py World Backend Loaders TruthMatcher Run Scenario PyFacts BackendFacts
  LoadersFacts TruthMatcherFacts.

Lemma convert_all_ok raw out s :
  convert_all raw out = Ok s →
  Forall int_like raw ∧ ∀ z, z ∈ s ↔ IntLike z ∈ raw ∨ z ∈ out.
Proof.
  revert out. induction raw as [|[z0|x] raw IH]; intros out; cbn [convert_all].
  - intros [= <-]. split; [constructor|]. intros z. rewrite elem_of_nil. tauto.
  - intros [Hall Hs]%IH. split; [constructor; [by eexists|done]|].
    intros z. rewrite Hs, elem_of_cons, elem_of_union, elem_of_singleton.
    split; [intros [?|[->|?]]; eauto|].
    intros [[[= ->]|?]|?]; eauto.
  - done.
Qed.

Lemma convert_all_first_bad pre x post out :
  Forall int_like pre →
  convert_all (pre ++ NotIntLike x :: post) out
    = Raise (TypeError ("Index value '" +:+ x +:+ "' cannot be converted to int.")).
Proof.
  intros Hpre. revert out. induction Hpre as [|it pre [z ->] _ IH]; intros out; [done|].
  cbn [app convert_all]. apply IH.
Qed.

Lemma normalized_items items idxs :
  _normalize_indices (ArgIterable items) = Ok idxs →
  StronglySorted Z.lt idxs
  ∧ (∀ z, z ∈ idxs ↔ IntLike z ∈ items)
  ∧ Forall int_like items.
Proof.
  intros Hn. cbn [_normalize_indices] in Hn. unfold normalize_raw in Hn.
  destruct (convert_all items ∅) as [s|e] eqn:Hc; [|done]. injection Hn as <-.
  apply convert_all_ok in Hc as [Hall Hs].
  split; [apply sorted_set_ascending|]. split; [|done].
  intros z. rewrite elem_of_sorted_set, Hs. set_solver.
Qed.

(** X21.  [_normalize_indices] turns its argument into the ascending list of the
    numbers in it, each once: the order and the repetitions of the
    argument do not matter, a mapping counts by its keys, [None] is the
    empty list and a single [int] the list of it.  The result normalized
    again is itself.  An element that [int] refuses raises [TypeError]
    naming the first such element. *)
Theorem _normalize_indices_ascending :
  _normalize_indices ArgNone = Ok []
  ∧ (∀ z, _normalize_indices (ArgInt z) = Ok [z])
  ∧ (∀ keys, _normalize_indices (ArgMapping keys) = _normalize_indices (ArgIterable keys))
  ∧ (∀ items idxs,
       _normalize_indices (ArgIterable items) = Ok idxs →
       StronglySorted Z.lt idxs
       ∧ (∀ z, z ∈ idxs ↔ IntLike z ∈ items)
       ∧ Forall int_like items
       ∧ _normalize_indices (ArgIterable (IntLike <$> idxs)) = Ok idxs)
  ∧ (∀ l1 l2 : list Z,
       (∀ z, z ∈ l1 ↔ z ∈ l2) →
       _normalize_indices (ArgIterable (IntLike <$> l1))
         = _normalize_indices (ArgIterable (IntLike <$> l2)))
  ∧ (∀ l : list Z, ∃ idxs, _normalize_indices (ArgIterable (IntLike <$> l)) = Ok idxs)
  ∧ (∀ pre x post,
       Forall int_like pre →
       _normalize_indices (ArgIterable (pre ++ NotIntLike x :: post))
         = Raise (TypeError ("Index value '" +:+ x +:+ "' cannot be converted to int."))).
Proof.
  split; [done|]. split.
  { intros z. cbn [_normalize_indices].
    change [IntLike z] with (IntLike <$> [z]). rewrite (normalize_raw_ints [z]).
    f_equal. apply sorted_set_unique; [repeat constructor|].
    apply NoDup_singleton. }
  split; [done|]. split; [|split; [|split]].
  - intros items idxs Hn.
    pose proof (normalize_again _ _ Hn) as Hagain.
    destruct (normalized_items _ _ Hn) as (Hasc & Hin & Hall).
    split; [done|]. split; [done|]. by split.
  - intros l1 l2 Heq. cbn [_normalize_indices]. rewrite !normalize_raw_ints.
    do 2 f_equal. unfold set_of. apply set_eq. intros z.
    rewrite !elem_of_list_to_set. apply Heq.
  - intros l. cbn [_normalize_indices]. rewrite normalize_raw_ints. eauto.
  - intros pre x post Hpre. cbn [_normalize_indices]. unfold normalize_raw.
    by rewrite convert_all_first_bad.
Qed.

(** A download leaves the warnings that were emitted alone. *)
Lemma _download_file_warned key use_cache w r w' :
  _download_file key use_cache w = (r, w') → warned w' = warned w.
Proof.
  destruct (download_file_cases key use_cache w) as [(data & -> & Hhit)|Hmiss].
  - rewrite (_download_file_hit key data w Hhit). by intros [= <- <-].
  - rewrite (_download_file_miss key use_cache w Hmiss).
    destruct (_ensure_connected w) as [[[]|e] w1] eqn:Hens;
      apply _ensure_connected_effect in Hens as ((_ & _ & _ & _ & Hw & _) & _).
    + destruct (_BUCKET (backend w1)) as [b|]; [|by intros [= <- <-]].
      destruct (download_fileobj _ _ _ _) as [data|e]; intros [= <- <-];
        [destruct use_cache|]; unfold after_request; by wsimpl.
    + by intros [= <- <-].
Qed.

Section WithLibraries.
Context `{!Pandas}.

Lemma load_file_warned key use_cache w r w' :
  load_file key use_cache w = (r, w') → warned w' = warned w.
Proof.
  unfold load_file. unfold mbind, M_bind.
  destruct (_download_file key use_cache w) as [[data|e] w1] eqn:Hd;
    apply _download_file_warned in Hd.
  - unfold lift. by intros [= <- <-].
  - by intros [= <- <-].
Qed.

(** The loop of [load_truths] over indices that are new to it: each index
    ends up among the keys of the dict or among the missing files, in the
    order of the indices. *)
Lemma load_all_split prefix use_cache on_missing idxs st w st' w' :
  load_all prefix use_cache on_missing idxs st w = (Ok st', w') →
  NoDup idxs →
  (∀ i, i ∈ idxs → i ∉ dict_keys (l_truth st)) →
  ∃ loaded missing,
    dict_keys (l_truth st') = (dict_keys (l_truth st) ++ loaded)%list
    ∧ l_missing_files st' = (l_missing_files st ++ missing)%list
    ∧ loaded `sublist_of` idxs
    ∧ missing `sublist_of` idxs
    ∧ (loaded ++ missing)%list ≡ₚ idxs
    ∧ (missing ≠ [] → on_missing = "warn" ∨ on_missing = "ignore")
    ∧ (on_missing = "ignore" →
       l_warnings_out st' = l_warnings_out st ∧ warned w' = warned w)
    ∧ (on_missing = "warn" →
       l_warnings_out st' = (l_warnings_out st ++ (missing_line prefix <$> missing))%list
       ∧ warned w' = (warned w ++ (missing_line prefix <$> missing))%list).
Proof.
  revert st w. induction idxs as [|idx idxs IH]; intros st w Hrun Hnd Hnew.
  - cbn [load_all] in Hrun. injection Hrun as <- <-. exists [], [].
    rewrite !app_nil_r. cbn. by repeat split.
  - cbn [load_all] in Hrun. apply bind_inv_ok in Hrun as (st1 & w1 & Hone & Hrest).
    apply NoDup_cons in Hnd as [Hidx Hnd].
    destruct (load_file (_truth_key idx prefix) use_cache w) as [[df|e] wa] eqn:Hf;
      pose proof (load_file_warned _ _ _ _ _ Hf) as Hwa.
    + rewrite (load_one_loaded _ _ _ _ _ _ _ _ Hf) in Hone. injection Hone as <- <-.
      rewrite dict_set_fresh in Hrest by (apply Hnew; left).
      destruct (IH _ _ Hrest Hnd)
        as (loaded & missing & Hk & Hm & Hsl & Hsm & Hperm & Hpol & Hign & Hwarn).
      { cbn [l_truth]. unfold dict_keys. rewrite fmap_app. cbn.
        intros i Hi [Hin|Hin]%elem_of_app.
        - apply (Hnew i); [by right|done].
        - apply list_elem_of_singleton in Hin as ->. done. }
      cbn [l_truth l_missing_files l_warnings_out] in *.
      exists (idx :: loaded), missing.
      split. { rewrite Hk. unfold dict_keys. rewrite fmap_app. cbn.
               by rewrite <- app_assoc. }
      split; [done|]. split; [by apply sublist_skip|]. split; [by apply sublist_cons|].
      split; [cbn; by rewrite Hperm|]. split; [done|].
      split; [intros Ho; rewrite <- Hwa; by apply Hign|].
      intros Ho. rewrite <- Hwa. by apply Hwarn.
    + rewrite (load_one_failed _ _ _ _ _ _ _ _ Hf) in Hone.
      destruct (taken_as_missing e); [|done].
      assert (on_missing = "warn" ∨ on_missing = "ignore") as Hom.
      { destruct (decide (on_missing = "warn")) as [|Hnw]; [by left|].
        destruct (decide (on_missing = "ignore")) as [|Hni]; [by right|].
        destruct (decide (on_missing = "error")) as [->|Hne].
        - by rewrite note_missing_error in Hone.
        - rewrite note_missing_invalid in Hone; [done|].
          unfold VALID_ON_MISSING. set_solver. }
      assert (∃ more,
                st1 = noted_missing idx (l_warnings_out st ++ more) st
                ∧ warned w1 = (warned w ++ more)%list
                ∧ (on_missing = "ignore" → more = [])
                ∧ (on_missing = "warn" → more = [missing_line prefix idx]))
        as (more & -> & Hw1 & Hmi & Hmw).
      { destruct Hom as [->| ->].
        - rewrite note_missing_warn in Hone. injection Hone as <- <-.
          exists [missing_line prefix idx]. wsimpl. rewrite Hwa. by repeat split.
        - rewrite note_missing_ignore in Hone. injection Hone as <- <-.
          exists []. rewrite !app_nil_r. by repeat split. }
      destruct (IH _ _ Hrest Hnd)
        as (loaded & missing & Hk & Hm & Hsl & Hsm & Hperm & Hpol & Hign & Hwarn).
      { cbn [noted_missing l_truth]. intros i Hi. apply Hnew. by right. }
      cbn [noted_missing l_truth l_missing_files l_warnings_out] in *.
      exists loaded, (idx :: missing).
      split; [done|]. split; [by rewrite Hm, <- app_assoc|].
      split; [by apply sublist_cons|]. split; [by apply sublist_skip|].
      split. { rewrite <- Hperm. by rewrite Permutation_middle. }
      split; [done|]. split.
      * intros Ho. destruct (Hign Ho) as [-> ->]. rewrite Hw1, (Hmi Ho), !app_nil_r. done.
      * intros Ho. destruct (Hwarn Ho) as [-> ->]. rewrite Hw1, (Hmw Ho).
        cbn [fmap list_fmap]. by rewrite <- !app_assoc.
Qed.

Lemma sublist_ascending (l k : list Z) :
  l `sublist_of` k → StronglySorted Z.lt k → StronglySorted Z.lt l.
Proof.
  intros Hsub Hk. revert l Hsub. induction Hk as [|x k Hk IH Hx]; intros l Hsub.
  - apply sublist_nil_r in Hsub as ->. constructor.
  - apply sublist_cons_r in Hsub as [Hsub|(l' & -> & Hsub)]; [by apply IH|].
    constructor; [by apply IH|].
    apply Forall_forall. intros y Hy. rewrite Forall_forall in Hx. apply Hx.
    by apply (elem_of_sublist _ _ _ Hy Hsub).
Qed.

Lemma ascending_le (l : list Z) : StronglySorted Z.lt l → Sorted Z.le l.
Proof.
  intros Hl. apply StronglySorted_Sorted.
  induction Hl as [|x l _ IH Hx]; constructor; [done|].
  eapply Forall_impl; [exact Hx|]. intros y. cbv beta. lia.
Qed.

Lemma ascending_sorted (l : list Z) : StronglySorted Z.lt l → merge_sort Z.le l = l.
Proof.
  intros Hl.
  assert (NoDup l) as Hnd by by apply StronglySorted_NoDup_lt.
  pose proof (ascending_le l Hl) as Hs.
  rewrite <- (sorted_set_unique l Hs Hnd) at 2.
  rewrite <- (sorted_set_unique (merge_sort Z.le l)).
  - by rewrite set_of_merge_sort.
  - apply (Sorted_merge_sort Z.le).
  - by rewrite merge_sort_Permutation.
Qed.

(** In a bundle of [load_truths] the files that were missing are the
    indices without truth. *)
Lemma load_truths_missing_agree indices prefix use_cache on_missing w b w' :
  load_truths indices prefix use_cache on_missing w = (Ok b, w') →
  missing_truth_files b = missing_for_simulations b.
Proof.
  intros Hrun.
  apply load_truths_inv in Hrun as (idxs & st & Hn & Hall & ->).
  cbn [missing_truth_files missing_for_simulations].
  destruct (_normalize_indices_sorted _ _ Hn) as [s ->].
  pose proof (sorted_set_ascending s) as Hasc.
  destruct (load_all_split _ _ _ _ _ _ _ _ Hall)
    as (loaded & missing & Hk & Hm & Hsl & Hsm & Hperm & _).
  { apply sorted_set_NoDup. } { by intros i _ ?%elem_of_nil. }
  cbn [nothing_loaded l_truth l_missing_files dict_keys fmap list_fmap app] in Hk, Hm.
  change ((l_truth st).*1) with (dict_keys (l_truth st)) in Hk.
  rewrite Hk, Hm.
  pose proof (sublist_ascending _ _ Hsl Hasc) as Hla.
  pose proof (sublist_ascending _ _ Hsm Hasc) as Hma.
  rewrite !(ascending_sorted loaded Hla), !(ascending_sorted missing Hma).
  assert (NoDup (loaded ++ missing)) as Hnd.
  { rewrite Hperm. apply sorted_set_NoDup. }
  apply NoDup_app in Hnd as (_ & Hdisj & _).
  rewrite <- (sorted_set_unique missing) at 1;
    [|by apply ascending_le|by apply StronglySorted_NoDup_lt].
  f_equal. unfold set_of. apply set_eq. intros i.
  rewrite elem_of_difference, !elem_of_list_to_set, <- Hperm, elem_of_app.
  split; [intros Hi; split; [by right|]; intros Hl; by apply (Hdisj i)|].
  intros [[?|?] ?]; done.
Qed.

(** X22.  A bundle of [load_truths] divides the indices asked for into the keys
    of the dict and the missing files: the two lists share no index, both
    are ascending, and [missing_truth_files] is the same list as
    [missing_for_simulations].  Under [ignore] no warning is recorded or
    emitted; under [warn] there is one warning for each missing file, in
    the order of the indices, recorded and emitted alike.  Under [error]
    a bundle has no missing file. *)
Theorem load_truths_partition indices prefix use_cache on_missing w b w' :
  load_truths indices prefix use_cache on_missing w = (Ok b, w') →
  missing_truth_files b = missing_for_simulations b
  ∧ extra_truth b = []
  ∧ simulation_indices b = truth_indices_requested b
  ∧ (∀ i, i ∈ truth_indices_requested b ↔
            i ∈ dict_keys (truth b) ∨ i ∈ missing_truth_files b)
  ∧ (∀ i, i ∈ dict_keys (truth b) → i ∉ missing_truth_files b)
  ∧ StronglySorted Z.lt (dict_keys (truth b))
  ∧ StronglySorted Z.lt (missing_truth_files b)
  ∧ (on_missing = "ignore" → warnings b = [] ∧ warned w' = warned w)
  ∧ (on_missing = "warn" →
     warnings b = missing_line prefix <$> missing_truth_files b
     ∧ warned w' = (warned w ++ warnings b)%list)
  ∧ (on_missing ≠ "warn" → on_missing ≠ "ignore" → missing_truth_files b = []).
Proof.
  intros Hrun.
  split; [by apply (load_truths_missing_agree _ _ _ _ _ _ _ Hrun)|].
  apply load_truths_inv in Hrun as (idxs & st & Hn & Hall & ->).
  cbn [missing_truth_files missing_for_simulations extra_truth simulation_indices
       truth_indices_requested truth warnings].
  destruct (_normalize_indices_sorted _ _ Hn) as [s ->].
  pose proof (sorted_set_ascending s) as Hasc.
  destruct (load_all_split _ _ _ _ _ _ _ _ Hall)
    as (loaded & missing & Hk & Hm & Hsl & Hsm & Hperm & Hpol & Hign & Hwarn).
  { apply sorted_set_NoDup. } { by intros i _ ?%elem_of_nil. }
  cbn [nothing_loaded l_truth l_missing_files l_warnings_out dict_keys fmap list_fmap app]
    in Hk, Hm, Hign, Hwarn.
  change ((l_truth st).*1) with (dict_keys (l_truth st)) in Hk.
  rewrite Hk, Hm.
  pose proof (sublist_ascending _ _ Hsl Hasc) as Hla.
  pose proof (sublist_ascending _ _ Hsm Hasc) as Hma.
  rewrite ?(ascending_sorted loaded Hla), ?(ascending_sorted missing Hma).
  assert (NoDup (loaded ++ missing)) as Hnd.
  { rewrite Hperm. apply sorted_set_NoDup. }
  apply NoDup_app in Hnd as (_ & Hdisj & _).
  assert (∀ i, i ∈ sorted_set s ↔ i ∈ loaded ∨ i ∈ missing) as Hcover.
  { intros i. by rewrite <- Hperm, elem_of_app. }
  split; [done|]. split; [done|]. split; [done|]. split; [done|].
  split; [done|]. split; [done|]. split; [done|]. split.
  { intros Ho. destruct (Hwarn Ho) as [-> ->]. done. }
  intros Hnw Hni. destruct missing as [|m missing]; [done|].
  destruct Hpol as [?|?]; done.
Qed.

(** A loop that noted no missing file runs the same under every policy. *)
Lemma load_all_policy_free prefix use_cache on_missing other idxs st w st' w' :
  load_all prefix use_cache on_missing idxs st w = (Ok st', w') →
  l_missing_files st' = l_missing_files st →
  load_all prefix use_cache other idxs st w = (Ok st', w').
Proof.
  revert st w. induction idxs as [|idx idxs IH]; intros st w Hrun Hnone; [done|].
  cbn [load_all] in *. apply bind_inv_ok in Hrun as (st1 & w1 & Hone & Hrest).
  pose proof (load_all_inv _ _ _ _ _ _ _ _ Hrest) as (_ & _ & (more & Hmore) & _).
  destruct (load_file (_truth_key idx prefix) use_cache w) as [[df|e] wa] eqn:Hf.
  - rewrite (load_one_loaded _ _ _ _ _ _ _ _ Hf) in Hone. injection Hone as <- <-.
    unfold mbind, M_bind. rewrite (load_one_loaded _ _ _ _ _ _ _ _ Hf).
    by apply IH.
  - rewrite (load_one_failed _ _ _ _ _ _ _ _ Hf) in Hone.
    destruct (taken_as_missing e) eqn:Hmiss.
    + apply bind_inv_ok in Hone as (ws & wb & _ & Hret).
      injection Hret as <- <-. cbn [l_missing_files] in Hmore.
      rewrite Hmore, <- app_assoc in Hnone.
      apply (f_equal length) in Hnone. rewrite !length_app in Hnone. simpl in Hnone. lia.
    + done.
Qed.

(** X23.  The policy [on_missing] is looked at only when a file is missing: a
    call that finds every file returns the same bundle whatever the
    policy is called, so a misspelt policy goes unnoticed as long as no
    file is missing. *)
Theorem on_missing_checked_lazily indices prefix use_cache on_missing w b w' :
  load_truths indices prefix use_cache on_missing w = (Ok b, w') →
  missing_truth_files b = [] →
  (∀ other, load_truths indices prefix use_cache other w = (Ok b, w'))
  ∧ load_truths indices prefix use_cache "no-such-policy" w = (Ok b, w').
Proof.
  intros Hrun Hnone.
  assert (∀ other, load_truths indices prefix use_cache other w = (Ok b, w')) as Hany;
    [|by split].
  intros other.
  pose proof (load_truths_inv _ _ _ _ _ _ _ Hrun) as (idxs & st & Hn & Hall & ->).
  cbn [missing_truth_files] in Hnone.
  assert (l_missing_files st = []) as Hm.
  { apply Permutation_nil_r. by rewrite <- Hnone, merge_sort_Permutation. }
  assert (∀ keys, indices ≠ ArgMapping keys) as Hnm.
  { intros keys ->. done. }
  rewrite (load_truths_run _ _ _ _ _ _ Hnm Hn).
  by rewrite (load_all_policy_free _ _ _ other _ _ _ _ _ Hall Hm).
Qed.

(** X24.  With the policy [warn] and a prompt asked for, the diagnostic is
    recorded and emitted before anything is read.  Off a terminal a second
    warning says so and the call goes on.  On a terminal one line is read:
    only [y] or [yes], in any letter case and with white space around it,
    lets the call go on; every other answer, the empty one too, raises
    [RuntimeError], and the end of the input raises as [input] does. *)
Theorem _handle_mismatch_prompt msg ws w :
  let call := _handle_mismatch msg "warn" true ws w in
  let asked := "Mismatch detected. Continue anyway? [y/N]: " in
  (stdin_isatty w = false →
     call = (Ok (ws ++ [msg; msg_non_interactive])%list,
             with_warned (warned w ++ [msg; msg_non_interactive]) w))
  ∧ (∀ line rest,
       stdin_isatty w = true → stdin w = line :: rest →
       warned call.2 = (warned w ++ [msg])%list
       ∧ stdout call.2 = (stdout w ++ [asked])%list
       ∧ stdin call.2 = rest
       ∧ (str_lower (str_strip line) = "y" ∨ str_lower (str_strip line) = "yes" →
          call.1 = Ok (ws ++ [msg])%list)
       ∧ (str_lower (str_strip line) ≠ "y" → str_lower (str_strip line) ≠ "yes" →
          call.1 = Raise (RuntimeError "Aborted by user due to truth/simulation mismatch.")))
  ∧ (stdin_isatty w = true → stdin w = [] →
       call.1 = Raise (OtherException "EOF when reading a line")
       ∧ warned call.2 = (warned w ++ [msg])%list)
  ∧ str_lower (str_strip " YES ") = "yes"
  ∧ str_lower (str_strip EmptyString) ≠ "y" ∧ str_lower (str_strip EmptyString) ≠ "yes"
  ∧ str_lower (str_strip "yeah") ≠ "y" ∧ str_lower (str_strip "yeah") ≠ "yes".
Proof.
  intros call asked. unfold call, _handle_mismatch, _can_prompt, input.
  destruct (decide ("warn" ∈ VALID_ON_MISMATCH)) as [_|Hn];
    [|destruct Hn; unfold VALID_ON_MISMATCH; set_solver].
  destruct (decide ("warn" = "ignore")) as [?|_]; [done|].
  destruct (decide ("warn" = "error")) as [?|_]; [done|].
  unfold_M. wsimpl.
  split; [|split; [|split]].
  - intros ->. cbv beta. wsimpl. by rewrite <- !app_assoc.
  - intros line rest Htty Hin. rewrite Htty. cbv beta. wsimpl. rewrite Hin. wsimpl.
    destruct (decide (str_lower (str_strip line) ∈ ({[ "y"; "yes" ]} : gset string)))
      as [Hyes|Hno]; wsimpl.
    + split; [done|]. split; [done|]. split; [done|]. split; [done|].
      intros Hny Hnyes. set_solver.
    + split; [done|]. split; [done|]. split; [done|]. split; [|done].
      intros Hyes. destruct Hno. set_solver.
  - intros Htty Hin. rewrite Htty. cbv beta. wsimpl. rewrite Hin. by wsimpl.
  - by vm_compute.
Qed.

(** X25.  Arguments of the wrong kind are refused before anything is loaded,
    sent or written: a mapping given to [load_truths], something that is
    no mapping given to [truth_for_simulations], and an element that
    [int] refuses among the indices or among the explicit truth indices.
    No indices at all give the empty bundle, which is a full match. *)
Theorem truth_arguments_checked_first prefix use_cache on_missing on_mismatch prompt w :
  (∀ keys,
     load_truths (ArgMapping keys) prefix use_cache on_missing w
       = (Raise (TypeError msg_load_truths_mapping), w))
  ∧ (∀ truth_indices,
       truth_for_simulations SimsNotMapping truth_indices prefix use_cache
         on_missing on_mismatch prompt w
         = (Raise (TypeError msg_sims_not_mapping), w))
  ∧ (∀ pre x post,
       Forall int_like pre →
       load_truths (ArgIterable (pre ++ NotIntLike x :: post)) prefix use_cache on_missing w
         = (Raise (TypeError ("Index value '" +:+ x
                                +:+ "' cannot be converted to int.")), w))
  ∧ (∀ keys pre x post,
       Forall int_like keys → Forall int_like pre →
       truth_for_simulations (SimsMapping keys)
         (ArgIterable (pre ++ NotIntLike x :: post)) prefix use_cache
         on_missing on_mismatch prompt w
         = (Raise (TypeError ("Index value '" +:+ x
                                +:+ "' cannot be converted to int.")), w))
  ∧ (∃ b, load_truths ArgNone prefix use_cache on_missing w = (Ok b, w)
          ∧ truth b = [] ∧ truth_indices_requested b = []
          ∧ missing_truth_files b = [] ∧ warnings b = []
          ∧ is_full_match b = true).
Proof.
  split; [done|]. split; [done|]. split; [|split].
  - intros pre x post Hpre. unfold load_truths. unfold_M.
    cbn [_normalize_indices]. unfold normalize_raw.
    by rewrite convert_all_first_bad.
  - intros keys pre x post Hkeys Hpre. unfold truth_for_simulations. unfold_M.
    cbn [_normalize_indices is_None]. unfold normalize_raw.
    rewrite convert_all_first_bad by done.
    destruct (convert_all keys ∅) as [s|e] eqn:Hc; [done|].
    exfalso. clear -Hkeys Hc. revert Hc. generalize (∅ : gset Z).
    induction Hkeys as [|it keys [z ->] _ IH]; intros out; [done|].
    cbn [convert_all]. apply IH.
  - eexists. split; [reflexivity|]. cbn [truth truth_indices_requested missing_truth_files
      warnings nothing_loaded l_truth l_missing_files l_warnings_out].
    split; [done|]. split; [done|]. split; [done|]. split; [done|].
    by vm_compute.
Qed.

(** X26.  With no explicit truth indices [truth_for_simulations] asks for the
    truth of the simulations and of nothing else: the bundle has no extra
    truth, the simulations without truth are the files that were missing,
    and the match is full exactly when no file was missing. *)
Theorem automatic_matching_has_no_extra keys prefix use_cache on_missing on_mismatch
    prompt w b w' :
  truth_for_simulations (SimsMapping keys) ArgNone prefix use_cache
    on_missing on_mismatch prompt w = (Ok b, w') →
  extra_truth b = []
  ∧ truth_indices_requested b = simulation_indices b
  ∧ missing_for_simulations b = missing_truth_files b
  ∧ (is_full_match b = true ↔ missing_truth_files b = [])
  ∧ (∀ z, z ∈ simulation_indices b ↔ IntLike z ∈ keys).
Proof.
  intros Hrun.
  apply truth_for_simulations_inv in Hrun
    as (keys0 & sim & req & lb & w1 & ws & [= <-] & Hsim & Hreq & Hlb & ->).
  cbn [is_None] in Hreq. injection Hreq as <-.
  pose proof (load_truths_keys _ _ _ _ _ _ _ Hlb) as (Hnd & Hsub & Hsame & Hnorm).
  rewrite (normalize_again _ _ Hsim) in Hnorm. injection Hnorm as Hreq.
  pose proof (load_truths_missing_agree _ _ _ _ _ _ _ Hlb) as Hagree.
  pose proof (load_truths_inv _ _ _ _ _ _ _ Hlb) as (idxs & st & Hn & _ & Hb).
  rewrite (normalize_again _ _ Hsim) in Hn. injection Hn as <-.
  cbn [matched_bundle extra_truth truth_indices_requested simulation_indices
       missing_for_simulations missing_truth_files].
  assert (sorted_set (set_of (truth_indices_loaded lb) ∖ set_of sim) = []) as Hextra.
  { apply sorted_set_nil. unfold truth_indices_loaded. rewrite set_of_merge_sort.
    rewrite <- Hreq in Hsub. set_solver. }
  assert (sorted_set (set_of sim ∖ set_of (truth_indices_loaded lb))
          = missing_truth_files lb) as Hmissing.
  { rewrite Hagree. rewrite Hb. reflexivity. }
  split; [done|]. split; [done|]. split; [done|]. split.
  - rewrite full_match_iff. cbn [matched_bundle missing_for_simulations extra_truth].
    rewrite Hextra, Hmissing. tauto.
  - destruct normalized_items with (items := keys) (idxs := sim)
      as (_ & Hin & _); done.
Qed.

End WithLibraries.

(** On the small deployment: truth files for 5 and 6, none for 7. *)
Lemma load_truths_partition_witness :
  ∃ b w',
    @load_truths plain_pandas (ArgIterable [IntLike 7; IntLike 5; IntLike 6; IntLike 5])
      DEFAULT_TRUTH_PREFIX true "warn" fresh = (Ok b, w')
    ∧ dict_keys (truth b) = [5; 6]
    ∧ missing_truth_files b = [7] ∧ missing_for_simulations b = [7]
    ∧ warnings b = [missing_line DEFAULT_TRUTH_PREFIX 7]
    ∧ warned w' = [missing_line DEFAULT_TRUTH_PREFIX 7].
Proof.
  destruct (@load_truths plain_pandas (ArgIterable [IntLike 7; IntLike 5; IntLike 6; IntLike 5])
              DEFAULT_TRUTH_PREFIX true "warn" fresh) as [[b|e] w'] eqn:Hcall;
    pose proof Hcall as Hrun; vm_compute in Hcall; [|discriminate Hcall].
  exists b, w'. split; [reflexivity|].
  destruct (@load_truths_partition plain_pandas
              (ArgIterable [IntLike 7; IntLike 5; IntLike 6; IntLike 5])
              DEFAULT_TRUTH_PREFIX true "warn" fresh b w' Hrun)
    as (Hsame & _ & _ & _ & _ & _ & _ & _ & Hwarn & _).
  destruct (Hwarn eq_refl) as [Hws Hwd].
  assert (missing_truth_files b = [7]) as Hm.
  { injection Hcall as <- _. reflexivity. }
  split; [injection Hcall as <- _; reflexivity|].
  split; [exact Hm|]. split; [by rewrite <- Hsame|].
  split; [by rewrite Hws, Hm|].
  rewrite Hwd, Hws, Hm. reflexivity.
Defined.

Lemma on_missing_checked_lazily_witness :
  ∃ b w',
    @load_truths plain_pandas (ArgIterable [IntLike 5; IntLike 6])
      DEFAULT_TRUTH_PREFIX true "no-such-policy" fresh = (Ok b, w')
    ∧ dict_keys (truth b) = [5; 6].
Proof.
  destruct (@load_truths plain_pandas (ArgIterable [IntLike 5; IntLike 6])
              DEFAULT_TRUTH_PREFIX true "warn" fresh) as [[b|e] w'] eqn:Hcall;
    pose proof Hcall as Hrun; vm_compute in Hcall; [|discriminate Hcall].
  exists b, w'.
  destruct (@on_missing_checked_lazily plain_pandas (ArgIterable [IntLike 5; IntLike 6])
              DEFAULT_TRUTH_PREFIX true "warn" fresh b w' Hrun) as [_ Hlazy].
  - injection Hcall as <- _. reflexivity.
  - split; [exact Hlazy|]. injection Hcall as <- _. reflexivity.
Defined.

Lemma automatic_matching_has_no_extra_witness :
  ∃ b w',
    @truth_for_simulations plain_pandas simulations_567 ArgNone DEFAULT_TRUTH_PREFIX
      true "warn" "error" true fresh = (Ok b, w')
    ∧ extra_truth b = [] ∧ missing_for_simulations b = [7]
    ∧ missing_truth_files b = [7].
Proof.
  destruct (@truth_for_simulations plain_pandas simulations_567 ArgNone
              DEFAULT_TRUTH_PREFIX true "warn" "error" true fresh)
    as [[b|e] w'] eqn:Hcall;
    pose proof Hcall as Hrun; vm_compute in Hcall; [|discriminate Hcall].
  exists b, w'. split; [reflexivity|].
  destruct (@automatic_matching_has_no_extra plain_pandas
              [IntLike 5; IntLike 6; IntLike 7] DEFAULT_TRUTH_PREFIX true
              "warn" "error" true fresh b w' Hrun) as (Hextra & _ & Hagree & _).
  assert (missing_truth_files b = [7]) as Hm.
  { injection Hcall as <- _. reflexivity. }
  split; [exact Hextra|]. split; [by rewrite Hagree|exact Hm].
Defined.

End TruthMatcherBehaviour.
